(** * R3D2: wave sections and waves of the relativistic and shallow-water
      Riemann solvers

    A shallow embedding of [r3d2/wave.py] and [r3d2/swe/swe_wave.py].

    - Numbers are IEEE-754 binary64 values (Rocq's primitive [float]), the
      arithmetic numpy performs on [float64].
    - State objects live in a store and are referred to by location: the
      code shares them by reference, copies them with [deepcopy] and, in one
      place, assigns to an attribute of one.
    - A constructor that raises is an explicit [Raise]; the only loop without
      a bound (the bracket widening of [mass_flux_squared]) runs on fuel and
      answers [OutOfFuel] when the fuel is spent.
    - [scipy.optimize.brentq], [scipy.integrate.odeint], the cube [x**3]
      (the C library's [pow]) and the State classes ([r3d2/state.py],
      [r3d2/swe/swe_state.py]) are not part of the modelled sources; they
      are the fields of the classes [SciPy], [StateClass] and
      [SWEStateClass]. *)

From Stdlib Require Import Floats ZArith List String Bool Lia DecimalString.
From stdpp Require Import base list.
Import ListNotations.

Set Warnings "-inexact-float,-register-all".
Local Open Scope float_scope.

(* ================================================================= *)
(** ** Python and numpy values *)

(** [x**2]; binary64 squaring. *)
Definition pow2 (x : float) : float := x * x.

(** Conversion of a Python [int] to a float, as the mixed products
    [lr_sign * x] perform it (exact for the small values met here). *)
Definition Z2F (z : Z) : float := SF2Prim (binary_normalize prec emax z 0 false).

(** [a >= b] and [a > b] on floats. *)
Definition geb (a b : float) : bool := b <=? a.
Definition gtb (a b : float) : bool := b <? a.

(** Python's builtin [min(a, b)] and [max(a, b)]: the first argument is
    kept unless the second is strictly smaller (larger). *)
Definition pymin (a b : float) : float := if b <? a then b else a.
Definition pymax (a b : float) : float := if a <? b then b else a.

(** [numpy.isclose(a, b)] with the default [rtol = 1e-05], [atol = 1e-08]
    and [equal_nan = False]. *)
Definition rtol : float := 1e-05.
Definition atol : float := 1e-08.
Definition isclose (a b : float) : bool :=
  if is_finite a && is_finite b
  then abs (a - b) <=? atol + rtol * abs b
  else a =? b.

(** [numpy.allclose] on two scalars, and on two arrays of one shape. *)
Definition allclose (a b : float) : bool := isclose a b.

Fixpoint allclose_array (xs ys : list float) : bool :=
  match xs, ys with
  | [], [] => true
  | x :: xs', y :: ys' => isclose x y && allclose_array xs' ys'
  | _, _ => false
  end.

(** [numpy.linspace(start, stop, num)] for [num >= 2]: [num - 1] equal
    steps, the last sample being [stop] itself. *)
Definition linspace (start stop : float) (num : nat) : list float :=
  let step := (stop - start) / Z2F (Z.of_nat (num - 1)) in
  map (fun i => Z2F (Z.of_nat i) * step + start) (seq 0 (num - 1)) ++ [stop].

(* ================================================================= *)
(** ** Exceptions, results and the store monad *)

Inductive exn : Type :=
| AssertionError (msg : string)
| TypeError (msg : string)
| AttributeError (msg : string)
| KeyError (key : string)
| ValueError (msg : string)
| IndexError
| SolverError (msg : string).

Inductive result (A : Type) : Type :=
| Ok (a : A)
| Raise (e : exn)
| OutOfFuel.
Arguments Ok {A} a.
Arguments Raise {A} e.
Arguments OutOfFuel {A}.

Definition is_Ok {A} (r : result A) : bool :=
  match r with Ok _ => true | _ => false end.

Definition is_AssertionError {A} (r : result A) : bool :=
  match r with Raise (AssertionError _) => true | _ => false end.

Definition loc : Type := nat.
Bind Scope nat_scope with loc.

(** A computation over a store of objects of type [O]. *)
Definition M (O A : Type) : Type := list O -> result (A * list O).

Definition ret {O A} (a : A) : M O A := fun h => Ok (a, h).

Definition bind {O A B} (m : M O A) (k : A -> M O B) : M O B :=
  fun h => match m h with
           | Ok (a, h') => k a h'
           | Raise e => Raise e
           | OutOfFuel => OutOfFuel
           end.

Definition raise {O A} (e : exn) : M O A := fun _ => Raise e.

Notation "'do' x <- m ; k" := (bind m (fun x => k))
  (at level 10, x name, m at level 100, k at level 200, only parsing).
Notation "'do' ' pat <- m ; k" := (bind m (fun x => match x with pat => k end))
  (at level 10, pat pattern, m at level 100, k at level 200, only parsing).
Notation "'do_' m ; k" := (bind m (fun _ => k))
  (at level 10, m at level 100, k at level 200, only parsing).

(** [assert(b), msg]. *)
Definition assert {O} (b : bool) (msg : string) : M O unit :=
  if b then ret tt else raise (AssertionError msg).

(** A new object. *)
Definition alloc {O} (o : O) : M O loc := fun h => Ok (length h, h ++ [o]).

(** Reading the object a reference points to. Python has no dangling
    reference; a location outside the store is reported as a [ValueError]. *)
Definition load {O} (l : loc) : M O O :=
  fun h => match h !! l with
           | Some o => Ok (o, h)
           | None => Raise (ValueError "dangling reference")
           end.

(** Assignment to attributes of the object at [l]: it becomes [f o]. *)
Definition modify {O} (l : loc) (f : O -> O) : M O unit :=
  fun h => match h !! l with
           | Some o => Ok (tt, <[l := f o]> h)
           | None => Raise (ValueError "dangling reference")
           end.

(** [copy.deepcopy] of an object: a new object with the same contents. *)
Definition deepcopy {O} (l : loc) : M O loc := do o <- load l; alloc o.

(** The result of a computation that does not touch the store. *)
Definition lift {O A} (r : result A) : M O A :=
  fun h => match r with
           | Ok a => Ok (a, h)
           | Raise e => Raise e
           | OutOfFuel => OutOfFuel
           end.

(** Running a computation for its value only; the objects it creates are
    not reachable afterwards. This is how the callbacks handed to [brentq]
    are evaluated. *)
Definition eval {O A} (m : M O A) (h : list O) : result A :=
  match m h with
  | Ok (a, _) => Ok a
  | Raise e => Raise e
  | OutOfFuel => OutOfFuel
  end.

(** A callback that reads the current store. *)
Definition with_store {O A} (k : list O -> M O A) : M O A := fun h => k h h.

(* ================================================================= *)
(** ** The equation of state and the State object *)

(** The equation of state is a dictionary of closures. [wave.py] reads the
    keys ['h_from_rho_p'], ['t_from_rho_eps'], ['t_ignition'], ['eos_inert']
    and tests for the key ['q_available']; the last three are present only
    in a reactive equation of state. *)
Inductive EOS : Type := mkEOS {
  h_from_rho_p : float -> float -> float;
  t_from_rho_eps : float -> float -> float;
  q_available : bool;
  t_ignition : option float;
  eos_inert : option EOS }.

(** A label is a LaTeX string; [deflagration_root] hands the ignition
    temperature through the same position. *)
Inductive label_t : Type :=
| LNone
| LStr (s : string)
| LNum (x : float).

(** The State object: the primary variables, the equation of state, the
    label, and the attribute [q] that holds the reactive progress variable
    ([None] when it holds no number). *)
Record State : Type := mkState {
  rho : float;
  v : float;
  vt : float;
  eps : float;
  eos : EOS;
  label : label_t;
  q : option float }.

(** The assignment [state.q = q']. *)
Definition set_q (q' : option float) (n : State) : State :=
  mkState (rho n) (v n) (vt n) (eps n) (eos n) (label n) q'.

(** Modelled from the spec: the State class of [r3d2/state.py], which is
    not among the sources. Its derived quantities (pressure, specific
    enthalpy, Lorentz factor, sound speed, characteristic speed) and
    [vt_from_known] are computed from the primary variables and the
    equation of state; [State_q] is the progress variable the constructor
    gives a new State. *)
Class StateClass : Type := {
  State_p : float -> float -> float -> float -> EOS -> float;
  State_h : float -> float -> float -> float -> EOS -> float;
  State_W_lorentz : float -> float -> float -> float -> EOS -> float;
  State_cs : float -> float -> float -> float -> EOS -> float;
  State_wavespeed : float -> float -> float -> float -> EOS -> Z -> float;
  State_vt_from_known :
    float -> float -> float -> float -> EOS -> float -> float -> float -> float;
  State_q : float -> float -> float -> float -> EOS -> label_t -> option float }.

(** [scipy.optimize.brentq(f, a, b)] and [scipy.integrate.odeint(func, y0,
    t, rtol, atol)]. The callback of [brentq] may raise; [odeint] returns
    one row per sample of [t]. [pow3 x] is numpy's [x**3], which calls the
    C library's [pow(x, 3.0)]: IEEE-754 does not fix its rounding, so it is
    a function of the library like the two others. *)
Class SciPy : Type := {
  brentq : (float -> result float) -> float -> float -> result float;
  odeint : (list float -> float -> result (list float)) ->
           list float -> list float -> option float -> option float ->
           result (list (list float));
  pow3 : float -> float }.

(** A target handed to a wave: a number for the acoustic families, a State
    for a contact. *)
Inductive value : Type :=
| VNum (x : float)
| VState (l : loc).

(** [w_all[-1]], and [row[i]]. *)
Definition last_row {O A} (rows : list A) : M O A :=
  match last rows with
  | Some r => ret r
  | None => raise IndexError
  end.

Definition item {O} (row : list float) (i : nat) : M O float :=
  match row !! i with
  | Some x => ret x
  | None => raise IndexError
  end.

(** Python's builtin [min(xs)] and [max(xs)] of a sequence: the first item
    is kept until a strictly smaller (larger) one comes. *)
Definition pymin_list (xs : list float) : result float :=
  match xs with
  | [] => Raise (ValueError "min() arg is an empty sequence")
  | x :: xs' => Ok (fold_left pymin xs' x)
  end.

Definition pymax_list (xs : list float) : result float :=
  match xs with
  | [] => Raise (ValueError "max() arg is an empty sequence")
  | x :: xs' => Ok (fold_left pymax xs' x)
  end.

(** ['{}'.format(n)] of an [int]: its decimal digits. *)
Definition format_int (n : Z) : string := NilZero.string_of_int (Z.to_int n).

(** ['{:.4f}'.format(x)] of a float: Python's fixed-point conversion, which
    no source of the package defines. *)
Class PyFormat : Type := {
  format_4f : float -> string }.

(* ================================================================= *)
(** ** Statements common to [Wave.__init__] and [SWEWave.__init__]

    [swe_wave.py] repeats the assignment of the edge states and the speed
    bracket of [wave.py] word for word, and inherits
    [wave_sections_latex_string]. *)

(** [Wave.wave_sections_latex_string]. *)
Definition wave_sections_latex_string (wavenumber : Z) (names : list string)
    : string :=
  match names with
  | [] => ""
  | [one] => one
  | _ =>
      let names := if (wavenumber =? 2)%Z then rev names else names in
      ("\left(" ++ String.concat "" names ++ "\right) ")%string
  end.

(** The two running bounds of [Wave.__init__], started at [10] and [-10]. *)
Definition speed_step (bounds : float * float) (speed : float) : float * float :=
  let '(minspeed, maxspeed) := bounds in
  (pymin speed minspeed, pymax speed maxspeed).

Definition speed_bounds (speeds : list (list float)) : float * float :=
  fold_left (fun bounds section_speeds => fold_left speed_step section_speeds bounds)
            speeds (10, -10).

(** [self.wavespeed] after the two [append]s. *)
Definition speed_bracket (wavespeed : list float) (speeds : list (list float))
    : list float :=
  let '(minspeed, maxspeed) := speed_bounds speeds in
  let wavespeed := wavespeed ++ [minspeed] in
  if negb (allclose minspeed maxspeed) then wavespeed ++ [maxspeed] else wavespeed.

(** The assignment of [q_l] and [q_r]. *)
Definition edge_states {O} (q_known : loc) (wavenumber : Z) (last_q_end : option loc)
    : M O (loc * loc) :=
  if (wavenumber =? 0)%Z then
    do q_l <- deepcopy q_known;
    match last_q_end with
    | Some q_end => ret (q_l, q_end)
    | None => do q_r <- deepcopy q_l; ret (q_l, q_r)
    end
  else if (wavenumber =? 1)%Z then
    do q_l <- deepcopy q_known;
    do q_r <- deepcopy q_known;
    ret (q_l, q_r)
  else
    do q_r <- deepcopy q_known;
    match last_q_end with
    | Some q_end => ret (q_end, q_r)
    | None => do q_l <- deepcopy q_r; ret (q_l, q_r)
    end.

(* ================================================================= *)
(** ** [r3d2/wave.py] *)

Module wave.

(** A wave section object. [ws_q_start] and [ws_q_end] are references to
    State objects. *)
Record WaveSection : Type := mkWaveSection {
  ws_trivial : bool;
  ws_type : string;
  ws_wavenumber : Z;
  ws_q_start : loc;
  ws_q_end : loc;
  ws_name : string;
  ws_wavespeed : list float }.

(** A wave object. The class sets no [trivial] attribute. *)
Record Wave : Type := mkWave {
  w_wavenumber : Z;
  w_wave_sections : list WaveSection;
  w_wavespeed : list float;
  w_name : string;
  w_q_l : loc;
  w_q_r : loc }.

(** What a section factory returns: a list of sections, or (the reactive
    factory for a contact) a bare section object. *)
Inductive factory_result : Type :=
| PyList (sections : list WaveSection)
| PyObject (section : WaveSection).

Section WithLibraries.
Context {state_class : StateClass} {scipy : SciPy}.

(** Attributes and methods of a State. *)
Definition p_of (s : State) : float := State_p (rho s) (v s) (vt s) (eps s) (eos s).
Definition h_of (s : State) : float := State_h (rho s) (v s) (vt s) (eps s) (eos s).
Definition W_lorentz_of (s : State) : float :=
  State_W_lorentz (rho s) (v s) (vt s) (eps s) (eos s).
Definition cs_of (s : State) : float := State_cs (rho s) (v s) (vt s) (eps s) (eos s).
Definition wavespeed_of (s : State) (wavenumber : Z) : float :=
  State_wavespeed (rho s) (v s) (vt s) (eps s) (eos s) wavenumber.
Definition vt_from_known (s : State) (rho' v' eps' : float) : float :=
  State_vt_from_known (rho s) (v s) (vt s) (eps s) (eos s) rho' v' eps'.

(** [State(rho, v, vt, eps, eos, label)]. *)
Definition State_value (rho v vt eps : float) (eos : EOS) (label : label_t) : State :=
  mkState rho v vt eps eos label (State_q rho v vt eps eos label).

Definition State_new (rho v vt eps : float) (eos : EOS) (label : label_t) : M State loc :=
  alloc (State_value rho v vt eps eos label).

(** [eos[key]] for the keys of a reactive equation of state. *)
Definition eos_key {A} (key : string) (entry : option A) : M State A :=
  match entry with
  | Some a => ret a
  | None => raise (KeyError key)
  end.

(** [rarefaction_dwdp(w, p, q_known, wavenumber)]. *)
Definition rarefaction_dwdp (q_known : State) (wavenumber : Z)
    (w : list float) (p : float) : result (list float) :=
  let lr_sign := Z2F (wavenumber - 1) in
  match w with
  | [rho; v; eps] =>
      let vt := vt_from_known q_known rho v eps in
      let local_state := State_value rho v vt eps (eos q_known) LNone in
      let cs := cs_of local_state in
      let h := h_of local_state in
      let W_lorentz := W_lorentz_of local_state in
      let xi := wavespeed_of local_state wavenumber in
      let g := pow2 vt * (pow2 xi - 1) / pow2 (1 - xi * v) in
      Ok [ 1 / (h * pow2 cs);
           lr_sign / (rho * h * pow2 W_lorentz * cs) / sqrt (1 + g);
           p_of local_state / (pow2 rho * h * pow2 cs) ]
  | _ => Raise (ValueError "not enough values to unpack")
  end.

(** The residual [shock_root_rho] local to [mass_flux_squared]. *)
Definition shock_root_rho (q_start : State) (p_end : float) (unknown_eos : EOS)
    (rho' : float) : float :=
  let h := h_from_rho_p unknown_eos rho' p_end in
  (pow2 h - pow2 (h_of q_start))
  - (h / rho' + h_of q_start / rho q_start) * (p_end - p_of q_start).

(** The two [while] loops of [mass_flux_squared]: as long as the product of
    the two residuals is positive, [min_rho] is divided by [shrink] and
    [max_rho] multiplied by [grow]. The loops carry no counter. *)
Fixpoint widen_bracket (fuel : nat) (f : float -> float) (shrink grow : float)
    (min_rho max_rho shock_root_min shock_root_max : float) : result (float * float) :=
  if gtb (shock_root_min * shock_root_max) 0 then
    match fuel with
    | O => OutOfFuel
    | S fuel' =>
        let min_rho' := min_rho / shrink in
        let max_rho' := max_rho * grow in
        widen_bracket fuel' f shrink grow min_rho' max_rho' (f min_rho') (f max_rho')
    end
  else Ok (min_rho, max_rho).

(** The bracket [mass_flux_squared] hands to the root finder. *)
Definition shock_bracket (fuel : nat) (q_start : State) (p_end : float)
    (unknown_eos : EOS) : result (float * float) :=
  let f := shock_root_rho q_start p_end unknown_eos in
  if geb p_end (p_of q_start) then
    let min_rho := rho q_start in
    let shock_root_min := f min_rho in
    let max_rho := sqrt (p_end / p_of q_start) * rho q_start in
    let shock_root_max := f max_rho in
    widen_bracket fuel f 1.1 10.0 min_rho max_rho shock_root_min shock_root_max
  else
    let max_rho := rho q_start in
    let shock_root_max := f max_rho in
    let min_rho := sqrt (p_end / p_of q_start) * rho q_start in
    let shock_root_min := f min_rho in
    widen_bracket fuel f 10.0 1.1 min_rho max_rho shock_root_min shock_root_max.

(** [mass_flux_squared(q_start, p_end, unknown_eos)]: [(j2, rho, eps, dp)]. *)
Definition mass_flux_squared (fuel : nat) (q_start : State) (p_end : float)
    (unknown_eos : option EOS) : M State (float * float * float * float) :=
  let unknown_eos := match unknown_eos with Some e => e | None => eos q_start end in
  do '(min_rho, max_rho) <- lift (shock_bracket fuel q_start p_end unknown_eos);
  do rho' <- lift (brentq (fun r => Ok (shock_root_rho q_start p_end unknown_eos r))
                          min_rho max_rho);
  let h := h_from_rho_p unknown_eos rho' p_end in
  let eps' := h - 1 - p_end / rho' in
  let dp := p_end - p_of q_start in
  let dh2 := pow2 h - pow2 (h_of q_start) in
  let j2 := - dp / (dh2 / dp - 2 * h_of q_start / rho q_start) in
  ret (j2, rho', eps', dp).

(** The front speed and the velocity behind the front. The source writes
    these two expressions out in [deflagration_root], [Shock],
    [Deflagration] (twice) and [Detonation] (twice). *)
Definition front_speed (q_start : State) (lr_sign j : float) : float :=
  (pow2 (rho q_start) * pow2 (W_lorentz_of q_start) * v q_start
   + lr_sign * pow2 j
     * sqrt (1 + pow2 (rho q_start) * pow2 (W_lorentz_of q_start)
                 * (1 - pow2 (v q_start)) / pow2 j))
  / (pow2 (rho q_start) * pow2 (W_lorentz_of q_start) + pow2 j).

Definition velocity_behind (q_start : State) (lr_sign j dp v_front : float) : float :=
  let W_lorentz_front := 1 / sqrt (1 - pow2 v_front) in
  (h_of q_start * W_lorentz_of q_start * v q_start + lr_sign * dp * W_lorentz_front / j)
  / (h_of q_start * W_lorentz_of q_start
     + dp * (1 / rho q_start / W_lorentz_of q_start
             + lr_sign * v q_start * W_lorentz_front / j)).

(** The block [j2, rho, eps, dp = mass_flux_squared(...)] ... [State(rho, v,
    vt, eps, eos, label)] shared by the same six places: the front speed and
    the new State behind the front. *)
Definition solve_front (fuel : nat) (q_start : State) (p_end : float)
    (unknown_eos : EOS) (wavenumber : Z) (label : label_t) : M State (float * loc) :=
  let lr_sign := Z2F (wavenumber - 1) in
  do '(j2, rho', eps', dp) <- mass_flux_squared fuel q_start p_end (Some unknown_eos);
  let j := sqrt j2 in
  let v_front := front_speed q_start lr_sign j in
  let v' := velocity_behind q_start lr_sign j dp v_front in
  let vt' := vt_from_known q_start rho' v' eps' in
  do q_unknown <- State_new rho' v' vt' eps' unknown_eos label;
  ret (v_front, q_unknown).

(** [deflagration_root(p_0_star, q_precursor, unknown_eos, wavenumber, label)]. *)
Definition deflagration_root (fuel : nat) (p_0_star : float) (q_precursor : loc)
    (unknown_eos : EOS) (wavenumber : Z) (label : label_t) : M State float :=
  do s <- load q_precursor;
  do '(v_deflagration, q_unknown) <-
    solve_front fuel s p_0_star unknown_eos wavenumber label;
  do u <- load q_unknown;
  ret (wavespeed_of u wavenumber - v_deflagration).

(** The arrow in a section's name and the label of its end state. *)
Definition arrow_name (base : string) (wavenumber : Z) : string :=
  if (wavenumber =? 0)%Z then (base ++ "_{\leftarrow}")%string
  else (base ++ "_{\rightarrow}")%string.

Definition star_label (wavenumber : Z) : label_t :=
  if (wavenumber =? 0)%Z then LStr "\star_L" else LStr "\star_R".

Definition in_0_2 (wavenumber : Z) : bool :=
  (wavenumber =? 0)%Z || (wavenumber =? 2)%Z.

(** [Contact(q_start, q_end, wavenumber)]. The class never sets [trivial]
    to [True]. *)
Definition Contact (q_start : loc) (q_end : value) (wavenumber : Z) : M State WaveSection :=
  do_ assert (wavenumber =? 1)%Z "wavenumber for a Contact must be 1";
  do q_start' <- deepcopy q_start;
  match q_end with
  | VNum _ => raise (AttributeError "'float' object has no attribute 'v'")
  | VState q_end =>
      do q_end' <- deepcopy q_end;
      do s <- load q_start;
      do e <- load q_end;
      do_ assert (allclose (v s) (v e)) "Velocities of states must match for a contact";
      do_ assert (allclose (p_of s) (p_of e)) "Pressures of states must match for a contact";
      do_ assert (allclose (wavespeed_of s wavenumber) (wavespeed_of e wavenumber))
                 "Wavespeeds of states must match for a contact";
      ret (mkWaveSection false "Contact" wavenumber q_start' q_end' "{\cal C}" [v s])
  end.

(** [Rarefaction(q_start, p_end, wavenumber)]. *)
Definition Rarefaction (q_start : loc) (p_end : float) (wavenumber : Z)
    : M State WaveSection :=
  do_ assert (in_0_2 wavenumber) "wavenumber for a Rarefaction must be in 0, 2";
  do s <- load q_start;
  do_ assert (geb (p_of s) p_end) "For a rarefaction, p_start >= p_end";
  do q_start' <- deepcopy q_start;
  let name := arrow_name "{\cal R}" wavenumber in
  let label := star_label wavenumber in
  let v_known := wavespeed_of s wavenumber in
  do '(trivial, q_end, v_unknown) <-
    (if allclose (p_of s) p_end then
       do q_end <- State_new (rho s) (v s) (vt s) (eps s) (eos s) label;
       ret (true, q_end, v_known)
     else
       do w_all <- lift (odeint (rarefaction_dwdp s wavenumber)
                                [rho s; v s; eps s] [p_of s; p_end]
                                (Some 1e-12) (Some 1e-10));
       do w <- last_row w_all;
       do w0 <- item w 0;
       do w1 <- item w 1;
       do w2 <- item w 2;
       do q_end <- State_new w0 w1 (vt_from_known s w0 w1 w2) w2 (eos s) label;
       do e <- load q_end;
       ret (false, q_end, wavespeed_of e wavenumber));
  let wavespeed :=
    if (wavenumber =? 0)%Z then [v_known; v_unknown] else [v_unknown; v_known] in
  ret (mkWaveSection trivial "Rarefaction" wavenumber q_start' q_end name wavespeed).

(** [Shock(q_start, p_end, wavenumber)]. *)
Definition Shock (fuel : nat) (q_start : loc) (p_end : float) (wavenumber : Z)
    : M State WaveSection :=
  do_ assert (in_0_2 wavenumber) "wavenumber for a Shock must be in 0, 2";
  do q_start' <- deepcopy q_start;
  do s <- load q_start;
  let name := arrow_name "{\cal S}" wavenumber in
  let label := star_label wavenumber in
  do '(trivial, q_end, v_shock) <-
    (if allclose (p_of s) p_end then
       do q_end <- State_new (rho s) (v s) (vt s) (eps s) (eos s) label;
       ret (true, q_end, wavespeed_of s wavenumber)
     else
       do '(v_shock, q_end) <- solve_front fuel s p_end (eos s) wavenumber label;
       ret (false, q_end, v_shock));
  ret (mkWaveSection trivial "Shock" wavenumber q_start' q_end name [v_shock]).

(** [Deflagration(q_start, p_end, wavenumber)]. *)
Definition Deflagration (fuel : nat) (q_start : loc) (p_end : float) (wavenumber : Z)
    : M State WaveSection :=
  do s <- load q_start;
  do eos_end <- eos_key "eos_inert" (eos_inert (eos s));
  do t_i <- eos_key "t_ignition" (t_ignition (eos s));
  do_ assert (in_0_2 wavenumber) "wavenumber for a Deflagration must be in 0, 2";
  do_ assert (geb (p_of s) p_end) "For a deflagration, p_start >= p_end";
  let t_start := t_from_rho_eps (eos s) (rho s) (eps s) in
  do_ assert (geb t_start t_i)
    "For a deflagration, temperature of start state must be at least the ignition temperature";
  let lr_sign := Z2F (wavenumber - 1) in
  do q_start' <- deepcopy q_start;
  let name := arrow_name "{\cal WDF}" wavenumber in
  let label := star_label wavenumber in
  let v_known := wavespeed_of s wavenumber in
  do '(trivial, q_end, v_deflagration, name) <-
    (if allclose (p_of s) p_end then
       do q_end <- State_new (rho s) (v s) (vt s) (eps s) eos_end label;
       ret (true, q_end, v_known, name)
     else
       do '(v_deflagration, q_unknown) <- solve_front fuel s p_end eos_end wavenumber label;
       do u <- load q_unknown;
       do '(v_deflagration, q_unknown, name) <-
         (if (lr_sign * (wavespeed_of u wavenumber - v_deflagration)) <? 0 then
            do p_cjdf <- with_store (fun st => lift (brentq
                (fun p_0_star =>
                   eval (deflagration_root fuel p_0_star q_start eos_end wavenumber (LNum t_i)) st)
                ((1 + 1e-9) * p_end) ((1 - 1e-9) * p_of s)));
            do '(v_deflagration, q_unknown) <-
              solve_front fuel s p_cjdf eos_end wavenumber label;
            ret (v_deflagration, q_unknown, arrow_name "{\cal CJDF}" wavenumber)
          else ret (v_deflagration, q_unknown, name));
       do q_end <- deepcopy q_unknown;
       ret (false, q_end, v_deflagration, name));
  ret (mkWaveSection trivial "Deflagration" wavenumber q_start' q_end name
                     [v_deflagration; v_deflagration]).

(** [Detonation(q_start, p_end, wavenumber)]. After the root search of the
    Chapman-Jouguet branch the source calls [self.mass_flux_squared], an
    attribute no class defines: [mass_flux_squared] is a function of the
    module. *)
Definition Detonation (fuel : nat) (q_start : loc) (p_end : float) (wavenumber : Z)
    : M State WaveSection :=
  do s <- load q_start;
  do eos_end <- eos_key "eos_inert" (eos_inert (eos s));
  do t_i <- eos_key "t_ignition" (t_ignition (eos s));
  do_ assert (in_0_2 wavenumber) "wavenumber for a Detonation must be in 0, 2";
  do_ assert (p_of s <=? p_end) "For a detonation, p_start <= p_end";
  let t_start := t_from_rho_eps (eos s) (rho s) (eps s) in
  do_ assert (geb t_start t_i)
    "For a detonation, temperature of start state must be at least the ignition temperature";
  let lr_sign := Z2F (wavenumber - 1) in
  do q_start' <- deepcopy q_start;
  let name := arrow_name "{\cal SDT}" wavenumber in
  let label := star_label wavenumber in
  let v_known := wavespeed_of s wavenumber in
  do '(trivial, q_end, v_detonation, name) <-
    (if allclose (p_of s) p_end then
       do q_end <- State_new (rho s) (v s) (vt s) (eps s) eos_end label;
       ret (true, q_end, v_known, name)
     else
       do '(v_detonation, q_unknown) <- solve_front fuel s p_end eos_end wavenumber label;
       do u <- load q_unknown;
       do '(v_detonation, q_unknown, name) <-
         (if (lr_sign * (wavespeed_of u wavenumber - v_detonation)) <? 0 then
            do p_cjdt <- with_store (fun st => lift (brentq
                (fun p_0_star =>
                   eval (deflagration_root fuel p_0_star q_start eos_end wavenumber (LNum t_i)) st)
                ((1 + 1e-9) * p_end) ((1 - 1e-9) * p_of s)));
            raise (AttributeError "'Detonation' object has no attribute 'mass_flux_squared'")
          else ret (v_detonation, q_unknown, name));
       do q_end <- deepcopy q_unknown;
       ret (false, q_end, v_detonation, name));
  ret (mkWaveSection trivial "Detonation" wavenumber q_start' q_end name
                     [v_detonation; v_detonation]).

(** [precursor_root(p_0_star, q_known, t_i, wavenumber)]. *)
Definition precursor_root (fuel : nat) (p_0_star : float) (q_known : loc) (t_i : float)
    (wavenumber : Z) : M State float :=
  do shock <- Shock fuel q_known p_0_star wavenumber;
  do q_precursor <- load (ws_q_end shock);
  let t_precursor :=
    t_from_rho_eps (eos q_precursor) (rho q_precursor) (eps q_precursor) in
  ret (t_precursor - t_i).

(** [build_inert_wave_section(q_known, unknown_value, wavenumber)]. *)
Definition build_inert_wave_section (fuel : nat) (q_known : loc) (unknown_value : value)
    (wavenumber : Z) : M State factory_result :=
  if (wavenumber =? 1)%Z then
    do c <- Contact q_known unknown_value wavenumber;
    ret (PyList [c])
  else
    do s <- load q_known;
    match unknown_value with
    | VState _ => raise (TypeError "'<' not supported between instances of 'float' and 'State'")
    | VNum unknown_value =>
        if p_of s <? unknown_value then
          do sh <- Shock fuel q_known unknown_value wavenumber;
          ret (PyList [sh])
        else
          do r <- Rarefaction q_known unknown_value wavenumber;
          ret (PyList [r])
    end.

(** The tail shared by the two branches of the reactive factory: the end
    state of the front is copied, and a rarefaction is appended when its
    pressure is still above the target. *)
Definition trailing_rarefaction (front : WaveSection) (unknown_value : float)
    (wavenumber : Z) : M State (list WaveSection) :=
  do q_next <- deepcopy (ws_q_end front);
  do n <- load q_next;
  if gtb (p_of n) unknown_value then
    do rarefaction <- Rarefaction q_next unknown_value wavenumber;
    ret [rarefaction]
  else ret [].

(** [build_reactive_wave_section(q_known, unknown_value, wavenumber)]. For a
    contact the source returns the section itself, not a list. On the
    precursor path [q_next] is the end state of the precursor shock itself,
    not a copy, and its attribute [q] is assigned. *)
Definition build_reactive_wave_section (fuel : nat) (q_known : loc)
    (unknown_value : value) (wavenumber : Z) : M State factory_result :=
  do s <- load q_known;
  do t_i <- eos_key "t_ignition" (t_ignition (eos s));
  if (wavenumber =? 1)%Z then
    do c <- Contact q_known unknown_value wavenumber;
    ret (PyObject c)
  else
    match unknown_value with
    | VState _ => raise (TypeError "'<' not supported between instances of 'float' and 'State'")
    | VNum unknown_value =>
        if p_of s <? unknown_value then
          do detonation <- Detonation fuel q_known unknown_value wavenumber;
          do rest <- trailing_rarefaction detonation unknown_value wavenumber;
          ret (PyList ([detonation] ++ rest))
        else
          let t_known := t_from_rho_eps (eos s) (rho s) (eps s) in
          do '(wavesections, q_next) <-
            (if t_known <? t_i then
               let p_min := unknown_value in
               let p_max := p_of s in
               let root := fun st p_0_star =>
                 eval (precursor_root fuel p_0_star q_known t_i wavenumber) st in
               do t_min <- with_store (fun st => lift (root st p_min));
               do t_max <- with_store (fun st => lift (root st p_max));
               do_ assert (t_min <? 0) "";
               do p_max <-
                 (if t_max <=? 0 then
                    let p_max := p_max * 2 in
                    do t_max <- with_store (fun st => lift (root st p_max));
                    ret p_max
                  else ret p_max);
               do p_0_star <- with_store (fun st => lift (brentq (root st) p_min p_max));
               do precursor_shock <- Shock fuel q_known p_0_star wavenumber;
               let q_next := ws_q_end precursor_shock in
               do_ modify q_next (set_q (q s));
               ret ([precursor_shock], q_next)
             else
               do q_next <- deepcopy q_known;
               ret ([], q_next));
          do deflagration <- Deflagration fuel q_next unknown_value wavenumber;
          do rest <- trailing_rarefaction deflagration unknown_value wavenumber;
          ret (PyList (wavesections ++ [deflagration] ++ rest))
    end.

(** [for sections in waves: self.wave_sections.append(sections)]. *)
Definition iterate (waves : factory_result) : M State (list WaveSection) :=
  match waves with
  | PyList sections => ret sections
  | PyObject _ => raise (TypeError "'Contact' object is not iterable")
  end.

(** [Wave(q_known, unknown_value, wavenumber)]. *)
Definition Wave_init (fuel : nat) (q_known : loc) (unknown_value : value)
    (wavenumber : Z) : M State Wave :=
  do s <- load q_known;
  do waves <-
    (if negb (q_available (eos s))
     then build_inert_wave_section fuel q_known unknown_value wavenumber
     else build_reactive_wave_section fuel q_known unknown_value wavenumber);
  do wave_sections <- iterate waves;
  let name := wave_sections_latex_string wavenumber (map ws_name wave_sections) in
  do '(q_l, q_r) <- edge_states q_known wavenumber (ws_q_end <$> last wave_sections);
  let wavespeed := speed_bracket [] (map ws_wavespeed wave_sections) in
  ret (mkWave wavenumber wave_sections wavespeed name q_l q_r).

(** [WaveSection.latex_string], inherited by every section class. *)
Definition WaveSection_latex_string {py_format : PyFormat} (sec : WaveSection)
    : result string :=
  if ws_trivial sec then Ok ""%string
  else
    let s := (ws_name sec ++ ": \lambda^{(" ++ format_int (ws_wavenumber sec) ++ ")}")%string in
    if (1 <? length (ws_wavespeed sec))%nat then
      match head (ws_wavespeed sec), last (ws_wavespeed sec) with
      | Some first, Some final =>
          Ok (s ++ "\in [" ++ format_4f first ++ ", " ++ format_4f final ++ "]")%string
      | _, _ => Raise IndexError
      end
    else
      match head (ws_wavespeed sec) with
      | Some speed => Ok (s ++ "= " ++ format_4f speed)%string
      | None => Raise IndexError
      end.

(** [WaveSection._repr_latex_] and [Wave._repr_latex_]. *)
Definition repr_latex (latex_string : result string) : result string :=
  match latex_string with
  | Ok s => Ok ("$" ++ s ++ "$")%string
  | failure => failure
  end.

(** The list [speeds] of [Wave.latex_string]. *)
Definition latex_speeds (wave_sections : list WaveSection) : result (list float) :=
  match wave_sections with
  | [] => Ok []
  | [only] => Ok (ws_wavespeed only)
  | first :: rest =>
      match head (ws_wavespeed first), last rest with
      | Some lo, Some final =>
          match last (ws_wavespeed final) with
          | Some hi => Ok [lo; hi]
          | None => Raise IndexError
          end
      | _, _ => Raise IndexError
      end
  end.

(** [Wave.latex_string]. *)
Definition Wave_latex_string {py_format : PyFormat} (w : Wave) : result string :=
  let s := wave_sections_latex_string (w_wavenumber w) (map ws_name (w_wave_sections w)) in
  match w_wave_sections w with
  | [] => Ok ""%string
  | _ =>
      match latex_speeds (w_wave_sections w) with
      | Ok speeds =>
          let s := (s ++ ": \lambda^{(" ++ format_int (w_wavenumber w) ++ ")}")%string in
          match pymin_list speeds, pymax_list speeds with
          | Ok lo, Ok hi => Ok (s ++ "\in [" ++ format_4f lo ++ ", " ++ format_4f hi ++ "]")%string
          | Ok _, Raise e => Raise e
          | Raise e, _ => Raise e
          | _, _ => OutOfFuel
          end
      | Raise e => Raise e
      | OutOfFuel => OutOfFuel
      end
  end.

End WithLibraries.
End wave.

(* ================================================================= *)
(** ** [r3d2/swe/swe_wave.py] *)

Module swe_wave.

(** Modelled from the spec: the shallow-water state of
    [r3d2/swe/swe_state.py], which is not among the sources: the primary
    variables [phi] and [v] and a label. *)
Record SWEState : Type := mkSWEState {
  phi : float;
  v : float;
  label : label_t }.

(** Its methods [state()] and [wavespeed(wavenumber)]. *)
Class SWEStateClass : Type := {
  SWEState_state : float -> float -> list float;
  SWEState_wavespeed : float -> float -> Z -> float }.

Record SWEWaveSection : Type := mkSWEWaveSection {
  ws_trivial : bool;
  ws_type : string;
  ws_wavenumber : Z;
  ws_q_start : loc;
  ws_q_end : loc;
  ws_name : string;
  ws_wavespeed : list float }.

Record SWEWave : Type := mkSWEWave {
  w_wavenumber : Z;
  w_wave_sections : list SWEWaveSection;
  w_wavespeed : list float;
  w_name : string;
  w_q_l : loc;
  w_q_r : loc;
  w_trivial : bool }.

(** [super().__init__(q_known, unknown_value, wavenumber)]: the initialiser
    of the class [Wave] that the package [r3d2] exports. The package's
    [__init__.py] is not among the sources; what [SWEWave.__init__] goes on
    from are the lists [self.wave_sections] and [self.wavespeed] the
    initialiser leaves (both empty when it only creates them). *)
Class WaveBase : Type := {
  Wave_base_init : loc -> value -> Z -> result (list SWEWaveSection * list float) }.

Section WithLibraries.
Context {state_class : SWEStateClass} {scipy : SciPy} {wave_base : WaveBase}.

Definition state_of (s : SWEState) : list float := SWEState_state (phi s) (v s).
Definition wavespeed_of (s : SWEState) (wavenumber : Z) : float :=
  SWEState_wavespeed (phi s) (v s) wavenumber.
Definition prim (s : SWEState) : float * float := (phi s, v s).

(** [SWEState(phi, v, label=label)]. *)
Definition SWEState_new (phi v : float) (label : label_t) : M SWEState loc :=
  alloc (mkSWEState phi v label).

Definition arrow_name := wave.arrow_name.
Definition star_label := wave.star_label.
Definition in_0_2 := wave.in_0_2.

(** [SWEContact(q_start, q_end, wavenumber)]. *)
Definition SWEContact (q_start : loc) (q_end : value) (wavenumber : Z)
    : M SWEState SWEWaveSection :=
  do_ assert (wavenumber =? 1)%Z "wavenumber for a Contact must be 1";
  do q_start' <- deepcopy q_start;
  match q_end with
  | VNum _ => raise (AttributeError "'float' object has no attribute 'state'")
  | VState q_end =>
      do q_end' <- deepcopy q_end;
      do s <- load q_start;
      do e <- load q_end;
      let '(trivial, name) :=
        if allclose_array (state_of s) (state_of e)
        then (true, ""%string) else (false, "{\cal C}"%string) in
      do_ assert (allclose (v s) (v e)) "Velocities of states must match for a contact";
      do_ assert (allclose (phi s) (phi e)) "Phis of states must match for a contact";
      do_ assert (allclose (wavespeed_of s wavenumber) (wavespeed_of e wavenumber))
                 "Wavespeeds of states must match for a contact";
      ret (mkSWEWaveSection trivial "Contact" wavenumber q_start' q_end' name [v s])
  end.

(** [SWERarefaction.raref(v, phi, lr_sign)], applied by numpy to each
    component of the array [odeint] hands over. *)
Definition raref (lr_sign : Z) (v : float) (phi : float) : float :=
  0.5 * (- pow3 v + v - Z2F lr_sign * (pow2 v - 1) * sqrt (pow2 v + 4 / phi)).

(** [SWERarefaction.rarefaction_solve(q, phi_star, lr_sign, n_phi_vals)]. *)
Definition rarefaction_solve (q : SWEState) (phi_star : float) (lr_sign : Z)
    (n_phi_vals : nat) : M SWEState (list float) :=
  let '(phi, v) := prim q in
  let phi_points := linspace phi phi_star n_phi_vals in
  do rows <- lift (odeint (fun y t => Ok (map (fun v => raref lr_sign v t) y))
                          [v] phi_points None None);
  ret (concat rows).

(** [SWERarefaction(q_start, phi_end, wavenumber)]. The two-valued
    [wavespeed] is assigned in the non-trivial branch only. *)
Definition SWERarefaction (q_start : loc) (phi_end : float) (wavenumber : Z)
    : M SWEState SWEWaveSection :=
  do_ assert (in_0_2 wavenumber) "wavenumber for a Rarefaction must be in 0, 2";
  do s <- load q_start;
  do_ assert (geb (phi s) phi_end) "For a rarefaction, phi_start >= phi_end";
  do q_start' <- deepcopy q_start;
  let name := arrow_name "{\cal R}" wavenumber in
  let label := star_label wavenumber in
  let v_known := wavespeed_of s wavenumber in
  do '(trivial, q_end, name, wavespeed) <-
    (if allclose (phi s) phi_end then
       do q_end <- SWEState_new (phi s) (v s) label;
       ret (true, q_end, ""%string, [])
     else
       let lr_sign := (wavenumber - 1)%Z in
       let phi_points := linspace (phi s) phi_end 50 in
       do v_raref <- rarefaction_solve s phi_end lr_sign (length phi_points);
       do v_star <- last_row v_raref;
       do q_end <- SWEState_new phi_end v_star label;
       do e <- load q_end;
       let v_unknown := wavespeed_of e wavenumber in
       ret (false, q_end, name,
            if (wavenumber =? 0)%Z then [v_known; v_unknown] else [v_unknown; v_known]));
  ret (mkSWEWaveSection trivial "Rarefaction" wavenumber q_start' q_end name wavespeed).

(** [SWEShock.analytic_shock(q, phi_star, lr_sign)]. *)
Definition analytic_shock (q : SWEState) (phi_star : float) (lr_sign : Z)
    : float * float :=
  let '(phi, v) := prim q in
  let w_bar := sqrt (1 + phi_star / phi * (phi_star + phi) / 2) in
  let v_bar := Z2F (- lr_sign) * sqrt (1 - 1 / pow2 w_bar) in
  let V_s := (v - v_bar) / (1 - v * v_bar) in
  let Wv_star_bar := phi * w_bar * v_bar / phi_star in
  let w_star_bar := sqrt (1 + pow2 Wv_star_bar) in
  let v_star_bar := Z2F (- lr_sign) * sqrt (1 - 1 / pow2 w_star_bar) in
  let v_star := (v_star_bar + V_s) / (1 + v_star_bar * V_s) in
  (V_s, v_star).

(** [SWEShock(q_start, phi_end, wavenumber)]. *)
Definition SWEShock (q_start : loc) (phi_end : float) (wavenumber : Z)
    : M SWEState SWEWaveSection :=
  do_ assert (in_0_2 wavenumber) "wavenumber for a Shock must be in 0, 2";
  do s <- load q_start;
  do_ assert (phi s <=? phi_end) "For a shock, phi_start <= phi_end";
  let lr_sign := (wavenumber - 1)%Z in
  do q_start' <- deepcopy q_start;
  let name := arrow_name "{\cal S}" wavenumber in
  let label := star_label wavenumber in
  do '(trivial, q_end, v_shock, name) <-
    (if allclose (phi s) phi_end then
       do q_end <- SWEState_new (phi s) (v s) label;
       ret (true, q_end, wavespeed_of s wavenumber, ""%string)
     else
       let '(v_shock, v_star) := analytic_shock s phi_end lr_sign in
       do q_end <- SWEState_new phi_end v_star label;
       ret (false, q_end, v_shock, name));
  ret (mkSWEWaveSection trivial "Shock" wavenumber q_start' q_end name [v_shock]).

(** [SWEWave.build_wave_section(q_known, unknown_value, wavenumber)]. *)
Definition build_wave_section (q_known : loc) (unknown_value : value) (wavenumber : Z)
    : M SWEState (list SWEWaveSection) :=
  if (wavenumber =? 1)%Z then
    do c <- SWEContact q_known unknown_value wavenumber;
    ret [c]
  else
    do s <- load q_known;
    match unknown_value with
    | VState _ => raise (TypeError "'<' not supported between instances of 'float' and 'SWEState'")
    | VNum unknown_value =>
        if phi s <? unknown_value then
          do sh <- SWEShock q_known unknown_value wavenumber;
          ret [sh]
        else
          do r <- SWERarefaction q_known unknown_value wavenumber;
          ret [r]
    end.

(** The loop that clears [self.trivial] at the first non-trivial section. *)
Definition all_trivial (sections : list SWEWaveSection) : bool :=
  fold_left (fun trivial wavesection =>
               if negb (ws_trivial wavesection) then false else trivial)
            sections true.

(** [SWEWave(q_known, unknown_value, wavenumber)]. *)
Definition SWEWave_init (q_known : loc) (unknown_value : value) (wavenumber : Z)
    : M SWEState SWEWave :=
  do '(wave_sections, wavespeed) <- lift (Wave_base_init q_known unknown_value wavenumber);
  do waves <- build_wave_section q_known unknown_value wavenumber;
  let wave_sections := wave_sections ++ waves in
  let name := wave_sections_latex_string wavenumber (map ws_name wave_sections) in
  do '(q_l, q_r) <- edge_states q_known wavenumber (ws_q_end <$> last wave_sections);
  let wavespeed := speed_bracket wavespeed (map ws_wavespeed wave_sections) in
  let trivial := all_trivial wave_sections in
  let wavespeed := if trivial then [] else wavespeed in
  ret (mkSWEWave wavenumber wave_sections wavespeed name q_l q_r trivial).

End WithLibraries.
End swe_wave.

(* ================================================================= *)
(** ** Vocabulary of the statements *)

(** A computation that creates objects and writes to none. *)
Definition alloc_only {O A} (m : M O A) : Prop :=
  forall h a h', m h = Ok (a, h') -> h `prefix_of` h'.

(** A computation that leaves every object of the store it starts from as
    it is. *)
Definition keeps_existing {O A} (m : M O A) : Prop :=
  forall h a h', m h = Ok (a, h') -> forall l o, h !! l = Some o -> h' !! l = Some o.

(** The bracket after [n] passes through the loop body. *)
Fixpoint expand (n : nat) (shrink grow min_rho max_rho : float) : float * float :=
  match n with
  | O => (min_rho, max_rho)
  | S n' => expand n' shrink grow (min_rho / shrink) (max_rho * grow)
  end.

(** The loop condition at a bracket. *)
Definition product_positive (f : float -> float) (bracket : float * float) : bool :=
  gtb (f (fst bracket) * f (snd bracket)) 0.

(** The loop condition holds at each of the first [n] brackets. *)
Fixpoint all_positive (n : nat) (f : float -> float) (shrink grow min_rho max_rho : float)
    : bool :=
  match n with
  | O => true
  | S n' =>
      product_positive f (min_rho, max_rho)
      && all_positive n' f shrink grow (min_rho / shrink) (max_rho * grow)
  end.

(** A computation on fuel that no amount of fuel brings to an end. *)
Definition diverges {A} (run : nat -> result A) : Prop :=
  forall fuel, run fuel = OutOfFuel.

(** The running bounds stay below (above) every speed seen, and are speeds
    seen as soon as there is one. *)
Definition bounds_of (seen : list float) (b : float * float) : Prop :=
  (fst b =? fst b) = true /\ (snd b =? snd b) = true /\
  (forall x, In x seen -> (fst b <=? x) = true /\ (x <=? snd b) = true) /\
  match seen with
  | [] => b = (10, -10)
  | _ => In (fst b) seen /\ In (snd b) seen
  end.

(** The facts shared by the four sections of the acoustic families: the
    section holds a copy of the start state and a new end state, and it is
    trivial when the target is close to the start state's pressure. *)
Definition acoustic_section {state_class : StateClass} (type : string) (copies : nat)
    (h : list State) (q_start : loc) (p_end : float) (wn : Z)
    (sec : wave.WaveSection) (h' : list State) : Prop :=
  exists s e,
    h !! q_start = Some s /\
    h' !! wave.ws_q_start sec = Some s /\
    h' !! wave.ws_q_end sec = Some e /\
    (length h <= wave.ws_q_start sec)%nat /\ (length h <= wave.ws_q_end sec)%nat /\
    wave.ws_type sec = type /\ wave.ws_wavenumber sec = wn /\ wave.in_0_2 wn = true /\
    wave.ws_trivial sec = allclose (wave.p_of s) p_end /\
    (allclose (wave.p_of s) p_end = true ->
       rho e = rho s /\ v e = v s /\ vt e = vt s /\ eps e = eps s /\
       wave.ws_wavespeed sec = repeat (wave.wavespeed_of s wn) copies).

(** The same for the two shallow-water sections. *)
Definition swe_acoustic_section {state_class : swe_wave.SWEStateClass}
    (type : string) (copies : nat)
    (h : list swe_wave.SWEState) (q_start : loc) (phi_end : float) (wn : Z)
    (sec : swe_wave.SWEWaveSection) (h' : list swe_wave.SWEState) : Prop :=
  exists s e,
    h !! q_start = Some s /\
    h' !! swe_wave.ws_q_start sec = Some s /\
    h' !! swe_wave.ws_q_end sec = Some e /\
    (length h <= swe_wave.ws_q_start sec)%nat /\ (length h <= swe_wave.ws_q_end sec)%nat /\
    swe_wave.ws_type sec = type /\ swe_wave.ws_wavenumber sec = wn /\ swe_wave.in_0_2 wn = true /\
    swe_wave.ws_trivial sec = allclose (swe_wave.phi s) phi_end /\
    (allclose (swe_wave.phi s) phi_end = true ->
       swe_wave.phi e = swe_wave.phi s /\ swe_wave.v e = swe_wave.v s /\
       swe_wave.ws_wavespeed sec = repeat (swe_wave.wavespeed_of s wn) copies).

(** The end state of [sec] carries the primary variables of [s]. *)
Definition same_primary (h' : list State) (sec : wave.WaveSection) (s : State) : Prop :=
  exists e, h' !! wave.ws_q_end sec = Some e /\
            rho e = rho s /\ v e = v s /\ vt e = vt s /\ eps e = eps s.

Definition swe_same_primary (h' : list swe_wave.SWEState) (sec : swe_wave.SWEWaveSection)
    (s : swe_wave.SWEState) : Prop :=
  exists e, h' !! swe_wave.ws_q_end sec = Some e /\
            swe_wave.phi e = swe_wave.phi s /\ swe_wave.v e = swe_wave.v s.


(** The sections of a wave are joined: the first starts from [prev], and
    each of the others from the state the section before it ends in. *)
Fixpoint chained (h : list State) (prev : State) (sections : list wave.WaveSection)
    : Prop :=
  match sections with
  | [] => True
  | sec :: rest =>
      h !! wave.ws_q_start sec = Some prev /\
      exists e, h !! wave.ws_q_end sec = Some e /\ chained h e rest
  end.

(** The number of speeds a section of each type holds. *)
Definition speeds_of_type (type : string) : nat :=
  if (String.eqb type "Contact" || String.eqb type "Shock")%bool then 1%nat else 2%nat.

(** A section built on the store [h0]: the store has grown by a copy [s]
    of the start state, the states of the solution, and the end state [e],
    in this order. *)
Definition built (h0 : list State) (sec : wave.WaveSection) (h1 : list State)
    (s e : State) : Prop :=
  exists mid,
    h1 = h0 ++ s :: mid ++ [e] /\
    wave.ws_q_start sec = length h0 /\
    wave.ws_q_end sec = (length h0 + S (length mid))%nat.

(** What holds of a section whatever the store. *)
Definition well_formed (wn : Z) (sec : wave.WaveSection) : Prop :=
  wave.ws_wavenumber sec = wn /\
  length (wave.ws_wavespeed sec) = speeds_of_type (wave.ws_type sec).

(** What a section of a wave of family [wn] does to the state [prev] it
    starts from: a contact belongs to family 1; a shock or a rarefaction
    keeps the equation of state; a deflagration or a detonation ends in the
    inert equation of state; the end state of all four carries the label
    of the star region. *)
Definition section_law (wn : Z) (prev : State) (sec : wave.WaveSection) (e : State)
    : Prop :=
  well_formed wn sec /\
  ((wave.ws_type sec = "Contact"%string /\ wn = 1%Z)
   \/ ((wave.ws_type sec = "Shock"%string \/ wave.ws_type sec = "Rarefaction"%string) /\
       wave.in_0_2 wn = true /\ eos e = eos prev /\ label e = wave.star_label wn)
   \/ ((wave.ws_type sec = "Deflagration"%string \/ wave.ws_type sec = "Detonation"%string) /\
       wave.in_0_2 wn = true /\ eos_inert (eos prev) = Some (eos e) /\
       label e = wave.star_label wn)).

(** The sections of a wave as they stand in the store [h]: the first
    starts from a copy of [prev], each of the others from a copy of the
    state the section before it ends in, and the objects of a section come
    after those of the section before and after the first [lo] objects. *)
Fixpoint sections_in (h : list State) (wn : Z) (lo : nat) (prev : State)
    (sections : list wave.WaveSection) : Prop :=
  match sections with
  | [] => True
  | sec :: rest =>
      exists e,
        h !! wave.ws_q_start sec = Some prev /\
        h !! wave.ws_q_end sec = Some e /\
        (lo <= wave.ws_q_start sec)%nat /\
        (wave.ws_q_start sec < wave.ws_q_end sec)%nat /\
        (wave.ws_q_end sec < length h)%nat /\
        section_law wn prev sec e /\
        sections_in h wn (S (wave.ws_q_end sec)) e rest
  end.

(* ================================================================= *)
(** ** An instance of the libraries, for the examples

    An ideal gas with adiabatic index 5/3 (the reactive gas carries the
    heat of reaction 0.1), a bisection in place of Brent's method, a
    Runge-Kutta integrator in place of LSODA, and the fixed-point notation
    of a float with four decimals. *)

Module Example.

Definition gamma : float := 5 / 3.

(** The heat of reaction held by a gas that can still burn. *)
Definition heat (e : EOS) : float := if q_available e then 0.1 else 0.

Definition gas_p (rho eps : float) (e : EOS) : float := (gamma - 1) * rho * (eps - heat e).
Definition gas_h (rho eps : float) (e : EOS) : float := 1 + eps + gas_p rho eps e / rho.
Definition gas_cs (rho eps : float) (e : EOS) : float :=
  sqrt (gamma * gas_p rho eps e / (rho * gas_h rho eps e)).

Definition gas_wavespeed (rho v vt eps : float) (e : EOS) (wavenumber : Z) : float :=
  if (wavenumber =? 1)%Z then v
  else
    let s := Z2F (wavenumber - 1) in
    let cs := gas_cs rho eps e in
    let V2 := v * v + vt * vt in
    (v * (1 - cs * cs)
     + s * cs * sqrt ((1 - V2) * (1 - V2 * cs * cs - v * v * (1 - cs * cs))))
    / (1 - V2 * cs * cs).

Definition gas_vt_from_known (rho v vt eps : float) (e : EOS) (rho' v' eps' : float)
    : float :=
  let h' := gas_h rho' eps' e in
  let k := gas_h rho eps e * (1 / sqrt (1 - v * v - vt * vt)) * vt in
  k * sqrt ((1 - v' * v') / (h' * h' + k * k)).

(** A new State of the reactive gas holds its heat of reaction as progress
    variable, a new State of the burnt gas holds none. *)
#[export] Instance ideal_gas : StateClass := {|
  State_p := fun rho v vt eps e => gas_p rho eps e;
  State_h := fun rho v vt eps e => gas_h rho eps e;
  State_W_lorentz := fun rho v vt eps e => 1 / sqrt (1 - v * v - vt * vt);
  State_cs := fun rho v vt eps e => gas_cs rho eps e;
  State_wavespeed := gas_wavespeed;
  State_vt_from_known := gas_vt_from_known;
  State_q := fun rho v vt eps e l => if q_available e then Some (heat e) else None |}.

(** The burnt gas and the reactive gas that ignites at temperature [t_i]. *)
Definition eos_gamma_law : EOS := {|
  h_from_rho_p := fun rho p => 1 + gamma / (gamma - 1) * p / rho;
  t_from_rho_eps := fun rho eps => eps;
  q_available := false;
  t_ignition := None;
  eos_inert := None |}.

Definition eos_gamma_law_react (t_i : float) : EOS := {|
  h_from_rho_p := fun rho p => 1 + gamma / (gamma - 1) * p / rho + 0.1;
  t_from_rho_eps := fun rho eps => eps - 0.1;
  q_available := true;
  t_ignition := Some t_i;
  eos_inert := Some eos_gamma_law |}.

(** A residual that is not a number stops the search, as it stops
    [brentq] (whose message also names the point). *)
Definition nan_residual : exn :=
  ValueError "The function value is NaN; solver cannot continue.".

(** Bisection: [lo] keeps a negative residual, [hi] a non-negative one. *)
Fixpoint bisect (n : nat) (f : float -> result float) (lo hi : float) : result float :=
  match n with
  | O => Ok hi
  | S n' =>
      let mid := (lo + hi) / 2 in
      match f mid with
      | Ok y =>
          if negb (y =? y) then Raise nan_residual
          else if y <? 0 then bisect n' f mid hi else bisect n' f lo mid
      | Raise e => Raise e
      | OutOfFuel => OutOfFuel
      end
  end.

Definition bisection (f : float -> result float) (a b : float) : result float :=
  match f a with
  | Ok fa =>
      if negb (fa =? fa) then Raise nan_residual
      else
        match f b with
        | Ok fb =>
            if negb (fb =? fb) then Raise nan_residual
            else if fa =? 0 then Ok a
            else if fb =? 0 then Ok b
            else if xorb (fa <? 0) (fb <? 0) then
              if fa <? 0 then bisect 100 f a b else bisect 100 f b a
            else Raise (ValueError "f(a) and f(b) must have different signs")
        | r => r
        end
  | r => r
  end.

(** The float nearest to the exact cube (a tie goes to the even one), which
    is what [pow(x, 3.0)] returns but for rare cubes close to a tie. *)
Definition cube (x : float) : float :=
  match Prim2SF x with
  | S754_finite s m e =>
      let m3 := (Z.pos m * Z.pos m * Z.pos m)%Z in
      SF2Prim (binary_normalize prec emax (if s then (- m3)%Z else m3) (3 * e) s)
  | _ => x * x * x
  end.

(** One classical Runge-Kutta step, and [n] of them. *)
Definition axpy (a : float) (xs ys : list float) : list float :=
  zip_with (fun x y => a * x + y) xs ys.

Definition rk4_step (f : list float -> float -> result (list float)) (y : list float)
    (t dt : float) : result (list float) :=
  match f y t with
  | Ok k1 =>
    match f (axpy (dt / 2) k1 y) (t + dt / 2) with
    | Ok k2 =>
      match f (axpy (dt / 2) k2 y) (t + dt / 2) with
      | Ok k3 =>
        match f (axpy dt k3 y) (t + dt) with
        | Ok k4 =>
            Ok (axpy (dt / 6) k1 (axpy (dt / 3) k2 (axpy (dt / 3) k3 (axpy (dt / 6) k4 y))))
        | r => r
        end
      | r => r
      end
    | r => r
    end
  | r => r
  end.

Fixpoint rk4_steps (n : nat) (f : list float -> float -> result (list float))
    (y : list float) (t dt : float) : result (list float) :=
  match n with
  | O => Ok y
  | S n' =>
      match rk4_step f y t dt with
      | Ok y' => rk4_steps n' f y' (t + dt) dt
      | r => r
      end
  end.

Fixpoint rk4_path (f : list float -> float -> result (list float)) (y : list float)
    (t : float) (ts : list float) : result (list (list float)) :=
  match ts with
  | [] => Ok []
  | t' :: ts' =>
      match rk4_steps 16 f y t ((t' - t) / 16) with
      | Ok y' =>
          match rk4_path f y' t' ts' with
          | Ok rows => Ok (y' :: rows)
          | r => r
          end
      | Raise e => Raise e
      | OutOfFuel => OutOfFuel
      end
  end.

Definition runge_kutta (f : list float -> float -> result (list float))
    (y0 : list float) (ts : list float) (rtol atol : option float)
    : result (list (list float)) :=
  match ts with
  | [] => Ok []
  | t0 :: ts' =>
      match rk4_path f y0 t0 ts' with
      | Ok rows => Ok (y0 :: rows)
      | r => r
      end
  end.

#[export] Instance solvers : SciPy := {|
  brentq := bisection; odeint := runge_kutta; pow3 := cube |}.

(** A reactive gas at rest below its ignition temperature 1 (its
    temperature is 0.9 and its pressure 0.6), and the same gas unable to
    burn. *)
Definition cold_gas : State :=
  mkState 1 0 0 1 (eos_gamma_law_react 1) LNone (Some 0.1).

Definition inert_gas : State := mkState 1 0 0 1 eos_gamma_law LNone None.

(** The shallow-water state: [state()] is the pair of primary variables. *)
#[export] Instance shallow_water : swe_wave.SWEStateClass := {|
  swe_wave.SWEState_state := fun phi v => [phi; v];
  swe_wave.SWEState_wavespeed := fun phi v wavenumber =>
    if (wavenumber =? 1)%Z then v
    else
      let s := Z2F (wavenumber - 1) in
      let cs := sqrt (phi / (1 + phi)) in
      (v + s * cs) / (1 + s * v * cs) |}.

(** A base initialiser that only creates the two lists. *)
#[export] Instance empty_base : swe_wave.WaveBase := {|
  swe_wave.Wave_base_init := fun _ _ _ => Ok ([], []) |}.

Definition still_water : swe_wave.SWEState := swe_wave.mkSWEState 1 0 LNone.

(** An equation of state whose closure for the specific enthalpy answers 1
    at every density and pressure, and the gas of the examples with this
    closure. *)
Definition eos_flat : EOS := {|
  h_from_rho_p := fun rho p => 1;
  t_from_rho_eps := fun rho eps => eps;
  q_available := false;
  t_ignition := None;
  eos_inert := None |}.

Definition flat_gas : State := mkState 1 0 0 1 eos_flat LNone None.

(** The reactive gas of the examples with the ignition temperature 0.5,
    below its temperature 0.9. *)
Definition hot_gas : State := mkState 1 0 0 1 (eos_gamma_law_react 0.5) LNone (Some 0.1).

(** Python's ['{:.4f}'.format(x)]: a float is a dyadic rational, so the
    multiple of 1/10000 nearest to it (a tie goes to the even one) is
    computed exactly; its digits are printed with four decimals. *)
Definition round_4f (m : positive) (e : Z) : Z :=
  let num := (Z.pos m * 10000)%Z in
  if (0 <=? e)%Z then (num * 2 ^ e)%Z
  else
    let den := (2 ^ (- e))%Z in
    let q := (num / den)%Z in
    let r := (num mod den)%Z in
    if (den <? 2 * r)%Z then (q + 1)%Z
    else if ((den =? 2 * r)%Z && Z.odd q)%bool then (q + 1)%Z else q.

Definition pad4 (digits : string) : string :=
  (String.concat "" (repeat "0" (4 - String.length digits)) ++ digits)%string.

Definition fixed_4f (x : float) : string :=
  match Prim2SF x with
  | S754_nan => "nan"
  | S754_infinity s => if s then "-inf" else "inf"
  | S754_zero s => if s then "-0.0000" else "0.0000"
  | S754_finite s m e =>
      let n := round_4f m e in
      ((if s then "-" else "") ++ format_int (n / 10000) ++ "."
        ++ pad4 (format_int (n mod 10000)))%string
  end.

#[export] Instance fixed_point : PyFormat := {| format_4f := fixed_4f |}.

(** The reactive gas of the examples with an equation of state that lacks
    the ignition temperature. *)
Definition eos_no_ignition : EOS := {|
  h_from_rho_p := fun rho p => 1 + gamma / (gamma - 1) * p / rho + 0.1;
  t_from_rho_eps := fun rho eps => eps - 0.1;
  q_available := true;
  t_ignition := None;
  eos_inert := Some eos_gamma_law |}.

Definition unkeyed_gas : State := mkState 1 0 0 1 eos_no_ignition LNone (Some 0.1).


(** Water of depth 1 with the velocity -1.18, beyond the speed of light. *)
Definition fast_water : swe_wave.SWEState := swe_wave.mkSWEState 1 (-1.18) LNone.

End Example.

(* ================================================================= *)
(** * Properties *)

(** ** Order of binary64 values *)

Ltac sf_cases :=
  repeat match goal with
  | s : bool |- _ => destruct s
  | |- context [Z.compare ?a ?b] => destruct (Z.compare_spec a b)
  | H : context [Z.compare ?a ?b] |- _ => destruct (Z.compare_spec a b)
  | |- context [Pos.compare_cont Eq ?a ?b] =>
      change (Pos.compare_cont Eq a b) with (Pos.compare a b);
      destruct (Pos.compare_spec a b)
  | H : context [Pos.compare_cont Eq ?a ?b] |- _ =>
      change (Pos.compare_cont Eq a b) with (Pos.compare a b) in H;
      destruct (Pos.compare_spec a b)
  end; simpl in *; try congruence; try lia.

Lemma SFcompare_antisym x y : SFcompare y x = option_map CompOpp (SFcompare x y).
Proof.
  destruct x as [sx|sx| |sx mx ex], y as [sy|sy| |sy my ey]; simpl; try reflexivity;
    sf_cases.
Qed.

Lemma SFleb_trans x y z : SFleb x y = true -> SFleb y z = true -> SFleb x z = true.
Proof.
  unfold SFleb.
  destruct x as [sx|sx| |sx mx ex], y as [sy|sy| |sy my ey], z as [sz|sz| |sz mz ez];
    simpl; try congruence; sf_cases.
Qed.

Lemma ltb_asym a b : (a <? b) = true -> (b <? a) = false.
Proof.
  rewrite !ltb_spec. unfold SFltb.
  rewrite (SFcompare_antisym (Prim2SF a) (Prim2SF b)).
  destruct (SFcompare (Prim2SF a) (Prim2SF b)) as [[]|]; simpl; congruence.
Qed.

Lemma ltb_not_leb a b : (a <? b) = true -> (b <=? a) = false.
Proof.
  rewrite ltb_spec, leb_spec. unfold SFltb, SFleb.
  rewrite (SFcompare_antisym (Prim2SF a) (Prim2SF b)).
  destruct (SFcompare (Prim2SF a) (Prim2SF b)) as [[]|]; simpl; congruence.
Qed.

Lemma leb_trans a b c : (a <=? b) = true -> (b <=? c) = true -> (a <=? c) = true.
Proof. rewrite !leb_spec. apply SFleb_trans. Qed.

Lemma ltb_leb a b : (a <? b) = true -> (a <=? b) = true.
Proof.
  rewrite ltb_spec, leb_spec. unfold SFltb, SFleb.
  destruct (SFcompare (Prim2SF a) (Prim2SF b)) as [[]|]; congruence.
Qed.

(** A value that is not NaN compares equal to itself; two such values are
    comparable. *)
Lemma leb_total a b :
  (a =? a) = true -> (b =? b) = true -> (a <? b) = false -> (b <=? a) = true.
Proof.
  rewrite !FloatAxioms.eqb_spec, ltb_spec, leb_spec. unfold SFeqb, SFltb, SFleb.
  rewrite (SFcompare_antisym (Prim2SF a) (Prim2SF b)).
  destruct (Prim2SF a) as [sx|sx| |sx mx ex], (Prim2SF b) as [sy|sy| |sy my ey];
    simpl; try congruence; sf_cases.
Qed.

Lemma leb_nonnan_l a b : (a <=? b) = true -> (a =? a) = true.
Proof.
  rewrite leb_spec, FloatAxioms.eqb_spec. unfold SFleb, SFeqb.
  destruct (Prim2SF a) as [sx|sx| |sx mx ex], (Prim2SF b) as [sy|sy| |sy my ey];
    simpl; try congruence; intros _; sf_cases;
    rewrite ?Z.compare_refl, ?Pos.compare_cont_refl; auto.
Qed.

Lemma leb_nonnan_r a b : (a <=? b) = true -> (b =? b) = true.
Proof.
  rewrite leb_spec, FloatAxioms.eqb_spec. unfold SFleb, SFeqb.
  destruct (Prim2SF a) as [sx|sx| |sx mx ex], (Prim2SF b) as [sy|sy| |sy my ey];
    simpl; try congruence; intros _; sf_cases;
    rewrite ?Z.compare_refl, ?Pos.compare_cont_refl; auto.
Qed.

Lemma leb_refl a : (a =? a) = true -> (a <=? a) = true.
Proof.
  rewrite leb_spec, FloatAxioms.eqb_spec. unfold SFleb, SFeqb.
  destruct (SFcompare (Prim2SF a) (Prim2SF a)) as [[]|]; congruence.
Qed.

(** ** The store monad *)

Section Monad.
Context {O : Type}.
Implicit Types h : list O.

Lemma bind_Ok {A B} (m : M O A) (k : A -> M O B) h r :
  bind m k h = Ok r -> exists a h1, m h = Ok (a, h1) /\ k a h1 = Ok r.
Proof.
  unfold bind. destruct (m h) as [[a h1]| |]; try discriminate. eauto.
Qed.

Lemma ret_Ok {A} (a : A) h r : ret a h = Ok r -> r = (a, h).
Proof. unfold ret. congruence. Qed.

Lemma assert_Ok b msg h r : assert b msg h = Ok r -> b = true /\ r = (tt, h).
Proof. unfold assert, ret, raise. destruct b; intros; split; congruence. Qed.

Lemma alloc_Ok (o : O) h r : alloc o h = Ok r -> r = (length h, h ++ [o]).
Proof. unfold alloc. congruence. Qed.

Lemma load_Ok l h r : load l h = Ok r -> exists o, h !! l = Some o /\ r = (o, h).
Proof. unfold load. destruct (h !! l); try discriminate. intros [= <-]. eauto. Qed.

Lemma deepcopy_Ok l h r :
  deepcopy l h = Ok r -> exists o, h !! l = Some o /\ r = (length h, h ++ [o]).
Proof.
  unfold deepcopy. intros H. apply bind_Ok in H as (a & h1 & H1 & H2).
  apply load_Ok in H1 as (o & Ho & [= -> ->]). apply alloc_Ok in H2. eauto.
Qed.

Lemma modify_Ok l f h r :
  modify l f h = Ok r -> exists o, h !! l = Some o /\ r = (tt, <[l := f o]> h).
Proof. unfold modify. destruct (h !! l); try discriminate. intros [= <-]. eauto. Qed.

Lemma lift_Ok {A} (x : result A) h r : lift x h = Ok r -> exists a, x = Ok a /\ r = (a, h).
Proof. unfold lift. destruct x; try discriminate. intros [= <-]. eauto. Qed.

Lemma eval_Ok {A} (m : M O A) h a : eval m h = Ok a -> exists h', m h = Ok (a, h').
Proof. unfold eval. destruct (m h) as [[a' h']| |]; try discriminate. intros [= <-]. eauto. Qed.

Lemma last_row_Ok {A} (rows : list A) h r :
  last_row rows h = Ok r -> exists a, last rows = Some a /\ r = (a, h).
Proof. unfold last_row. destruct (last rows); try discriminate. intros [= <-]. eauto. Qed.

Lemma item_Ok row i h r : @item O row i h = Ok r -> exists x, row !! i = Some x /\ r = (x, h).
Proof. unfold item. destruct (row !! i); try discriminate. intros [= <-]. eauto. Qed.

Lemma load_lookup l h o : h !! l = Some o -> load l h = Ok (o, h).
Proof. unfold load. intros ->. reflexivity. Qed.

Lemma deepcopy_lookup l h o : h !! l = Some o -> deepcopy l h = Ok (length h, h ++ [o]).
Proof. unfold deepcopy, bind. intros H. rewrite (load_lookup _ _ _ H). reflexivity. Qed.

End Monad.

(** Decomposition of a successful run into the runs of its steps. *)
Ltac inv_eq :=
  repeat match goal with
  | H : (_, _) = (_, _) |- _ => injection H as ? ?; subst
  | H : Ok _ = Ok _ |- _ => injection H as ?; subst
  | H : Some _ = Some _ |- _ => injection H as ?; subst
  | x : (_ * _)%type |- _ => destruct x
  | x : unit |- _ => destruct x
  end.

Ltac inv_step H :=
  cbv beta in H;
  lazymatch type of H with
  | bind _ _ _ = Ok _ =>
      let H1 := fresh "Hstep" in
      apply bind_Ok in H as (? & ? & H1 & H); inv_step H1; inv_eq; inv_step H
  | ret _ _ = Ok _ => apply ret_Ok in H
  | raise _ _ = Ok _ => discriminate H
  | assert _ _ _ = Ok _ => apply assert_Ok in H as [? H]
  | alloc _ _ = Ok _ => apply alloc_Ok in H
  | load _ _ = Ok _ => apply load_Ok in H as (? & ? & H)
  | deepcopy _ _ = Ok _ => apply deepcopy_Ok in H as (? & ? & H)
  | modify _ _ _ = Ok _ => apply modify_Ok in H as (? & ? & H)
  | lift _ _ = Ok _ => apply lift_Ok in H as (? & ? & H)
  | last_row _ _ = Ok _ => apply last_row_Ok in H as (? & ? & H)
  | item _ _ _ = Ok _ => apply item_Ok in H as (? & ? & H)
  | with_store _ _ = Ok _ => unfold with_store in H; inv_step H
  | (if ?b then _ else _) _ = Ok _ => destruct b eqn:?; inv_step H
  | (match ?x with _ => _ end) _ = Ok _ =>
      first [ is_var x; destruct x | destruct x eqn:? ]; inv_step H
  | _ => idtac
  end.

Ltac monad_inv H := inv_step H; inv_eq.

(** ** Stores only grow *)

Section Frame.
Context {O : Type}.
Implicit Types h : list O.

Lemma alloc_only_ret {A} (a : A) : alloc_only (@ret O A a).
Proof. intros h a' h' H. apply ret_Ok in H as [= -> ->]. reflexivity. Qed.

Lemma alloc_only_raise {A} e : alloc_only (@raise O A e).
Proof. intros h a' h' H. discriminate. Qed.

Lemma alloc_only_bind {A B} (m : M O A) (k : A -> M O B) :
  alloc_only m -> (forall a, alloc_only (k a)) -> alloc_only (bind m k).
Proof.
  intros Hm Hk h b h' H. apply bind_Ok in H as (a & h1 & H1 & H2).
  etransitivity; [eapply Hm | eapply Hk]; eauto.
Qed.

Lemma alloc_only_assert b msg : alloc_only (@assert O b msg).
Proof. intros h a h' H. apply assert_Ok in H as [_ [= -> ->]]. reflexivity. Qed.

Lemma alloc_only_alloc (o : O) : alloc_only (alloc o).
Proof. intros h a h' H. apply alloc_Ok in H as [= -> ->]. by apply prefix_app_r. Qed.

Lemma alloc_only_load l : alloc_only (@load O l).
Proof. intros h a h' H. apply load_Ok in H as (o & _ & [= -> ->]). reflexivity. Qed.

Lemma alloc_only_deepcopy l : alloc_only (@deepcopy O l).
Proof.
  intros h a h' H. apply deepcopy_Ok in H as (o & _ & [= -> ->]). by apply prefix_app_r.
Qed.

Lemma alloc_only_lift {A} (x : result A) : alloc_only (@lift O A x).
Proof. intros h a h' H. apply lift_Ok in H as (o & _ & [= -> ->]). reflexivity. Qed.

Lemma alloc_only_with_store {A} (k : list O -> M O A) :
  (forall st, alloc_only (k st)) -> alloc_only (with_store k).
Proof. intros Hk h a h' H. eapply Hk, H. Qed.

Lemma alloc_only_last_row {A} (rows : list A) : alloc_only (@last_row O A rows).
Proof. unfold last_row. destruct (last rows); [apply alloc_only_ret | apply alloc_only_raise]. Qed.

Lemma alloc_only_item row i : alloc_only (@item O row i).
Proof. unfold item. destruct (row !! i); [apply alloc_only_ret | apply alloc_only_raise]. Qed.

End Frame.

Ltac alloc_only_step :=
  cbv beta;
  lazymatch goal with
  | |- alloc_only (ret _) => apply alloc_only_ret
  | |- alloc_only (raise _) => apply alloc_only_raise
  | |- alloc_only (assert _ _) => apply alloc_only_assert
  | |- alloc_only (alloc _) => apply alloc_only_alloc
  | |- alloc_only (load _) => apply alloc_only_load
  | |- alloc_only (deepcopy _) => apply alloc_only_deepcopy
  | |- alloc_only (lift _) => apply alloc_only_lift
  | |- alloc_only (last_row _) => apply alloc_only_last_row
  | |- alloc_only (item _ _) => apply alloc_only_item
  | |- alloc_only (with_store _) => apply alloc_only_with_store; intros ?
  | |- alloc_only (bind _ _) => apply alloc_only_bind; [ | intros ? ]
  | |- alloc_only (if ?b then _ else _) => destruct b
  | |- alloc_only (match ?x with _ => _ end) => destruct x
  end.

Ltac alloc_only_tac := repeat alloc_only_step.

Lemma alloc_only_keeps {O A} (m : M O A) : alloc_only m -> keeps_existing m.
Proof. intros Hm h a h' H l o Hl. eapply prefix_lookup_Some; eauto. Qed.

(** Reading an old location in a grown store. *)
Lemma lookup_grown {O} (h news : list O) l o :
  h !! l = Some o -> (h ++ news) !! l = Some o.
Proof. intros H. rewrite lookup_app_l; [done | by eapply lookup_lt_Some]. Qed.

Lemma lookup_new {O} (h : list O) o news : (h ++ o :: news) !! length h = Some o.
Proof. by rewrite list_lookup_middle. Qed.

Ltac store_simpl :=
  repeat match goal with
  | H : (?h ++ ?o :: _) !! length ?h = Some ?o' |- _ =>
      rewrite lookup_new in H; injection H as <-
  | H : ?h !! ?l = Some ?o, H' : (?h ++ _) !! ?l = Some ?o' |- _ =>
      rewrite (lookup_grown _ _ _ _ H) in H'; injection H' as <-
  | H : ?h !! ?l = Some ?o, H' : ((?h ++ _) ++ _) !! ?l = Some ?o' |- _ =>
      rewrite <- app_assoc in H'
  | H : ?h !! ?l = Some ?o, H' : ?h !! ?l = Some ?o' |- _ =>
      rewrite H in H'; injection H' as <-
  end.

(** ** Sections of [wave.py]: the store only grows *)

Section WaveSections.
Context {state_class : StateClass} {scipy : SciPy}.
Import wave.

Lemma alloc_only_solve_front fuel s p_end e wn lbl :
  alloc_only (solve_front fuel s p_end e wn lbl).
Proof. unfold solve_front, mass_flux_squared, State_new. alloc_only_tac. Qed.

Lemma alloc_only_Contact q_start q_end wn : alloc_only (Contact q_start q_end wn).
Proof. unfold Contact. alloc_only_tac. Qed.

Lemma alloc_only_Rarefaction q_start p_end wn : alloc_only (Rarefaction q_start p_end wn).
Proof. unfold Rarefaction, State_new. alloc_only_tac. Qed.

Lemma alloc_only_Shock fuel q_start p_end wn : alloc_only (Shock fuel q_start p_end wn).
Proof. unfold Shock, State_new. alloc_only_tac; apply alloc_only_solve_front. Qed.

Lemma alloc_only_Deflagration fuel q_start p_end wn :
  alloc_only (Deflagration fuel q_start p_end wn).
Proof.
  unfold Deflagration, State_new, eos_key. alloc_only_tac; apply alloc_only_solve_front.
Qed.

Lemma alloc_only_Detonation fuel q_start p_end wn :
  alloc_only (Detonation fuel q_start p_end wn).
Proof.
  unfold Detonation, State_new, eos_key. alloc_only_tac; apply alloc_only_solve_front.
Qed.

Lemma alloc_only_trailing_rarefaction front p wn :
  alloc_only (trailing_rarefaction front p wn).
Proof. unfold trailing_rarefaction. alloc_only_tac; apply alloc_only_Rarefaction. Qed.

Lemma alloc_only_build_inert fuel q_known uv wn :
  alloc_only (build_inert_wave_section fuel q_known uv wn).
Proof.
  unfold build_inert_wave_section.
  alloc_only_tac;
    first [ apply alloc_only_Contact | apply alloc_only_Shock | apply alloc_only_Rarefaction ].
Qed.

Lemma alloc_only_edge_states {O} q_known wn last_end :
  alloc_only (@edge_states O q_known wn last_end).
Proof. unfold edge_states. alloc_only_tac. Qed.

End WaveSections.

Section SWESections.
Context {state_class : swe_wave.SWEStateClass} {scipy : SciPy} {wave_base : swe_wave.WaveBase}.
Import swe_wave.

Lemma alloc_only_SWEContact q_start q_end wn : alloc_only (SWEContact q_start q_end wn).
Proof. unfold SWEContact. alloc_only_tac. Qed.

Lemma alloc_only_SWERarefaction q_start phi_end wn :
  alloc_only (SWERarefaction q_start phi_end wn).
Proof. unfold SWERarefaction, rarefaction_solve, SWEState_new. alloc_only_tac. Qed.

Lemma alloc_only_SWEShock q_start phi_end wn : alloc_only (SWEShock q_start phi_end wn).
Proof. unfold SWEShock, SWEState_new. alloc_only_tac. Qed.

Lemma alloc_only_build_wave_section q_known uv wn :
  alloc_only (build_wave_section q_known uv wn).
Proof.
  unfold build_wave_section.
  alloc_only_tac;
    first [ apply alloc_only_SWEContact | apply alloc_only_SWEShock
          | apply alloc_only_SWERarefaction ].
Qed.

Lemma alloc_only_SWEWave_init q_known uv wn : alloc_only (SWEWave_init q_known uv wn).
Proof.
  unfold SWEWave_init.
  alloc_only_tac;
    first [ apply alloc_only_build_wave_section | apply alloc_only_edge_states ].
Qed.

End SWESections.

(* ================================================================= *)
(** ** The claims *)

(** C6. A Rarefaction asked for a target coupling value strictly above the
    start state's is refused with an [AssertionError], in the relativistic
    and in the shallow-water family, whatever the wavenumber: no section is
    returned. *)
Theorem Rarefaction_increasing_target_rejected :
  (forall (state_class : StateClass) (scipy : SciPy)
          (h : list State) (q_start : loc) (s : State) (p_end : float) (wavenumber : Z),
      h !! q_start = Some s ->
      (wave.p_of s <? p_end) = true ->
      exists msg, wave.Rarefaction q_start p_end wavenumber h = Raise (AssertionError msg))
  /\
  (forall (state_class : swe_wave.SWEStateClass) (scipy : SciPy)
          (h : list swe_wave.SWEState) (q_start : loc) (s : swe_wave.SWEState)
          (phi_end : float) (wavenumber : Z),
      h !! q_start = Some s ->
      (swe_wave.phi s <? phi_end) = true ->
      exists msg,
        swe_wave.SWERarefaction q_start phi_end wavenumber h = Raise (AssertionError msg)).
Proof.
  split; intros sc sp h q_start s target wn Hs Hlt.
  - unfold wave.Rarefaction, bind, assert.
    destruct (wave.in_0_2 wn); [ | eexists; reflexivity ].
    cbn. rewrite (load_lookup _ _ _ Hs). unfold geb. rewrite (ltb_not_leb _ _ Hlt).
    eexists; reflexivity.
  - unfold swe_wave.SWERarefaction, bind, assert.
    destruct (swe_wave.in_0_2 wn); [ | eexists; reflexivity ].
    cbn. rewrite (load_lookup _ _ _ Hs). unfold geb. rewrite (ltb_not_leb _ _ Hlt).
    eexists; reflexivity.
Qed.

Section C6_example.
Import Example.

Lemma Rarefaction_increasing_target_rejected_witness :
  (exists msg, wave.Rarefaction 0 1 0 [inert_gas] = Raise (AssertionError msg))
  /\ (exists msg,
        swe_wave.SWERarefaction 0 2 2 [still_water] = Raise (AssertionError msg)).
Proof.
  split.
  - apply (proj1 Rarefaction_increasing_target_rejected
             ideal_gas solvers [inert_gas] 0%nat
             inert_gas 1 0%Z); [ reflexivity | vm_compute; reflexivity ].
  - apply (proj2 Rarefaction_increasing_target_rejected
             shallow_water solvers [still_water] 0%nat
             still_water 2 2%Z); [ reflexivity | vm_compute; reflexivity ].
Defined.

End C6_example.

(** ** Contacts *)

Section Contacts.
Context {state_class : StateClass} {scipy : SciPy}.
Import wave.

(** A contact between two states that pass the three assertions. *)
Lemma Contact_run h q_start q_end s e :
  h !! q_start = Some s -> h !! q_end = Some e ->
  allclose (v s) (v e) = true ->
  allclose (p_of s) (p_of e) = true ->
  allclose (wavespeed_of s 1) (wavespeed_of e 1) = true ->
  Contact q_start (VState q_end) 1 h =
    Ok (mkWaveSection false "Contact" 1 (length h) (S (length h)) "{\cal C}" [v s],
        h ++ [s; e]).
Proof.
  intros Hs He Hv Hp Hw.
  unfold Contact, bind, assert. cbn.
  rewrite (deepcopy_lookup _ _ _ Hs).
  rewrite (deepcopy_lookup _ _ _ (lookup_grown _ [s] _ _ He)).
  rewrite (load_lookup _ _ _ (lookup_grown _ [e] _ _ (lookup_grown _ [s] _ _ Hs))).
  rewrite (load_lookup _ _ _ (lookup_grown _ [e] _ _ (lookup_grown _ [s] _ _ He))).
  rewrite Hv, Hp, Hw. cbn. unfold ret.
  rewrite length_app, Nat.add_1_r, <- app_assoc. reflexivity.
Qed.

Lemma Contact_inv h q_start q_end wn sec h' :
  Contact q_start q_end wn h = Ok (sec, h') ->
  ws_trivial sec = false /\ ws_type sec = "Contact"%string /\ wn = 1%Z.
Proof.
  intros H. unfold Contact in H. monad_inv H. cbn. repeat split. lia.
Qed.

End Contacts.

Section SWEContacts.
Context {state_class : swe_wave.SWEStateClass} {scipy : SciPy}.
Import swe_wave.

Lemma SWEContact_run h q_start q_end s e :
  h !! q_start = Some s -> h !! q_end = Some e ->
  allclose (v s) (v e) = true ->
  allclose (phi s) (phi e) = true ->
  allclose (wavespeed_of s 1) (wavespeed_of e 1) = true ->
  SWEContact q_start (VState q_end) 1 h =
    Ok (mkSWEWaveSection (allclose_array (state_of s) (state_of e)) "Contact" 1
          (length h) (S (length h))
          (if allclose_array (state_of s) (state_of e) then "" else "{\cal C}") [v s],
        h ++ [s; e]).
Proof.
  intros Hs He Hv Hp Hw.
  unfold SWEContact, bind, assert. cbn.
  rewrite (deepcopy_lookup _ _ _ Hs).
  rewrite (deepcopy_lookup _ _ _ (lookup_grown _ [s] _ _ He)).
  rewrite (load_lookup _ _ _ (lookup_grown _ [e] _ _ (lookup_grown _ [s] _ _ Hs))).
  rewrite (load_lookup _ _ _ (lookup_grown _ [e] _ _ (lookup_grown _ [s] _ _ He))).
  rewrite Hv, Hp, Hw.
  destruct (allclose_array (state_of s) (state_of e)); cbn; unfold ret;
    rewrite length_app, Nat.add_1_r, <- app_assoc; reflexivity.
Qed.

End SWEContacts.

(** C10. Between two states with matching velocity, coupling value and
    wavespeed a Contact is constructed in both families. The shallow-water
    Contact is trivial exactly when [numpy.allclose] holds of the two
    [state()] arrays; the relativistic Contact never is, even between equal
    states. *)
Theorem Contact_trivial_flag :
  (forall (state_class : StateClass) (scipy : SciPy)
          (h : list State) (q_start q_end : loc) (s e : State),
      h !! q_start = Some s -> h !! q_end = Some e ->
      allclose (v s) (v e) = true ->
      allclose (wave.p_of s) (wave.p_of e) = true ->
      allclose (wave.wavespeed_of s 1) (wave.wavespeed_of e 1) = true ->
      exists sec h',
        wave.Contact q_start (VState q_end) 1 h = Ok (sec, h') /\
        wave.ws_trivial sec = false)
  /\
  (forall (state_class : swe_wave.SWEStateClass) (scipy : SciPy)
          (h : list swe_wave.SWEState) (q_start q_end : loc) (s e : swe_wave.SWEState),
      h !! q_start = Some s -> h !! q_end = Some e ->
      allclose (swe_wave.v s) (swe_wave.v e) = true ->
      allclose (swe_wave.phi s) (swe_wave.phi e) = true ->
      allclose (swe_wave.wavespeed_of s 1) (swe_wave.wavespeed_of e 1) = true ->
      exists sec h',
        swe_wave.SWEContact q_start (VState q_end) 1 h = Ok (sec, h') /\
        swe_wave.ws_trivial sec =
          allclose_array (swe_wave.state_of s) (swe_wave.state_of e)).
Proof.
  split; intros sc sp h q_start q_end s e Hs He Hv Hp Hw.
  - eexists _, _. split; [ apply Contact_run; eassumption | reflexivity ].
  - eexists _, _. split; [ apply SWEContact_run; eassumption | reflexivity ].
Qed.

Section C10_example.
Import Example.

(** A contact of the inert gas with itself. *)
Lemma Contact_trivial_flag_witness :
  exists sec h',
    wave.Contact 0 (VState 0) 1 [inert_gas] = Ok (sec, h') /\
    wave.ws_trivial sec = false.
Proof.
  apply (proj1 Contact_trivial_flag ideal_gas solvers [inert_gas] 0%nat 0%nat
           inert_gas inert_gas); reflexivity.
Defined.

End C10_example.

(** C5. In the inert strategy and in the shallow-water family, a
    wave of wavenumber 1 between a known state and a target state whose
    velocity, coupling value and wavespeed agree within tolerance is
    constructed, and its section list is exactly one Contact. (For the
    shallow-water wave the base initialiser is taken to leave both of its
    lists empty.) *)
Theorem Wave_contact_single_section :
  (forall (state_class : StateClass) (scipy : SciPy) (fuel : nat)
          (h : list State) (q_known q_end : loc) (s e : State),
      h !! q_known = Some s -> h !! q_end = Some e ->
      q_available (eos s) = false ->
      allclose (v s) (v e) = true ->
      allclose (wave.p_of s) (wave.p_of e) = true ->
      allclose (wave.wavespeed_of s 1) (wave.wavespeed_of e 1) = true ->
      exists w h' c,
        wave.Wave_init fuel q_known (VState q_end) 1 h = Ok (w, h') /\
        wave.w_wave_sections w = [c] /\ wave.ws_type c = "Contact"%string)
  /\
  (forall (state_class : swe_wave.SWEStateClass) (scipy : SciPy)
          (wave_base : swe_wave.WaveBase)
          (h : list swe_wave.SWEState) (q_known q_end : loc) (s e : swe_wave.SWEState),
      h !! q_known = Some s -> h !! q_end = Some e ->
      swe_wave.Wave_base_init q_known (VState q_end) 1 = Ok ([], []) ->
      allclose (swe_wave.v s) (swe_wave.v e) = true ->
      allclose (swe_wave.phi s) (swe_wave.phi e) = true ->
      allclose (swe_wave.wavespeed_of s 1) (swe_wave.wavespeed_of e 1) = true ->
      exists w h' c,
        swe_wave.SWEWave_init q_known (VState q_end) 1 h = Ok (w, h') /\
        swe_wave.w_wave_sections w = [c] /\ swe_wave.ws_type c = "Contact"%string).
Proof.
  Local Opaque wave.Contact swe_wave.SWEContact.
  split.
  - intros sc sp fuel h q_known q_end s e Hs He Hq Hv Hp Hw.
    unfold wave.Wave_init, bind.
    rewrite (load_lookup _ _ _ Hs), Hq. cbn.
    unfold wave.build_inert_wave_section, bind. cbn.
    rewrite (Contact_run _ _ _ _ _ Hs He Hv Hp Hw). cbn.
    pose proof (lookup_grown _ [s; e] _ _ Hs) as Hs'.
    rewrite (deepcopy_lookup _ _ _ Hs').
    rewrite (deepcopy_lookup _ _ _ (lookup_grown _ [s] _ _ Hs')). cbn.
    eexists _, _, _. split; [ reflexivity | split; reflexivity ].
  - intros sc sp wb h q_known q_end s e Hs He Hb Hv Hp Hw.
    unfold swe_wave.SWEWave_init, bind. rewrite Hb. cbn.
    unfold swe_wave.build_wave_section, bind. cbn.
    rewrite (SWEContact_run _ _ _ _ _ Hs He Hv Hp Hw). cbn.
    pose proof (lookup_grown _ [s; e] _ _ Hs) as Hs'.
    rewrite (deepcopy_lookup _ _ _ Hs').
    rewrite (deepcopy_lookup _ _ _ (lookup_grown _ [s] _ _ Hs')). cbn.
    eexists _, _, _. split; [ reflexivity | split; reflexivity ].
  Local Transparent wave.Contact swe_wave.SWEContact.
Qed.

Section C5_example.
Import Example.

Lemma Wave_contact_single_section_witness :
  exists w h' c,
    wave.Wave_init 0 0 (VState 0) 1 [inert_gas] = Ok (w, h') /\
    wave.w_wave_sections w = [c] /\ wave.ws_type c = "Contact"%string.
Proof.
  apply (proj1 Wave_contact_single_section ideal_gas solvers 0%nat [inert_gas]
           0%nat 0%nat inert_gas inert_gas); reflexivity.
Defined.

(** The inert gas at rest and the same gas moving at half the speed of
    light do not make a contact: the wave is not constructed. *)
Lemma Wave_contact_refused :
  wave.Wave_init 0 0 (VState 1) 1
    [inert_gas; mkState 1 0.5 0 1 eos_gamma_law LNone None]
  = Raise (AssertionError "Velocities of states must match for a contact").
Proof. vm_compute. reflexivity. Qed.

(** In the reactive strategy the factory returns the Contact itself, and
    the loop over the returned value raises. *)
Lemma Wave_contact_reactive_raises :
  wave.Wave_init 0 0 (VState 0) 1 [cold_gas]
  = Raise (TypeError "'Contact' object is not iterable").
Proof. vm_compute. reflexivity. Qed.

End C5_example.

(** ** What a section constructor returns *)

Lemma lookup_app_plus {O} (h l : list O) n : (h ++ l) !! (length h + n)%nat = l !! n.
Proof. rewrite lookup_app_r by lia. f_equal. lia. Qed.

Ltac solve_lookup :=
  rewrite <- ?app_assoc; rewrite ?length_app; simpl;
  lazymatch goal with
  | |- (?h ++ ?l) !! ?i = _ =>
      first [ replace i with (length h + 0)%nat by lia
            | replace i with (length h + 1)%nat by lia
            | replace i with (length h + 2)%nat by lia
            | replace i with (length h + 3)%nat by lia
            | replace i with (length h + 4)%nat by lia
            | replace i with (length h + 5)%nat by lia ];
      rewrite lookup_app_plus; reflexivity
  end.

Ltac splits := repeat match goal with |- _ /\ _ => split end.

Ltac solve_length := rewrite ?length_app; simpl; lia.

Ltac finish_section :=
  first
    [ eassumption | reflexivity | symmetry; eassumption | solve_lookup | solve_length
    | congruence
    | intros ?; congruence
    | intros _; splits; first [ reflexivity | destruct (_ =? 0)%Z; reflexivity ] ].

Section SectionResults.
Context {state_class : StateClass} {scipy : SciPy}.
Import wave.

Lemma solve_front_inv fuel s p_end e wn lbl h v_front q_unknown h' :
  solve_front fuel s p_end e wn lbl h = Ok ((v_front, q_unknown), h') ->
  exists u, h' = h ++ [u] /\ q_unknown = length h /\ eos u = e /\ label u = lbl.
Proof.
  intros H. unfold solve_front, mass_flux_squared, State_new in H. monad_inv H.
  eexists. splits; reflexivity.
Qed.

Lemma Rarefaction_inv q_start p_end wn h sec h' :
  Rarefaction q_start p_end wn h = Ok (sec, h') ->
  acoustic_section "Rarefaction" 2 h q_start p_end wn sec h' /\
  (exists s, h !! q_start = Some s /\ geb (p_of s) p_end = true).
Proof.
  intros H. unfold Rarefaction, State_new in H. monad_inv H; store_simpl.
  all: split; [ | eauto ].
  all: eexists _, _; cbn; splits; finish_section.
Qed.

Lemma Shock_inv fuel q_start p_end wn h sec h' :
  Shock fuel q_start p_end wn h = Ok (sec, h') ->
  acoustic_section "Shock" 1 h q_start p_end wn sec h' /\
  (exists s e, h' = h ++ [s; e] /\ ws_q_end sec = S (length h) /\ eos e = eos s).
Proof.
  intros H. unfold Shock, State_new in H. monad_inv H; store_simpl.
  - split.
    + eexists _, _; cbn; splits; finish_section.
    + eexists _, _. rewrite <- app_assoc. splits; [ reflexivity | solve_length | reflexivity ].
  - apply solve_front_inv in Hstep0 as (u & -> & -> & Heos & Hlbl).
    split.
    + eexists _, _; cbn; splits; finish_section.
    + eexists _, _. rewrite <- app_assoc. splits; [ reflexivity | solve_length | done ].
Qed.

Lemma Deflagration_inv fuel q_start p_end wn h sec h' :
  Deflagration fuel q_start p_end wn h = Ok (sec, h') ->
  acoustic_section "Deflagration" 2 h q_start p_end wn sec h'.
Proof.
  intros H. unfold Deflagration, State_new, eos_key in H. monad_inv H; store_simpl.
  all: repeat match goal with
       | Hs : solve_front _ _ _ _ _ _ _ = Ok _ |- _ =>
           apply solve_front_inv in Hs as (? & -> & -> & ? & ?)
       end.
  all: store_simpl.
  all: eexists _, _; cbn; splits; finish_section.
Qed.

Lemma Detonation_inv fuel q_start p_end wn h sec h' :
  Detonation fuel q_start p_end wn h = Ok (sec, h') ->
  acoustic_section "Detonation" 2 h q_start p_end wn sec h'.
Proof.
  intros H. unfold Detonation, State_new, eos_key in H. monad_inv H; store_simpl.
  all: repeat match goal with
       | Hs : solve_front _ _ _ _ _ _ _ = Ok _ |- _ =>
           apply solve_front_inv in Hs as (? & -> & -> & ? & ?)
       end.
  all: store_simpl.
  all: eexists _, _; cbn; splits; finish_section.
Qed.

End SectionResults.

Section SWESectionResults.
Context {state_class : swe_wave.SWEStateClass} {scipy : SciPy}.
Import swe_wave.

Lemma SWERarefaction_inv q_start phi_end wn h sec h' :
  SWERarefaction q_start phi_end wn h = Ok (sec, h') ->
  swe_acoustic_section "Rarefaction" 0 h q_start phi_end wn sec h'.
Proof.
  intros H. unfold SWERarefaction, rarefaction_solve, SWEState_new in H.
  monad_inv H; store_simpl.
  all: eexists _, _; cbn; splits; finish_section.
Qed.

Lemma SWEShock_inv q_start phi_end wn h sec h' :
  SWEShock q_start phi_end wn h = Ok (sec, h') ->
  swe_acoustic_section "Shock" 1 h q_start phi_end wn sec h'.
Proof.
  intros H. unfold SWEShock, SWEState_new in H. monad_inv H; store_simpl.
  all: eexists _, _; cbn; splits; finish_section.
Qed.

End SWESectionResults.

(** ** The reactive factory leaves the objects it was given as they are *)

Section Keeps.
Context {O : Type}.

Lemma keeps_bind {A B} (m : M O A) (k : A -> M O B) :
  keeps_existing m -> (forall a, keeps_existing (k a)) -> keeps_existing (bind m k).
Proof.
  intros Hm Hk h b h' H l o Hl. apply bind_Ok in H as (a & h1 & H1 & H2).
  eapply Hk; [ exact H2 | ]. eapply Hm; eauto.
Qed.

End Keeps.

Ltac keeps_step :=
  cbv beta;
  lazymatch goal with
  | |- keeps_existing (bind _ _) => apply keeps_bind; [ | intros ? ]
  | |- keeps_existing (if ?b then _ else _) => destruct b
  | |- keeps_existing (match ?x with _ => _ end) => destruct x
  | |- keeps_existing _ => apply alloc_only_keeps
  end.

Section ReactiveFactory.
Context {state_class : StateClass} {scipy : SciPy}.
Import wave.

(** The one assignment to a State: the object is the end state of the
    shock just built, which did not exist before. *)
Lemma keeps_shock_then_assign {A} fuel q_known p_0_star wn f (k : WaveSection -> M State A) :
  (forall sh, keeps_existing (k sh)) ->
  keeps_existing
    (bind (Shock fuel q_known p_0_star wn)
          (fun sh => bind (modify (ws_q_end sh) f) (fun _ => k sh))).
Proof.
  intros Hk h a h' H l o Hl.
  apply bind_Ok in H as (sh & h1 & Hsh & H).
  apply bind_Ok in H as ([] & h2 & Hmod & H).
  apply modify_Ok in Hmod as (e & He & [= ->]).
  eapply Hk; [ exact H | ].
  apply Shock_inv in Hsh as [(s0 & e0 & _ & _ & _ & _ & Hfresh & _) (s1 & e1 & -> & _)].
  rewrite list_lookup_insert_ne.
  - by apply lookup_grown.
  - apply lookup_lt_Some in Hl. lia.
Qed.

Lemma keeps_build_reactive fuel q_known uv wn :
  keeps_existing (build_reactive_wave_section fuel q_known uv wn).
Proof.
  unfold build_reactive_wave_section, eos_key.
  repeat first
    [ apply keeps_shock_then_assign; intros ?
    | apply alloc_only_keeps;
      first [ apply alloc_only_Contact | apply alloc_only_Detonation
            | apply alloc_only_Deflagration | apply alloc_only_trailing_rarefaction
            | apply alloc_only_Shock ]
    | apply alloc_only_keeps; solve [ alloc_only_tac ]
    | keeps_step ].
Qed.

Lemma keeps_Wave_init fuel q_known uv wn :
  keeps_existing (Wave_init fuel q_known uv wn).
Proof.
  unfold Wave_init, iterate.
  repeat first
    [ apply keeps_build_reactive
    | apply alloc_only_keeps;
      first [ apply alloc_only_build_inert | apply alloc_only_edge_states ]
    | apply alloc_only_keeps; solve [ alloc_only_tac ]
    | keeps_step ].
Qed.

End ReactiveFactory.

(** ** The edge states of a wave *)

Lemma edge_states_spec {O} (h h' : list O) q_known wn last_end q_l q_r s :
  edge_states q_known wn last_end h = Ok ((q_l, q_r), h') ->
  h !! q_known = Some s ->
  (wn = 0%Z ->
     h' !! q_l = Some s /\
     match last_end with
     | Some q_end => q_r = q_end
     | None => h' !! q_r = h' !! q_l
     end) /\
  (wn = 2%Z ->
     h' !! q_r = Some s /\
     match last_end with
     | Some q_end => q_l = q_end
     | None => h' !! q_l = h' !! q_r
     end) /\
  (wn = 1%Z -> h' !! q_l = Some s /\ h' !! q_r = Some s).
Proof.
  intros H Hs. unfold edge_states in H.
  destruct (wn =? 0)%Z eqn:E0; [ | destruct (wn =? 1)%Z eqn:E1 ].
  - apply Z.eqb_eq in E0 as ->. destruct last_end; monad_inv H; store_simpl.
    + splits; try discriminate. intros _. split; [ solve_lookup | reflexivity ].
    + splits; try discriminate. intros _.
      split; [ solve_lookup | ]. etransitivity; [ | symmetry ]; solve_lookup.
  - apply Z.eqb_eq in E1 as ->. monad_inv H; store_simpl.
    splits; try discriminate. intros _. split; solve_lookup.
  - destruct last_end; monad_inv H; store_simpl.
    + splits; try (intros ->; discriminate). intros _. split; [ solve_lookup | reflexivity ].
    + splits; try (intros ->; discriminate). intros _.
      split; [ solve_lookup | ]. etransitivity; [ | symmetry ]; solve_lookup.
Qed.

(** C1. The edge states of a constructed wave. For wavenumber 0, [q_l]
    holds the known state as supplied and [q_r] is the end state of the last
    section (a copy of [q_l] when there is no section); for wavenumber 2
    the two are exchanged; for wavenumber 1 both hold the known state. The
    known state itself is as it was supplied. *)
Theorem Wave_edge_states :
  (forall (state_class : StateClass) (scipy : SciPy) (fuel : nat)
          (h h' : list State) (q_known : loc) (unknown_value : value) (wavenumber : Z)
          (w : wave.Wave) (s : State),
      wave.Wave_init fuel q_known unknown_value wavenumber h = Ok (w, h') ->
      h !! q_known = Some s ->
      h' !! q_known = Some s /\
      (wavenumber = 0%Z ->
         h' !! wave.w_q_l w = Some s /\
         match last (wave.w_wave_sections w) with
         | Some sec => wave.w_q_r w = wave.ws_q_end sec
         | None => h' !! wave.w_q_r w = h' !! wave.w_q_l w
         end) /\
      (wavenumber = 2%Z ->
         h' !! wave.w_q_r w = Some s /\
         match last (wave.w_wave_sections w) with
         | Some sec => wave.w_q_l w = wave.ws_q_end sec
         | None => h' !! wave.w_q_l w = h' !! wave.w_q_r w
         end) /\
      (wavenumber = 1%Z ->
         h' !! wave.w_q_l w = Some s /\ h' !! wave.w_q_r w = Some s))
  /\
  (forall (state_class : swe_wave.SWEStateClass) (scipy : SciPy)
          (wave_base : swe_wave.WaveBase)
          (h h' : list swe_wave.SWEState) (q_known : loc) (unknown_value : value)
          (wavenumber : Z) (w : swe_wave.SWEWave) (s : swe_wave.SWEState),
      swe_wave.SWEWave_init q_known unknown_value wavenumber h = Ok (w, h') ->
      h !! q_known = Some s ->
      h' !! q_known = Some s /\
      (wavenumber = 0%Z ->
         h' !! swe_wave.w_q_l w = Some s /\
         match last (swe_wave.w_wave_sections w) with
         | Some sec => swe_wave.w_q_r w = swe_wave.ws_q_end sec
         | None => h' !! swe_wave.w_q_r w = h' !! swe_wave.w_q_l w
         end) /\
      (wavenumber = 2%Z ->
         h' !! swe_wave.w_q_r w = Some s /\
         match last (swe_wave.w_wave_sections w) with
         | Some sec => swe_wave.w_q_l w = swe_wave.ws_q_end sec
         | None => h' !! swe_wave.w_q_l w = h' !! swe_wave.w_q_r w
         end) /\
      (wavenumber = 1%Z ->
         h' !! swe_wave.w_q_l w = Some s /\ h' !! swe_wave.w_q_r w = Some s)).
Proof.
  split.
  - intros sc sp fuel h h' q_known uv wn w s H Hs.
    split; [ eapply keeps_Wave_init; eauto | ].
    unfold wave.Wave_init in H.
    apply bind_Ok in H as (s0 & h0 & Hload & H).
    apply load_Ok in Hload as (? & Hs0 & [= <- <-]).
    apply bind_Ok in H as (waves & h1 & Hbuild & H).
    assert (Hs1 : h1 !! q_known = Some s).
    { destruct (negb _).
      - eapply alloc_only_keeps; [ apply alloc_only_build_inert | exact Hbuild | exact Hs ].
      - eapply keeps_build_reactive; [ exact Hbuild | exact Hs ]. }
    apply bind_Ok in H as (sections & h2 & Hiter & H).
    assert (h2 = h1) as ->.
    { unfold wave.iterate in Hiter. destruct waves; monad_inv Hiter. reflexivity. }
    apply bind_Ok in H as ([q_l q_r] & h3 & Hedge & H).
    apply ret_Ok in H as [= -> ->]. cbn.
    pose proof (edge_states_spec _ _ _ _ _ _ _ _ Hedge Hs1) as (E0 & E2 & E1).
    destruct (last sections); cbn in *; auto.
  - intros sc sp wb h h' q_known uv wn w s H Hs.
    split; [ eapply alloc_only_keeps; [ apply alloc_only_SWEWave_init | eauto.. ] | ].
    unfold swe_wave.SWEWave_init in H.
    apply bind_Ok in H as ([ss0 ws0] & h0 & Hbase & H).
    apply lift_Ok in Hbase as (? & Hbase & [= <- <-]).
    apply bind_Ok in H as (waves & h1 & Hbuild & H).
    assert (Hs1 : h1 !! q_known = Some s).
    { eapply alloc_only_keeps;
        [ apply alloc_only_build_wave_section | exact Hbuild | exact Hs ]. }
    apply bind_Ok in H as ([q_l q_r] & h3 & Hedge & H).
    apply ret_Ok in H as [= -> ->]. cbn.
    pose proof (edge_states_spec _ _ _ _ _ _ _ _ Hedge Hs1) as (E0 & E2 & E1).
    destruct (last (ss0 ++ waves)); cbn in *; auto.
Qed.

Section C1_example.
Import Example.

(** The wave of family 2 that takes the cold reactive gas to the pressure
    0.5: a precursor shock, a deflagration and a rarefaction. *)
Lemma Wave_edge_states_witness :
  exists w h',
    wave.Wave_init 1000 0 (VNum 0.5) 2 [cold_gas] = Ok (w, h') /\
    h' !! wave.w_q_r w = Some cold_gas /\
    exists sec, last (wave.w_wave_sections w) = Some sec /\
                wave.w_q_l w = wave.ws_q_end sec.
Proof.
  destruct (wave.Wave_init 1000 0 (VNum 0.5) 2 [cold_gas]) as [[w h']| |] eqn:E;
    [ | vm_compute in E; discriminate E .. ].
  exists w, h'. split; [ reflexivity | ].
  destruct (proj1 Wave_edge_states ideal_gas solvers 1000%nat [cold_gas] h' 0%nat
              (VNum 0.5) 2%Z w cold_gas E eq_refl) as (_ & _ & H2 & _).
  destruct (H2 eq_refl) as [Hr Hl]. split; [ exact Hr | ].
  destruct (last (wave.w_wave_sections w)) as [sec| ] eqn:El.
  - exists sec. split; [ reflexivity | exact Hl ].
  - vm_compute in E. injection E as <- <-. discriminate El.
Defined.

End C1_example.

(** ** The speed bracket *)

Lemma leb_not_ltb a b : (a <=? b) = true -> (b <? a) = false.
Proof.
  rewrite ltb_spec, leb_spec. unfold SFltb, SFleb.
  rewrite (SFcompare_antisym (Prim2SF a) (Prim2SF b)).
  destruct (SFcompare (Prim2SF a) (Prim2SF b)) as [[]|]; simpl; congruence.
Qed.

(** The nested loops visit the speeds of all sections in order. *)
Lemma speed_bounds_concat speeds :
  speed_bounds speeds = fold_left speed_step (concat speeds) (10, -10).
Proof.
  unfold speed_bounds. generalize (10, -10).
  induction speeds as [ | ss speeds IH ]; intros b; simpl; [ reflexivity | ].
  rewrite fold_left_app. apply IH.
Qed.

Lemma speed_step_bounds seen b x :
  bounds_of seen b ->
  (-10 <=? x) = true -> (x <=? 10) = true ->
  bounds_of (seen ++ [x]) (speed_step b x).
Proof.
  intros (Hlo & Hhi & Hall & Hin) Hx1 Hx2. destruct b as [lo hi]. simpl in *.
  pose proof (leb_nonnan_l _ _ Hx2) as Hx.
  assert (Hmin : (pymin x lo <=? x) = true /\ (pymin x lo <=? lo) = true /\
                 (pymin x lo =? pymin x lo) = true).
  { unfold pymin. destruct (lo <? x) eqn:E.
    - splits; [ by apply ltb_leb | by apply leb_refl | done ].
    - splits; [ by apply leb_refl | by apply leb_total | done ]. }
  assert (Hmax : (x <=? pymax x hi) = true /\ (hi <=? pymax x hi) = true /\
                 (pymax x hi =? pymax x hi) = true).
  { unfold pymax. destruct (x <? hi) eqn:E.
    - splits; [ by apply ltb_leb | by apply leb_refl | done ].
    - splits; [ by apply leb_refl | by apply leb_total | done ]. }
  destruct Hmin as (Hm1 & Hm2 & Hm3), Hmax as (HM1 & HM2 & HM3).
  unfold bounds_of; simpl. splits; try assumption.
  - intros y Hy. apply in_app_or in Hy as [Hy | [<- | []]].
    + destruct (Hall y Hy). split; eapply leb_trans; eauto.
    + split; assumption.
  - assert (pymin x lo = x \/ (seen <> [] /\ pymin x lo = lo)) as Hcase1.
    { unfold pymin. destruct (lo <? x) eqn:E; [ | by left ].
      right. split; [ | reflexivity ]. intros ->. injection Hin as -> ->.
      rewrite (leb_not_ltb _ _ Hx2) in E. discriminate. }
    assert (pymax x hi = x \/ (seen <> [] /\ pymax x hi = hi)) as Hcase2.
    { unfold pymax. destruct (x <? hi) eqn:E; [ | by left ].
      right. split; [ | reflexivity ]. intros ->. injection Hin as -> ->.
      rewrite (leb_not_ltb _ _ Hx1) in E. discriminate. }
    destruct (seen ++ [x]) eqn:Eapp; [ by destruct seen | ]. rewrite <- Eapp.
    split.
    + destruct Hcase1 as [-> | [Hne ->]]; apply in_or_app; [ right; by left | left ].
      destruct seen; [ done | apply Hin ].
    + destruct Hcase2 as [-> | [Hne ->]]; apply in_or_app; [ right; by left | left ].
      destruct seen; [ done | apply Hin ].
Qed.

Lemma fold_speed_step_bounds xs seen b :
  bounds_of seen b ->
  (forall x, In x xs -> (-10 <=? x) = true /\ (x <=? 10) = true) ->
  bounds_of (seen ++ xs) (fold_left speed_step xs b).
Proof.
  revert seen b. induction xs as [ | x xs IH ]; intros seen b Hb Hxs; simpl.
  - by rewrite app_nil_r.
  - replace (seen ++ x :: xs) with ((seen ++ [x]) ++ xs) by (by rewrite <- app_assoc).
    apply IH.
    + apply speed_step_bounds; [ done | apply Hxs; by left .. ].
    + intros y Hy. apply Hxs. by right.
Qed.

Lemma speed_bounds_spec speeds :
  (forall x, In x (concat speeds) -> (-10 <=? x) = true /\ (x <=? 10) = true) ->
  bounds_of (concat speeds) (speed_bounds speeds).
Proof.
  intros H. rewrite speed_bounds_concat.
  apply (fold_speed_step_bounds (concat speeds) [] (10, -10)); [ | exact H ].
  unfold bounds_of; simpl. splits; [ reflexivity | reflexivity | intros x [] | reflexivity ].
Qed.

Lemma all_trivial_forallb sections :
  swe_wave.all_trivial sections = forallb swe_wave.ws_trivial sections.
Proof.
  unfold swe_wave.all_trivial.
  assert (forall b, fold_left (fun t ws => if negb (swe_wave.ws_trivial ws) then false else t)
                      sections b = b && forallb swe_wave.ws_trivial sections) as H.
  { induction sections as [ | ws sections IH ]; intros b; simpl.
    - by rewrite andb_true_r.
    - rewrite IH. destruct (swe_wave.ws_trivial ws), b; reflexivity. }
  apply H.
Qed.

(** C8. A shallow-water wave is trivial exactly when every one of
    its sections is, and then its speed bracket is empty; otherwise the
    bracket is the one computed from the speeds of all sections. So is the
    bracket of a relativistic wave that has a section that is not trivial.
    (Of a relativistic wave whose sections are all trivial nothing is
    stated.) The bracket computed from speeds that lie between -10 and 10
    is [lo, hi], or [lo] alone when the two are close, where [lo] is below
    and [hi] above every speed, and both are speeds of the sections when
    there is one. (The base initialiser of the shallow-water wave is taken
    to leave both of its lists empty.) *)
Theorem Wave_speed_bracket :
  (forall (state_class : swe_wave.SWEStateClass) (scipy : SciPy)
          (wave_base : swe_wave.WaveBase)
          (h h' : list swe_wave.SWEState) (q_known : loc) (unknown_value : value)
          (wavenumber : Z) (w : swe_wave.SWEWave),
      swe_wave.SWEWave_init q_known unknown_value wavenumber h = Ok (w, h') ->
      swe_wave.Wave_base_init q_known unknown_value wavenumber = Ok ([], []) ->
      swe_wave.w_trivial w = forallb swe_wave.ws_trivial (swe_wave.w_wave_sections w) /\
      swe_wave.w_wavespeed w =
        if swe_wave.w_trivial w then []
        else speed_bracket [] (map swe_wave.ws_wavespeed (swe_wave.w_wave_sections w)))
  /\
  (forall (state_class : StateClass) (scipy : SciPy) (fuel : nat)
          (h h' : list State) (q_known : loc) (unknown_value : value) (wavenumber : Z)
          (w : wave.Wave),
      wave.Wave_init fuel q_known unknown_value wavenumber h = Ok (w, h') ->
      forallb wave.ws_trivial (wave.w_wave_sections w) = false ->
      wave.w_wavespeed w =
        speed_bracket [] (map wave.ws_wavespeed (wave.w_wave_sections w)))
  /\
  (forall speeds : list (list float),
      (forall x, In x (concat speeds) -> (-10 <=? x) = true /\ (x <=? 10) = true) ->
      let '(lo, hi) := speed_bounds speeds in
      speed_bracket [] speeds = (if allclose lo hi then [lo] else [lo; hi]) /\
      (forall x, In x (concat speeds) -> (lo <=? x) = true /\ (x <=? hi) = true) /\
      (concat speeds <> [] -> In lo (concat speeds) /\ In hi (concat speeds))).
Proof.
  splits.
  - intros sc sp wb h h' q_known uv wn w H Hbase.
    unfold swe_wave.SWEWave_init in H.
    apply bind_Ok in H as ([ss0 ws0] & h0 & Hb & H).
    apply lift_Ok in Hb as (? & Hb & [= <- <-]).
    rewrite Hbase in Hb. injection Hb as <- <-.
    apply bind_Ok in H as (waves & h1 & Hbuild & H).
    apply bind_Ok in H as ([q_l q_r] & h3 & Hedge & H).
    apply ret_Ok in H as [= -> ->]. cbn.
    split; [ apply all_trivial_forallb | reflexivity ].
  - intros sc sp fuel h h' q_known uv wn w H _.
    unfold wave.Wave_init in H.
    apply bind_Ok in H as (s0 & h0 & Hload & H).
    apply bind_Ok in H as (waves & h1 & Hbuild & H).
    apply bind_Ok in H as (sections & h2 & Hiter & H).
    apply bind_Ok in H as ([q_l q_r] & h3 & Hedge & H).
    apply ret_Ok in H as [= -> ->]. reflexivity.
  - intros speeds Hrange.
    pose proof (speed_bounds_spec speeds Hrange) as (_ & _ & Hall & Hin).
    unfold speed_bracket. destruct (speed_bounds speeds) as [lo hi]. simpl in *.
    splits.
    + destruct (allclose lo hi); reflexivity.
    + exact Hall.
    + intros Hne. destruct (concat speeds); [ done | exact Hin ].
Qed.

Section C8_example.
Import Example.

(** The wave of family 0 that takes still water of depth 1 to the depth
    0.5: one rarefaction, with a bracket of two speeds. The wave of family
    0 that takes the inert gas to the pressure 1: one shock. *)
Lemma Wave_speed_bracket_witness :
  (exists w h',
     swe_wave.SWEWave_init 0 (VNum 0.5) 0 [still_water] = Ok (w, h') /\
     swe_wave.w_trivial w = false /\
     swe_wave.w_wavespeed w =
       speed_bracket [] (map swe_wave.ws_wavespeed (swe_wave.w_wave_sections w)))
  /\
  (exists w h',
     wave.Wave_init 1000 0 (VNum 1) 0 [inert_gas] = Ok (w, h') /\
     wave.w_wavespeed w =
       speed_bracket [] (map wave.ws_wavespeed (wave.w_wave_sections w))).
Proof.
  split.
  2: { assert (match wave.Wave_init 1000 0 (VNum 1) 0 [inert_gas] with
               | Ok (w, _) => forallb wave.ws_trivial (wave.w_wave_sections w) = false
               | _ => False
               end) as Hf by (vm_compute; reflexivity).
       destruct (wave.Wave_init 1000 0 (VNum 1) 0 [inert_gas]) as [[w h']| |] eqn:E;
         [ | destruct Hf .. ].
       exists w, h'. split; [ reflexivity | ].
       exact (proj1 (proj2 Wave_speed_bracket) ideal_gas solvers 1000%nat [inert_gas] h'
                0%nat (VNum 1) 0%Z w E Hf). }
  assert (match swe_wave.SWEWave_init 0 (VNum 0.5) 0 [still_water] with
          | Ok (w, _) => swe_wave.w_trivial w = false
          | _ => False
          end) as Hf by (vm_compute; reflexivity).
  destruct (swe_wave.SWEWave_init 0 (VNum 0.5) 0 [still_water]) as [[w h']| |] eqn:E;
    [ | destruct Hf .. ].
  exists w, h'. split; [ reflexivity | ].
  destruct (proj1 Wave_speed_bracket shallow_water solvers empty_base
              [still_water] h' 0%nat (VNum 0.5) 0%Z w E eq_refl) as [Ht Hw].
  rewrite Hf in Hw. split; assumption.
Defined.

(** The shallow-water wave of family 2 from the fast water to the depth
    2 is one shock, and its speed is above 10: the bracket is not that
    speed alone, it starts at 10, which is the speed of no section. *)
Lemma bracket_starts_at_ten :
  exists w h' speed,
    swe_wave.SWEWave_init 0 (VNum 2) 2 [fast_water] = Ok (w, h') /\
    swe_wave.w_trivial w = false /\
    map swe_wave.ws_wavespeed (swe_wave.w_wave_sections w) = [[speed]] /\
    swe_wave.w_wavespeed w = [10; speed] /\
    (10 <? speed) = true.
Proof.
  eexists _, _, _. split; [ vm_compute; reflexivity | ].
  split; [ reflexivity | ]. split; [ reflexivity | ].
  split; [ reflexivity | vm_compute; reflexivity ].
Qed.

End C8_example.

(** ** Sections whose target is the start state's own coupling value *)

(** A construction whose target is the start state's own coupling value
    returns whenever the assertions of the constructor hold: no solver is
    entered. *)

Section Returns.
Context {state_class : StateClass} {scipy : SciPy}.
Import wave.

Lemma Shock_trivial_returns fuel h q_start s p_end wn :
  h !! q_start = Some s -> allclose (p_of s) p_end = true -> in_0_2 wn = true ->
  is_Ok (Shock fuel q_start p_end wn h) = true.
Proof.
  intros Hs Hc Hw. unfold Shock, State_new, bind, assert. rewrite Hw. cbn.
  rewrite (deepcopy_lookup _ _ _ Hs).
  rewrite (load_lookup _ _ _ (lookup_grown _ [s] _ _ Hs)). rewrite Hc. reflexivity.
Qed.

Lemma Rarefaction_trivial_returns h q_start s p_end wn :
  h !! q_start = Some s -> allclose (p_of s) p_end = true -> in_0_2 wn = true ->
  geb (p_of s) p_end = true ->
  is_Ok (Rarefaction q_start p_end wn h) = true.
Proof.
  intros Hs Hc Hw Hp. unfold geb in *. unfold Rarefaction, State_new, bind, assert. rewrite Hw. cbn.
  rewrite (load_lookup _ _ _ Hs), Hp. cbn.
  rewrite (deepcopy_lookup _ _ _ Hs). rewrite Hc. reflexivity.
Qed.

Lemma Deflagration_trivial_returns fuel h q_start s p_end wn eos_end t_i :
  h !! q_start = Some s -> allclose (p_of s) p_end = true -> in_0_2 wn = true ->
  eos_inert (eos s) = Some eos_end -> t_ignition (eos s) = Some t_i ->
  geb (t_from_rho_eps (eos s) (rho s) (eps s)) t_i = true ->
  geb (p_of s) p_end = true ->
  is_Ok (Deflagration fuel q_start p_end wn h) = true.
Proof.
  intros Hs Hc Hw He Ht Hg Hp. unfold geb in *. unfold Deflagration, State_new, bind, assert, eos_key.
  rewrite (load_lookup _ _ _ Hs), He, Ht. cbn. rewrite Hw, Hp, Hg. cbn.
  rewrite (deepcopy_lookup _ _ _ Hs). rewrite Hc. reflexivity.
Qed.

Lemma Detonation_trivial_returns fuel h q_start s p_end wn eos_end t_i :
  h !! q_start = Some s -> allclose (p_of s) p_end = true -> in_0_2 wn = true ->
  eos_inert (eos s) = Some eos_end -> t_ignition (eos s) = Some t_i ->
  geb (t_from_rho_eps (eos s) (rho s) (eps s)) t_i = true ->
  (p_of s <=? p_end) = true ->
  is_Ok (Detonation fuel q_start p_end wn h) = true.
Proof.
  intros Hs Hc Hw He Ht Hg Hp. unfold geb in *. unfold Detonation, State_new, bind, assert, eos_key.
  rewrite (load_lookup _ _ _ Hs), He, Ht. cbn. rewrite Hw, Hp, Hg. cbn.
  rewrite (deepcopy_lookup _ _ _ Hs). rewrite Hc. reflexivity.
Qed.
End Returns.

Section SWEReturns.
Context {state_class : swe_wave.SWEStateClass} {scipy : SciPy}.
Import swe_wave.

Lemma SWERarefaction_trivial_returns h q_start s phi_end wn :
  h !! q_start = Some s -> allclose (phi s) phi_end = true -> in_0_2 wn = true ->
  geb (phi s) phi_end = true ->
  is_Ok (SWERarefaction q_start phi_end wn h) = true.
Proof.
  intros Hs Hc Hw Hp. unfold geb in *. unfold SWERarefaction, SWEState_new, bind, assert. rewrite Hw. cbn.
  rewrite (load_lookup _ _ _ Hs), Hp. cbn.
  rewrite (deepcopy_lookup _ _ _ Hs). rewrite Hc. reflexivity.
Qed.

Lemma SWEShock_trivial_returns h q_start s phi_end wn :
  h !! q_start = Some s -> allclose (phi s) phi_end = true -> in_0_2 wn = true ->
  (phi s <=? phi_end) = true ->
  is_Ok (SWEShock q_start phi_end wn h) = true.
Proof.
  intros Hs Hc Hw Hp. unfold SWEShock, SWEState_new, bind, assert. rewrite Hw. cbn.
  rewrite (load_lookup _ _ _ Hs), Hp. cbn.
  rewrite (deepcopy_lookup _ _ _ Hs). rewrite Hc. reflexivity.
Qed.
End SWEReturns.

(** C4. A Rarefaction, Shock, Deflagration or Detonation
    constructed with a target within tolerance of the start state's
    coupling value is trivial, its end state has the primary variables of
    the start state, and every speed it reports is the start state's
    [wavespeed(wavenumber)]: a Shock of either family reports it once, a
    relativistic Rarefaction, Deflagration or Detonation twice. (Of the
    speeds of a shallow-water Rarefaction nothing is stated.) Such a
    construction returns whenever the assertions of its constructor hold,
    with any fuel. *)
Theorem trivial_sections :
  (forall (state_class : StateClass) (scipy : SciPy) (fuel : nat)
          (h h' : list State) (q_start : loc) (s : State) (p_end : float)
          (wavenumber : Z) (sec : wave.WaveSection),
      h !! q_start = Some s ->
      allclose (wave.p_of s) p_end = true ->
      let speed := wave.wavespeed_of s wavenumber in
      (wave.Rarefaction q_start p_end wavenumber h = Ok (sec, h') ->
         wave.ws_trivial sec = true /\ same_primary h' sec s /\
         wave.ws_wavespeed sec = [speed; speed]) /\
      (wave.Shock fuel q_start p_end wavenumber h = Ok (sec, h') ->
         wave.ws_trivial sec = true /\ same_primary h' sec s /\
         wave.ws_wavespeed sec = [speed]) /\
      (wave.Deflagration fuel q_start p_end wavenumber h = Ok (sec, h') ->
         wave.ws_trivial sec = true /\ same_primary h' sec s /\
         wave.ws_wavespeed sec = [speed; speed]) /\
      (wave.Detonation fuel q_start p_end wavenumber h = Ok (sec, h') ->
         wave.ws_trivial sec = true /\ same_primary h' sec s /\
         wave.ws_wavespeed sec = [speed; speed]) /\
      (wave.in_0_2 wavenumber = true ->
         is_Ok (wave.Shock fuel q_start p_end wavenumber h) = true /\
         (geb (wave.p_of s) p_end = true ->
            is_Ok (wave.Rarefaction q_start p_end wavenumber h) = true) /\
         (forall eos_end t_i,
            eos_inert (eos s) = Some eos_end -> t_ignition (eos s) = Some t_i ->
            geb (t_from_rho_eps (eos s) (rho s) (eps s)) t_i = true ->
            (geb (wave.p_of s) p_end = true ->
               is_Ok (wave.Deflagration fuel q_start p_end wavenumber h) = true) /\
            ((wave.p_of s <=? p_end) = true ->
               is_Ok (wave.Detonation fuel q_start p_end wavenumber h) = true))))
  /\
  (forall (state_class : swe_wave.SWEStateClass) (scipy : SciPy)
          (h h' : list swe_wave.SWEState) (q_start : loc) (s : swe_wave.SWEState)
          (phi_end : float) (wavenumber : Z) (sec : swe_wave.SWEWaveSection),
      h !! q_start = Some s ->
      allclose (swe_wave.phi s) phi_end = true ->
      (swe_wave.SWERarefaction q_start phi_end wavenumber h = Ok (sec, h') ->
         swe_wave.ws_trivial sec = true /\ swe_same_primary h' sec s) /\
      (swe_wave.SWEShock q_start phi_end wavenumber h = Ok (sec, h') ->
         swe_wave.ws_trivial sec = true /\ swe_same_primary h' sec s /\
         swe_wave.ws_wavespeed sec = [swe_wave.wavespeed_of s wavenumber]) /\
      (swe_wave.in_0_2 wavenumber = true ->
         (geb (swe_wave.phi s) phi_end = true ->
            is_Ok (swe_wave.SWERarefaction q_start phi_end wavenumber h) = true) /\
         ((swe_wave.phi s <=? phi_end) = true ->
            is_Ok (swe_wave.SWEShock q_start phi_end wavenumber h) = true))).
Proof.
  assert (Hrel : forall (sc : StateClass) type copies h q_start p_end wn sec h' s,
             acoustic_section type copies h q_start p_end wn sec h' ->
             h !! q_start = Some s -> allclose (wave.p_of s) p_end = true ->
             wave.ws_trivial sec = true /\ same_primary h' sec s /\
             wave.ws_wavespeed sec = repeat (wave.wavespeed_of s wn) copies).
  { intros sc type copies h q_start p_end wn sec h' s
           (s' & e & Hs' & _ & He & _ & _ & _ & _ & _ & Ht & Htriv) Hs Hclose.
    rewrite Hs in Hs'. injection Hs' as <-.
    destruct (Htriv Hclose) as (? & ? & ? & ? & ?).
    splits; [ congruence | exists e; splits; assumption | assumption ]. }
  assert (Hswe : forall (sc : swe_wave.SWEStateClass) type copies h q_start p_end wn sec h' s,
             swe_acoustic_section type copies h q_start p_end wn sec h' ->
             h !! q_start = Some s -> allclose (swe_wave.phi s) p_end = true ->
             swe_wave.ws_trivial sec = true /\ swe_same_primary h' sec s /\
             swe_wave.ws_wavespeed sec = repeat (swe_wave.wavespeed_of s wn) copies).
  { intros sc type copies h q_start p_end wn sec h' s
           (s' & e & Hs' & _ & He & _ & _ & _ & _ & _ & Ht & Htriv) Hs Hclose.
    rewrite Hs in Hs'. injection Hs' as <-.
    destruct (Htriv Hclose) as (? & ? & ?).
    splits; [ congruence | exists e; splits; assumption | assumption ]. }
  split.
  - intros sc sp fuel h h' q_start s p_end wn sec Hs Hclose speed. splits; intros H.
    + apply Rarefaction_inv in H as [H _]. exact (Hrel _ _ _ _ _ _ _ _ _ _ H Hs Hclose).
    + apply Shock_inv in H as [H _]. exact (Hrel _ _ _ _ _ _ _ _ _ _ H Hs Hclose).
    + apply Deflagration_inv in H. exact (Hrel _ _ _ _ _ _ _ _ _ _ H Hs Hclose).
    + apply Detonation_inv in H. exact (Hrel _ _ _ _ _ _ _ _ _ _ H Hs Hclose).
    + splits; eauto using Shock_trivial_returns, Rarefaction_trivial_returns.
      intros eos_end t_i He Ht Hg.
      split; eauto using Deflagration_trivial_returns, Detonation_trivial_returns.
  - intros sc sp h h' q_start s phi_end wn sec Hs Hclose. splits; intros H.
    + apply SWERarefaction_inv in H.
      destruct (Hswe _ _ _ _ _ _ _ _ _ _ H Hs Hclose) as (Ht & Hp & _).
      split; assumption.
    + apply SWEShock_inv in H. exact (Hswe _ _ _ _ _ _ _ _ _ _ H Hs Hclose).
    + split; eauto using SWERarefaction_trivial_returns, SWEShock_trivial_returns.
Qed.

Section C4_example.
Import Example.

(** A shock of the inert gas to its own pressure. *)
Lemma trivial_sections_witness :
  exists sec h',
    wave.Shock 0 0 (wave.p_of inert_gas) 0 [inert_gas] = Ok (sec, h') /\
    wave.ws_trivial sec = true /\ same_primary h' sec inert_gas /\
    wave.ws_wavespeed sec = [wave.wavespeed_of inert_gas 0].
Proof.
  destruct (wave.Shock 0 0 (wave.p_of inert_gas) 0 [inert_gas]) as [[sec h']| |] eqn:E;
    [ | vm_compute in E; discriminate E .. ].
  exists sec, h'. split; [ reflexivity | ].
  assert (allclose (wave.p_of inert_gas) (wave.p_of inert_gas) = true) as Hclose
    by (vm_compute; reflexivity).
  destruct (proj1 trivial_sections ideal_gas solvers 0%nat [inert_gas] h' 0%nat
              inert_gas (wave.p_of inert_gas) 0%Z sec eq_refl Hclose)
    as (_ & HS & _ & _).
  exact (HS E).
Defined.

(** A rarefaction of the inert gas to its own pressure is trivial and
    reports two speeds, not a single one. *)
Lemma trivial_rarefaction_speeds :
  exists sec h',
    wave.Rarefaction 0 (wave.p_of inert_gas) 0 [inert_gas] = Ok (sec, h') /\
    wave.ws_trivial sec = true /\
    wave.ws_wavespeed sec
      = [wave.wavespeed_of inert_gas 0; wave.wavespeed_of inert_gas 0].
Proof.
  eexists _, _. split; [ vm_compute; reflexivity | split; reflexivity ].
Qed.

End C4_example.

(** ** The bracket widening of [mass_flux_squared] *)

Section Widening.
Context {state_class : StateClass} {scipy : SciPy}.
Import wave.
Variables (f : float -> float) (shrink grow : float).

Lemma expand_S n mn mx :
  expand (S n) shrink grow mn mx =
  let '(a, b) := expand n shrink grow mn mx in (a / shrink, b * grow).
Proof.
  revert mn mx. induction n as [ | n IH ]; intros mn mx; [ reflexivity | ].
  change (expand (S (S n)) shrink grow mn mx)
    with (expand (S n) shrink grow (mn / shrink) (mx * grow)).
  rewrite IH. reflexivity.
Qed.

Lemma widen_bracket_returns n : forall fuel mn mx,
  (forall k, (k < n)%nat -> product_positive f (expand k shrink grow mn mx) = true) ->
  product_positive f (expand n shrink grow mn mx) = false ->
  (n <= fuel)%nat ->
  widen_bracket fuel f shrink grow mn mx (f mn) (f mx) = Ok (expand n shrink grow mn mx).
Proof.
  induction n as [ | n IH ]; intros fuel mn mx Hpos Hstop Hfuel.
  - unfold product_positive in Hstop. simpl in Hstop.
    destruct fuel; simpl; rewrite Hstop; reflexivity.
  - destruct fuel as [ | fuel ]; [ lia | ].
    pose proof (Hpos 0%nat ltac:(lia)) as H0. unfold product_positive in H0. simpl in H0.
    simpl. rewrite H0. apply IH; [ | exact Hstop | lia ].
    intros k Hk. apply (Hpos (S k)). lia.
Qed.

Lemma widen_bracket_diverges : forall fuel mn mx,
  (forall k, product_positive f (expand k shrink grow mn mx) = true) ->
  widen_bracket fuel f shrink grow mn mx (f mn) (f mx) = OutOfFuel.
Proof.
  induction fuel as [ | fuel IH ]; intros mn mx Hpos;
    pose proof (Hpos 0%nat) as H0; unfold product_positive in H0; simpl in H0;
    simpl; rewrite H0; [ reflexivity | ].
  apply IH. intros k. apply (Hpos (S k)).
Qed.

Lemma all_positive_spec n : forall mn mx,
  all_positive n f shrink grow mn mx = true ->
  forall k, (k < n)%nat -> product_positive f (expand k shrink grow mn mx) = true.
Proof.
  induction n as [ | n IH ]; intros mn mx H k Hk; [ lia | ].
  simpl in H. apply andb_true_iff in H as [H0 H].
  destruct k as [ | k ]; [ exact H0 | ]. simpl. apply IH; [ exact H | lia ].
Qed.

(** Once an expansion changes neither end of the bracket, none does. *)
Lemma expand_stuck n0 mn mx a b :
  expand n0 shrink grow mn mx = (a, b) ->
  a / shrink = a -> b * grow = b ->
  forall k, (n0 <= k)%nat -> expand k shrink grow mn mx = (a, b).
Proof.
  intros H0 Ha Hb k Hk. induction Hk as [ | k Hk IH ]; [ exact H0 | ].
  rewrite expand_S, IH, Ha, Hb. reflexivity.
Qed.

End Widening.

(** When the product of the residuals is positive at every bracket, the
    bracket search of a shock solve comes to no end, and neither does the
    mass flux that waits for it. *)
Lemma shock_bracket_diverges {state_class : StateClass} (q_start : State) (p_end : float)
    (unknown_eos : EOS) :
  (forall k, product_positive (wave.shock_root_rho q_start p_end unknown_eos)
               (if geb p_end (wave.p_of q_start)
                then expand k 1.1 10 (rho q_start)
                       (sqrt (p_end / wave.p_of q_start) * rho q_start)
                else expand k 10 1.1
                       (sqrt (p_end / wave.p_of q_start) * rho q_start) (rho q_start))
             = true) ->
  diverges (fun fuel => wave.shock_bracket fuel q_start p_end unknown_eos).
Proof.
  intros Hpos fuel. unfold wave.shock_bracket.
  destruct (geb p_end (wave.p_of q_start));
    apply widen_bracket_diverges; assumption.
Qed.

Lemma mass_flux_squared_diverges {state_class : StateClass} {scipy : SciPy}
    (q_start : State) (p_end : float) (unknown_eos : EOS) :
  diverges (fun fuel => wave.shock_bracket fuel q_start p_end unknown_eos) ->
  forall h, diverges (fun fuel =>
              wave.mass_flux_squared fuel q_start p_end (Some unknown_eos) h).
Proof.
  intros Hd h fuel. unfold wave.mass_flux_squared, bind, lift. rewrite (Hd fuel).
  reflexivity.
Qed.

(** C7. The bracket widening of the mass-flux computation has no
    bound on the number of expansions and no failure of its own. It hands
    the root finder the bracket reached after [n] expansions when [n] is
    the first count at which the product of the two residuals is not
    positive; when the product is positive after every expansion, neither
    the widening nor [mass_flux_squared] comes to an end. *)
Theorem bracket_widening_unbounded :
  forall (state_class : StateClass) (scipy : SciPy)
         (q_start : State) (p_end : float) (unknown_eos : EOS),
    let f := wave.shock_root_rho q_start p_end unknown_eos in
    let guess := sqrt (p_end / wave.p_of q_start) * rho q_start in
    let bracket n :=
      if geb p_end (wave.p_of q_start)
      then expand n 1.1 10 (rho q_start) guess
      else expand n 10 1.1 guess (rho q_start) in
    (forall n fuel,
        (forall k, (k < n)%nat -> product_positive f (bracket k) = true) ->
        product_positive f (bracket n) = false ->
        (n <= fuel)%nat ->
        wave.shock_bracket fuel q_start p_end unknown_eos = Ok (bracket n))
    /\
    ((forall k, product_positive f (bracket k) = true) ->
     diverges (fun fuel => wave.shock_bracket fuel q_start p_end unknown_eos) /\
     forall h, diverges (fun fuel =>
                 wave.mass_flux_squared fuel q_start p_end (Some unknown_eos) h)).
Proof.
  intros sc sp q_start p_end unknown_eos f guess bracket. subst bracket. cbv beta.
  split.
  - intros n fuel Hpos Hstop Hfuel. unfold wave.shock_bracket.
    destruct (geb p_end (wave.p_of q_start));
      apply widen_bracket_returns; assumption.
  - intros Hpos.
    assert (diverges (fun fuel => wave.shock_bracket fuel q_start p_end unknown_eos)) as Hd
      by (apply shock_bracket_diverges; exact Hpos).
    split; [ exact Hd | apply mass_flux_squared_diverges; exact Hd ].
Qed.

Section C7_example.
Import Example.
#[local] Set Warnings "-abstract-large-number".

(** For a shock of the inert gas to the pressure 1 the bracket changes
    sign after one expansion. *)
Lemma bracket_widening_unbounded_witness :
  wave.shock_bracket 5 inert_gas 1 eos_gamma_law
  = Ok (rho inert_gas / 1.1, sqrt (1 / wave.p_of inert_gas) * rho inert_gas * 10).
Proof.
  apply (proj1 (bracket_widening_unbounded ideal_gas solvers inert_gas 1 eos_gamma_law)
           1%nat 5%nat).
  - intros k Hk. replace k with 0%nat by lia. vm_compute. reflexivity.
  - vm_compute. reflexivity.
  - lia.
Defined.

(** The residual is negative at both ends of every bracket: the lower end
    shrinks until it is the least positive number and stays there, the
    upper end grows to infinity. *)
Lemma flat_bracket_never_changes_sign k :
  product_positive (wave.shock_root_rho flat_gas 1 eos_flat)
    (expand k 1.1 10 (rho flat_gas) (sqrt (1 / wave.p_of flat_gas) * rho flat_gas)) = true.
Proof.
  destruct (Nat.lt_ge_cases k 9000) as [Hk | Hk].
  - revert k Hk. apply all_positive_spec. vm_compute. reflexivity.
  - erewrite expand_stuck; [ | | | | exact Hk ]; [ | vm_compute; reflexivity .. ].
    vm_compute. reflexivity.
Qed.

(** A shock that is to take this gas to the pressure 1 is never
    constructed, and no error is raised either. *)
Lemma flat_shock_never_returns :
  diverges (fun fuel => wave.Shock fuel 0 1 0 [flat_gas]).
Proof.
  intros fuel.
  pose proof (mass_flux_squared_diverges flat_gas 1 eos_flat
                (shock_bracket_diverges flat_gas 1 eos_flat
                   flat_bracket_never_changes_sign)) as Hd.
  unfold wave.Shock, wave.solve_front, bind. cbn.
  specialize (Hd ([flat_gas] ++ [flat_gas]) fuel). cbn in Hd. rewrite Hd. reflexivity.
Qed.

End C7_example.

(** ** Chapman-Jouguet fronts *)

Section Unstable.
Context {state_class : StateClass} {scipy : SciPy}.
Import wave.

(** A Detonation whose first solution fails the stability check: the
    construction goes through the root search and ends in an error. *)
Lemma Detonation_unstable fuel h q_start s p_end wn eos_end t_i v_front q_unknown h1 u :
  h !! q_start = Some s ->
  eos_inert (eos s) = Some eos_end -> t_ignition (eos s) = Some t_i ->
  in_0_2 wn = true -> (p_of s <=? p_end) = true ->
  geb (t_from_rho_eps (eos s) (rho s) (eps s)) t_i = true ->
  allclose (p_of s) p_end = false ->
  solve_front fuel s p_end eos_end wn (star_label wn) (h ++ [s])
    = Ok ((v_front, q_unknown), h1) ->
  h1 !! q_unknown = Some u ->
  (Z2F (wn - 1) * (wavespeed_of u wn - v_front) <? 0) = true ->
  is_Ok (Detonation fuel q_start p_end wn h) = false /\
  (is_Ok (brentq (fun p_0_star =>
                    eval (deflagration_root fuel p_0_star q_start eos_end wn (LNum t_i)) h1)
                 ((1 + 1e-9) * p_end) ((1 - 1e-9) * p_of s)) = true ->
   Detonation fuel q_start p_end wn h
   = Raise (AttributeError "'Detonation' object has no attribute 'mass_flux_squared'")).
Proof.
  intros Hs He Ht Hw Hp Hg Hc Hsolve Hu Hcheck. unfold geb in *.
  unfold Detonation, bind, assert, eos_key.
  rewrite (load_lookup _ _ _ Hs), He, Ht. cbn. rewrite Hw, Hp, Hg. cbn.
  rewrite (deepcopy_lookup _ _ _ Hs). rewrite Hc.
  rewrite Hsolve. rewrite (load_lookup _ _ _ Hu). rewrite Hcheck.
  unfold with_store, lift.
  destruct (brentq _ _ _); cbn; split; try reflexivity; discriminate.
Qed.

End Unstable.

(** C3. The Chapman-Jouguet correction of a Detonation. A Detonation is
    returned only if it is trivial or the end state of the first solution of
    the jump conditions passes the stability check
    [lr_sign * (q_end.wavespeed(wavenumber) - v_front) >= 0] as it is, and
    it never carries the Chapman-Jouguet name. When the check fails, no
    Detonation is returned: once the root search has given its pressure the
    construction raises an [AttributeError], and no end state is rebuilt. *)
Theorem Detonation_without_CJ_correction :
  (forall (state_class : StateClass) (scipy : SciPy) (fuel : nat)
          (h h' : list State) (q_start : loc) (p_end : float) (wavenumber : Z)
          (sec : wave.WaveSection),
      wave.Detonation fuel q_start p_end wavenumber h = Ok (sec, h') ->
      wave.ws_name sec = wave.arrow_name "{\cal SDT}" wavenumber /\
      (wave.ws_trivial sec = false ->
       exists s eos_end v_front q_unknown h1 u,
         h !! q_start = Some s /\
         eos_inert (eos s) = Some eos_end /\
         wave.solve_front fuel s p_end eos_end wavenumber (wave.star_label wavenumber)
                          (h ++ [s]) = Ok ((v_front, q_unknown), h1) /\
         h1 !! q_unknown = Some u /\
         (Z2F (wavenumber - 1) * (wave.wavespeed_of u wavenumber - v_front) <? 0) = false /\
         wave.ws_wavespeed sec = [v_front; v_front] /\
         h' !! wave.ws_q_end sec = Some u))
  /\
  (forall (state_class : StateClass) (scipy : SciPy) (fuel : nat)
          (h : list State) (q_start : loc) (s : State) (p_end : float) (wavenumber : Z)
          (eos_end : EOS) (t_i v_front : float) (q_unknown : loc) (h1 : list State)
          (u : State),
      h !! q_start = Some s ->
      eos_inert (eos s) = Some eos_end -> t_ignition (eos s) = Some t_i ->
      wave.in_0_2 wavenumber = true -> (wave.p_of s <=? p_end) = true ->
      geb (t_from_rho_eps (eos s) (rho s) (eps s)) t_i = true ->
      allclose (wave.p_of s) p_end = false ->
      wave.solve_front fuel s p_end eos_end wavenumber (wave.star_label wavenumber)
                       (h ++ [s]) = Ok ((v_front, q_unknown), h1) ->
      h1 !! q_unknown = Some u ->
      (Z2F (wavenumber - 1) * (wave.wavespeed_of u wavenumber - v_front) <? 0) = true ->
      is_Ok (wave.Detonation fuel q_start p_end wavenumber h) = false /\
      (is_Ok (brentq (fun p_0_star =>
                        eval (wave.deflagration_root fuel p_0_star q_start eos_end
                                                     wavenumber (LNum t_i)) h1)
                     ((1 + 1e-9) * p_end) ((1 - 1e-9) * wave.p_of s)) = true ->
       wave.Detonation fuel q_start p_end wavenumber h
       = Raise (AttributeError "'Detonation' object has no attribute 'mass_flux_squared'"))).
Proof.
  split.
  - intros sc sp fuel h h' q_start p_end wn sec H.
    unfold wave.Detonation, wave.State_new, wave.eos_key in H. monad_inv H; store_simpl.
    + split; [ reflexivity | discriminate ].
    + split; [ reflexivity | intros _ ].
      match goal with
      | Hs : wave.solve_front _ _ _ _ _ _ _ = Ok _ |- _ =>
          pose proof Hs as Hsolve;
          apply solve_front_inv in Hs as (u & -> & -> & Heos & Hlbl)
      end.
      store_simpl.
      eexists _, _, _, _, _, _. splits; try eassumption; try reflexivity.
      * solve_lookup.
      * cbn. solve_lookup.
  - intros sc sp fuel h q_start s p_end wn eos_end t_i v_front q_unknown h1 u.
    apply Detonation_unstable.
Qed.

Section C3_example.
Import Example.

(** A detonation of the hot gas to the pressure 1 fails the stability
    check, and no Detonation is returned. *)
Lemma Detonation_without_CJ_correction_witness :
  is_Ok (wave.Detonation 1000 0 1 2 [hot_gas]) = false.
Proof.
  destruct (wave.solve_front 1000 hot_gas 1 eos_gamma_law 2 (wave.star_label 2)
              ([hot_gas] ++ [hot_gas])) as [[[vf qu] h1]| |] eqn:E;
    [ | vm_compute in E; discriminate E .. ].
  destruct (h1 !! qu) as [u| ] eqn:Eu;
    [ | vm_compute in E; injection E as <- <- <-; discriminate Eu ].
  refine (proj1 (proj2 Detonation_without_CJ_correction ideal_gas solvers 1000%nat
                   [hot_gas] 0%nat hot_gas 1 2%Z eos_gamma_law 0.5
                   vf qu h1 u eq_refl eq_refl eq_refl eq_refl _ _ _ E Eu _)).
  1-3: vm_compute; reflexivity.
  vm_compute in E. injection E as <- <- <-. vm_compute in Eu. injection Eu as <-.
  vm_compute. reflexivity.
Defined.

(** A detonation of the same gas to the pressure 2 is strong, and it is
    returned. *)
Lemma strong_Detonation_returned :
  exists sec h',
    wave.Detonation 1000 0 2 2 [hot_gas] = Ok (sec, h') /\
    wave.ws_name sec = "{\cal SDT}_{\rightarrow}"%string.
Proof. eexists _, _. split; [ vm_compute; reflexivity | reflexivity ]. Qed.

End C3_example.

(** ** The reactive strategy below the ignition temperature *)

Section Precursor.
Context {state_class : StateClass} {scipy : SciPy}.
Import wave.

Lemma trailing_rarefaction_inv front p wn h rest h' :
  trailing_rarefaction front p wn h = Ok (rest, h') ->
  rest = [] \/ exists R, rest = [R] /\ ws_type R = "Rarefaction"%string.
Proof.
  intros H. unfold trailing_rarefaction in H. monad_inv H.
  - right. eexists. split; [ reflexivity | ].
    match goal with
    | HR : Rarefaction _ _ _ _ = Ok _ |- _ =>
        apply Rarefaction_inv in HR as [(? & ? & ? & ? & ? & ? & ? & Ht & _) _]; exact Ht
    end.
  - by left.
Qed.

(** The residual [precursor_root] at a pressure for which the shock is
    constructed. *)
Lemma precursor_root_value fuel p_0_star q_known t_i wn h S h1 e :
  Shock fuel q_known p_0_star wn h = Ok (S, h1) ->
  h1 !! ws_q_end S = Some e ->
  eval (precursor_root fuel p_0_star q_known t_i wn) h
  = Ok (t_from_rho_eps (eos e) (rho e) (eps e) - t_i).
Proof.
  intros HS He. unfold eval, precursor_root, bind. rewrite HS.
  rewrite (load_lookup _ _ _ He). reflexivity.
Qed.

(** The path of [build_reactive_wave_section] through the precursor
    shock. *)
Lemma build_reactive_precursor fuel q_known p_star wn h r h' s t_i :
  build_reactive_wave_section fuel q_known (VNum p_star) wn h = Ok (r, h') ->
  h !! q_known = Some s ->
  t_ignition (eos s) = Some t_i ->
  wn <> 1%Z ->
  (p_of s <? p_star) = false ->
  (t_from_rho_eps (eos s) (rho s) (eps s) <? t_i) = true ->
  exists p_max p_0_star S h1 e D h2 rest,
    (p_max = p_of s \/ p_max = p_of s * 2) /\
    brentq (fun p => eval (precursor_root fuel p q_known t_i wn) h) p_star p_max
      = Ok p_0_star /\
    Shock fuel q_known p_0_star wn h = Ok (S, h1) /\
    h1 !! ws_q_end S = Some e /\
    Deflagration fuel (ws_q_end S) p_star wn (<[ws_q_end S := set_q (q s) e]> h1)
      = Ok (D, h2) /\
    trailing_rarefaction D p_star wn h2 = Ok (rest, h') /\
    r = PyList ([S] ++ [D] ++ rest).
Proof.
  intros H Hs Hti Hwn Hp Ht.
  unfold build_reactive_wave_section, eos_key in H.
  apply bind_Ok in H as (s0 & h0 & Hload & H).
  apply load_Ok in Hload as (? & Hs0 & [= <- <-]).
  rewrite Hs in Hs0. injection Hs0 as <-.
  rewrite Hti in H. apply bind_Ok in H as (t & h00 & Hret & H).
  apply ret_Ok in Hret as [= <- <-].
  destruct (wn =? 1)%Z eqn:E1; [ apply Z.eqb_eq in E1; contradiction | ].
  rewrite Hp, Ht in H.
  monad_inv H.
  all: eexists _, _, _, _, _, _, _, _; splits;
    [ | eassumption | eassumption | eassumption | eassumption | eassumption | reflexivity ];
    auto.
Qed.

End Precursor.

(** C2. The reactive wave of an acoustic family whose target pressure is
    below the known state's, from a known state below the ignition
    temperature. The first section is a Shock of the known state to the
    pressure [brentq] finds for the residual "post-shock temperature minus
    ignition temperature" on the bracket from the target pressure to the
    known pressure (or twice the known pressure); the end state of that
    Shock, with [q] set to the known state's, is the start state of the
    Deflagration that follows; and the sections are the Shock and the
    Deflagration, or these two and a Rarefaction. *)
Theorem reactive_precursor_wave :
  forall (state_class : StateClass) (scipy : SciPy) (fuel : nat)
         (h h' : list State) (q_known : loc) (p_star : float) (wavenumber : Z)
         (w : wave.Wave) (s : State) (t_i : float),
    wave.Wave_init fuel q_known (VNum p_star) wavenumber h = Ok (w, h') ->
    h !! q_known = Some s ->
    q_available (eos s) = true ->
    t_ignition (eos s) = Some t_i ->
    wavenumber = 0%Z \/ wavenumber = 2%Z ->
    (p_star <? wave.p_of s) = true ->
    (t_from_rho_eps (eos s) (rho s) (eps s) <? t_i) = true ->
    exists (p_max p_0_star : float) (S : wave.WaveSection) (h1 : list State)
           (e : State) (D : wave.WaveSection),
      (p_max = wave.p_of s \/ p_max = wave.p_of s * 2) /\
      brentq (fun p => eval (wave.precursor_root fuel p q_known t_i wavenumber) h)
             p_star p_max = Ok p_0_star /\
      wave.Shock fuel q_known p_0_star wavenumber h = Ok (S, h1) /\
      wave.ws_type S = "Shock"%string /\
      h1 !! wave.ws_q_end S = Some e /\
      eval (wave.precursor_root fuel p_0_star q_known t_i wavenumber) h
        = Ok (t_from_rho_eps (eos e) (rho e) (eps e) - t_i) /\
      h' !! wave.ws_q_end S = Some (set_q (q s) e) /\
      wave.ws_type D = "Deflagration"%string /\
      h' !! wave.ws_q_start D = Some (set_q (q s) e) /\
      (wave.w_wave_sections w = [S; D] \/
       exists R, wave.ws_type R = "Rarefaction"%string /\
                 wave.w_wave_sections w = [S; D; R]).
Proof.
  intros sc sp fuel h h' q_known p_star wn w s t_i H Hs Hq Hti Hwn Hlt Ht.
  unfold wave.Wave_init in H.
  apply bind_Ok in H as (s0 & h0 & Hload & H).
  apply load_Ok in Hload as (? & Hs0 & [= <- <-]).
  rewrite Hs in Hs0. injection Hs0 as <-.
  rewrite Hq in H. cbn [negb] in H.
  apply bind_Ok in H as (waves & h3 & Hbuild & H).
  apply (build_reactive_precursor _ _ _ _ _ _ _ _ _ Hbuild Hs Hti) in Ht
    as (p_max & p_0_star & S & h1 & e & D & h2 & rest
        & Hmax & Hbrent & HS & He & HD & Hrest & ->);
    [ | destruct Hwn as [-> | ->]; discriminate | by apply ltb_asym ].
  apply bind_Ok in H as (sections & h4 & Hiter & H).
  apply ret_Ok in Hiter as [= -> ->].
  apply bind_Ok in H as ([q_l q_r] & h5 & Hedge & H).
  apply ret_Ok in H as [= -> ->]. cbn [wave.w_wave_sections].
  pose proof (alloc_only_Deflagration _ _ _ _ _ _ _ HD) as P1.
  pose proof (alloc_only_trailing_rarefaction _ _ _ _ _ _ Hrest) as P2.
  pose proof (alloc_only_edge_states _ _ _ _ _ _ Hedge) as P3.
  assert (forall l o, (<[wave.ws_q_end S := set_q (q s) e]> h1) !! l = Some o ->
                      h5 !! l = Some o) as Hkeep.
  { intros l o Hl. eapply prefix_lookup_Some; [ | exact P3 ].
    eapply prefix_lookup_Some; [ | exact P2 ].
    eapply prefix_lookup_Some; [ exact Hl | exact P1 ]. }
  assert ((<[wave.ws_q_end S := set_q (q s) e]> h1) !! wave.ws_q_end S
          = Some (set_q (q s) e)) as He'.
  { apply list_lookup_insert_eq. by eapply lookup_lt_Some. }
  pose proof (Shock_inv _ _ _ _ _ _ _ HS) as [(? & ? & _ & _ & _ & _ & _ & HtS & _) _].
  pose proof (Deflagration_inv _ _ _ _ _ _ _ HD)
    as (sD & eD & HsD & HstartD & _ & _ & _ & HtD & _).
  rewrite He' in HsD. injection HsD as <-.
  exists p_max, p_0_star, S, h1, e, D.
  splits; try assumption.
  - eapply precursor_root_value; eassumption.
  - apply Hkeep, He'.
  - eapply prefix_lookup_Some; [ | exact P3 ].
    eapply prefix_lookup_Some; [ exact HstartD | exact P2 ].
  - apply trailing_rarefaction_inv in Hrest as [-> | (R & -> & HR)];
      [ by left | right; exists R; by split ].
Qed.

Section C2_example.
Import Example.

(** The wave of family 2 that takes the cold reactive gas to the pressure
    0.5. *)
Lemma reactive_precursor_wave_witness :
  exists w h' S D R,
    wave.Wave_init 1000 0 (VNum 0.5) 2 [cold_gas] = Ok (w, h') /\
    wave.w_wave_sections w = [S; D; R] /\
    wave.ws_type S = "Shock"%string /\
    wave.ws_type D = "Deflagration"%string /\
    wave.ws_type R = "Rarefaction"%string /\
    h' !! wave.ws_q_start D = h' !! wave.ws_q_end S.
Proof.
  destruct (wave.Wave_init 1000 0 (VNum 0.5) 2 [cold_gas]) as [[w h']| |] eqn:E;
    [ | vm_compute in E; discriminate E .. ].
  assert ((0.5 <? wave.p_of cold_gas) = true) as Hlt by (vm_compute; reflexivity).
  assert ((t_from_rho_eps (eos cold_gas) (rho cold_gas) (eps cold_gas) <? 1) = true)
    as Ht by (vm_compute; reflexivity).
  destruct (reactive_precursor_wave ideal_gas solvers 1000%nat [cold_gas] h' 0%nat
              0.5 2%Z w cold_gas 1 E eq_refl eq_refl eq_refl (or_intror eq_refl) Hlt Ht)
    as (p_max & p_0_star & S & h1 & e & D & _ & _ & _ & HtS & _ & _ & HS & HtD & HD & Hw).
  destruct Hw as [Hw | (R & HtR & Hw)].
  - vm_compute in E. injection E as <- <-. discriminate Hw.
  - exists w, h', S, D, R. splits; try assumption; try reflexivity. congruence.
Defined.

End C2_example.

(** ** What a construction writes *)



Section Writes.
Context {state_class : StateClass} {scipy : SciPy}.
Import wave.




End Writes.


Section C9_example.
Import Example.



End C9_example.

(* ================================================================= *)
(** ** The anatomy of the sections

    What each constructor leaves in the store, object by object. *)

(** ** The anatomy of the sections *)

Section Anatomy.
Context {state_class : StateClass} {scipy : SciPy}.
Import wave.

(** The solution of the jump conditions does not look at the store, and
    the label it is given ends up in the new State only. *)
Lemma solve_front_relabel fuel s p_end e wn lbl h v_front q_unknown h' lbl' h0 :
  solve_front fuel s p_end e wn lbl h = Ok ((v_front, q_unknown), h') ->
  exists u u',
    h' = h ++ [u] /\ q_unknown = length h /\
    solve_front fuel s p_end e wn lbl' h0 = Ok ((v_front, length h0), h0 ++ [u']) /\
    rho u' = rho u /\ v u' = v u /\ vt u' = vt u /\ eps u' = eps u /\ eos u' = eos u /\
    eos u = e /\ label u = lbl.
Proof.
  unfold solve_front, mass_flux_squared, State_new, bind, lift, alloc, ret.
  destruct (shock_bracket _ _ _ _) as [[mn mx]| |]; try discriminate.
  destruct (brentq _ _ _) as [r| |]; try discriminate.
  intros [= <- <- <-]. eexists _, _. splits; reflexivity.
Qed.

Lemma Contact_anatomy q_start q_end wn h sec h' :
  Contact q_start q_end wn h = Ok (sec, h') ->
  exists l s e,
    wn = 1%Z /\ q_end = VState l /\
    h !! q_start = Some s /\ (h ++ [s]) !! l = Some e /\ h' = h ++ [s; e] /\
    ws_q_start sec = length h /\ ws_q_end sec = S (length h) /\
    ws_type sec = "Contact"%string /\ ws_wavenumber sec = 1%Z /\
    ws_name sec = "{\cal C}"%string /\ ws_wavespeed sec = [v s] /\
    allclose (v s) (v e) = true /\ allclose (p_of s) (p_of e) = true.
Proof.
  intros H. unfold Contact in H. monad_inv H; store_simpl.
  eexists _, _, _. rewrite <- app_assoc. cbn.
  match goal with Hw : (_ =? 1)%Z = true |- _ => apply Z.eqb_eq in Hw as -> end.
  splits; try reflexivity; try eassumption; try solve_length.
Qed.

Lemma Rarefaction_anatomy q_start p_end wn h sec h' :
  Rarefaction q_start p_end wn h = Ok (sec, h') ->
  exists s e,
    h !! q_start = Some s /\ h' = h ++ [s; e] /\
    ws_q_start sec = length h /\ ws_q_end sec = S (length h) /\
    eos e = eos s /\ label e = star_label wn /\
    ws_name sec = arrow_name "{\cal R}" wn /\
    ws_wavespeed sec =
      (let v_unknown := if allclose (p_of s) p_end then wavespeed_of s wn
                        else wavespeed_of e wn in
       if (wn =? 0)%Z then [wavespeed_of s wn; v_unknown]
       else [v_unknown; wavespeed_of s wn]).
Proof.
  intros H. unfold Rarefaction, State_new in H. monad_inv H; store_simpl.
  all: eexists _, _; rewrite <- app_assoc; cbn.
  all: splits; try reflexivity; try eassumption; try solve_length.
  all: match goal with Hc : allclose _ _ = _ |- _ => rewrite Hc end; reflexivity.
Qed.

Lemma Shock_anatomy fuel q_start p_end wn h sec h' :
  Shock fuel q_start p_end wn h = Ok (sec, h') ->
  exists s e v_shock,
    h !! q_start = Some s /\ h' = h ++ [s; e] /\
    ws_q_start sec = length h /\ ws_q_end sec = S (length h) /\
    eos e = eos s /\ label e = star_label wn /\
    ws_name sec = arrow_name "{\cal S}" wn /\
    ws_wavespeed sec = [v_shock] /\
    if allclose (p_of s) p_end then v_shock = wavespeed_of s wn
    else solve_front fuel s p_end (eos s) wn (star_label wn) (h ++ [s])
         = Ok ((v_shock, S (length h)), h').
Proof.
  intros H. unfold Shock, State_new in H. monad_inv H; store_simpl.
  - eexists _, _, _; rewrite <- app_assoc; cbn.
    splits; try reflexivity; try eassumption; try solve_length.
    match goal with Hc : allclose _ _ = _ |- _ => rewrite Hc end; reflexivity.
  - match goal with
    | Hs : solve_front _ _ _ _ _ _ _ = Ok _ |- _ =>
        pose proof Hs as Hsolve;
        apply solve_front_inv in Hs as (u & -> & -> & Heos & Hlbl)
    end.
    eexists _, _, _; rewrite <- app_assoc; cbn.
    splits; try reflexivity; try eassumption; try solve_length.
    match goal with Hc : allclose _ _ = _ |- _ => rewrite Hc end.
    rewrite <- app_assoc, length_app, Nat.add_1_r in Hsolve. exact Hsolve.
Qed.

(** The residual of the Chapman-Jouguet search at a pressure for which the
    jump conditions are solved. *)
Lemma deflagration_root_value fuel p q_precursor s e wn lbl lbl' st h v_front q_unknown u :
  st !! q_precursor = Some s ->
  solve_front fuel s p e wn lbl h = Ok ((v_front, q_unknown), h ++ [u]) ->
  eval (deflagration_root fuel p q_precursor e wn lbl') st
  = Ok (wavespeed_of u wn - v_front).
Proof.
  intros Hs Hsolve.
  destruct (solve_front_relabel _ _ _ _ _ _ _ _ _ _ lbl' st Hsolve)
    as (u0 & u' & Hh & _ & Hsolve' & Hr & Hv & Hvt & He & Heos & _).
  apply app_inj_tail in Hh as [_ <-].
  unfold eval, deflagration_root, bind. rewrite (load_lookup _ _ _ Hs), Hsolve'.
  rewrite (load_lookup _ _ _ (lookup_new st u' [])). unfold ret, wavespeed_of.
  rewrite Hr, Hv, Hvt, He, Heos. reflexivity.
Qed.

Lemma Deflagration_anatomy fuel q_start p_end wn h sec h' :
  Deflagration fuel q_start p_end wn h = Ok (sec, h') ->
  exists s eos_end t_i e v_front,
    h !! q_start = Some s /\
    eos_inert (eos s) = Some eos_end /\ t_ignition (eos s) = Some t_i /\
    ws_q_start sec = length h /\ S (ws_q_end sec) = length h' /\
    h' !! ws_q_end sec = Some e /\
    eos e = eos_end /\ label e = star_label wn /\
    ws_wavespeed sec = [v_front; v_front] /\
    if allclose (p_of s) p_end then
      h' = h ++ [s; e] /\ v_front = wavespeed_of s wn /\
      ws_name sec = arrow_name "{\cal WDF}" wn
    else
      exists v1 u1,
        solve_front fuel s p_end eos_end wn (star_label wn) (h ++ [s])
        = Ok ((v1, S (length h)), h ++ [s; u1]) /\
        if Z2F (wn - 1) * (wavespeed_of u1 wn - v1) <? 0 then
          exists p_cjdf,
            brentq (fun p_0_star =>
                      eval (deflagration_root fuel p_0_star q_start eos_end wn (LNum t_i))
                           (h ++ [s; u1]))
                   ((1 + 1e-9) * p_end) ((1 - 1e-9) * p_of s) = Ok p_cjdf /\
            solve_front fuel s p_cjdf eos_end wn (star_label wn) (h ++ [s; u1])
            = Ok ((v_front, S (S (length h))), h ++ [s; u1; e]) /\
            h' = h ++ [s; u1; e; e] /\
            ws_name sec = arrow_name "{\cal CJDF}" wn
        else
          v_front = v1 /\ e = u1 /\ h' = h ++ [s; u1; u1] /\
          ws_name sec = arrow_name "{\cal WDF}" wn.
Proof.
  intros H. unfold Deflagration, State_new, eos_key in H. monad_inv H; store_simpl.
  all: repeat match goal with
       | Hs : solve_front _ _ _ _ _ _ _ = Ok _ |- _ =>
           let Hk := fresh "Hsolve" in
           pose proof Hs as Hk;
           apply solve_front_inv in Hs as (? & -> & -> & ? & ?);
           revert Hk
       end.
  all: intros; store_simpl.
  all: eexists _, _, _, _, _; cbn [ws_q_start ws_q_end ws_wavespeed ws_name].
  all: rewrite <- ?app_assoc; cbn [app].
  all: splits; try eassumption; try reflexivity; try solve_length; try solve_lookup.
  all: repeat match goal with Hc : allclose _ _ = _ |- _ => rewrite Hc; clear Hc end.
  all: try (cbn; splits; reflexivity).
  all: repeat match goal with
       | Hs : solve_front _ _ _ _ _ _ _ = Ok _ |- _ =>
           rewrite ?length_app in Hs; cbn [length] in Hs; rewrite ?Nat.add_1_r in Hs;
           rewrite <- ?app_assoc in Hs; cbn [app] in Hs; revert Hs
       | Hb : brentq _ _ _ = Ok _ |- _ =>
           rewrite <- ?app_assoc in Hb; cbn [app] in Hb; revert Hb
       end.
  all: intros.
  all: eexists _, _; (split; [ eassumption | ]).
  all: match goal with Hc : (_ <? 0) = _ |- _ => rewrite Hc end.
  - eexists. splits; try eassumption; reflexivity.
  - splits; reflexivity.
Qed.
Lemma Detonation_anatomy fuel q_start p_end wn h sec h' :
  Detonation fuel q_start p_end wn h = Ok (sec, h') ->
  exists s eos_end t_i e v_front,
    h !! q_start = Some s /\
    eos_inert (eos s) = Some eos_end /\ t_ignition (eos s) = Some t_i /\
    ws_q_start sec = length h /\ S (ws_q_end sec) = length h' /\
    h' !! ws_q_end sec = Some e /\
    eos e = eos_end /\ label e = star_label wn /\
    ws_wavespeed sec = [v_front; v_front] /\
    ws_name sec = arrow_name "{\cal SDT}" wn /\
    if allclose (p_of s) p_end then
      h' = h ++ [s; e] /\ v_front = wavespeed_of s wn
    else
      solve_front fuel s p_end eos_end wn (star_label wn) (h ++ [s])
      = Ok ((v_front, S (length h)), h ++ [s; e]) /\
      h' = h ++ [s; e; e].
Proof.
  intros H. unfold Detonation, State_new, eos_key in H. monad_inv H; store_simpl.
  all: repeat match goal with
       | Hs : solve_front _ _ _ _ _ _ _ = Ok _ |- _ =>
           let Hk := fresh "Hsolve" in
           pose proof Hs as Hk;
           apply solve_front_inv in Hs as (? & -> & -> & ? & ?);
           revert Hk
       end.
  all: intros; store_simpl.
  all: eexists _, _, _, _, _; cbn [ws_q_start ws_q_end ws_wavespeed ws_name].
  all: rewrite <- ?app_assoc; cbn [app].
  all: splits; try eassumption; try reflexivity; try solve_length; try solve_lookup.
  all: repeat match goal with Hc : allclose _ _ = _ |- _ => rewrite Hc; clear Hc end.
  all: try (cbn; splits; reflexivity).
  match goal with
  | Hs : solve_front _ _ _ _ _ _ _ = Ok _ |- _ =>
      rewrite ?length_app in Hs; cbn [length] in Hs; rewrite ?Nat.add_1_r in Hs;
      rewrite <- ?app_assoc in Hs; cbn [app] in Hs
  end.
  split; [ eassumption | reflexivity ].
Qed.

End Anatomy.

Section SWEAnatomy.
Context {state_class : swe_wave.SWEStateClass} {scipy : SciPy}.
Import swe_wave.

Lemma SWEShock_run q_start phi_end wn h s :
  h !! q_start = Some s -> in_0_2 wn = true -> (phi s <=? phi_end) = true ->
  SWEShock q_start phi_end wn h =
    Ok (if allclose (phi s) phi_end
        then mkSWEWaveSection true "Shock" wn (length h) (S (length h)) ""
               [wavespeed_of s wn]
        else mkSWEWaveSection false "Shock" wn (length h) (S (length h))
               (arrow_name "{\cal S}" wn) [fst (analytic_shock s phi_end (wn - 1))],
        h ++ [s; if allclose (phi s) phi_end
                 then mkSWEState (phi s) (v s) (star_label wn)
                 else mkSWEState phi_end (snd (analytic_shock s phi_end (wn - 1)))
                        (star_label wn)]).
Proof.
  intros Hs Hw Hle. unfold SWEShock, SWEState_new, bind, assert. rewrite Hw. cbn.
  rewrite (load_lookup _ _ _ Hs), Hle. cbn.
  rewrite (deepcopy_lookup _ _ _ Hs).
  destruct (allclose (phi s) phi_end).
  - unfold alloc, ret. rewrite length_app, Nat.add_1_r, <- app_assoc. reflexivity.
  - destruct (analytic_shock s phi_end (wn - 1)) as [V_s v_star].
    unfold alloc, ret. rewrite length_app, Nat.add_1_r, <- app_assoc. reflexivity.
Qed.

Lemma linspace_length a b n : (2 <= n)%nat -> length (linspace a b n) = n.
Proof.
  intros Hn. unfold linspace. rewrite length_app, length_map, length_seq. simpl. lia.
Qed.

Lemma SWERarefaction_anatomy q_start phi_end wn h sec h' :
  SWERarefaction q_start phi_end wn h = Ok (sec, h') ->
  exists s e,
    h !! q_start = Some s /\ h' = h ++ [s; e] /\
    ws_q_start sec = length h /\ ws_q_end sec = S (length h) /\
    label e = star_label wn /\
    if allclose (phi s) phi_end then
      phi e = phi s /\ v e = v s /\ ws_name sec = ""%string /\ ws_wavespeed sec = []
    else
      phi e = phi_end /\
      (exists rows,
         odeint (fun y t => Ok (map (fun v => raref (wn - 1) v t) y))
                [v s] (linspace (phi s) phi_end 50) None None = Ok rows /\
         last (concat rows) = Some (v e)) /\
      ws_name sec = arrow_name "{\cal R}" wn /\
      ws_wavespeed sec =
        if (wn =? 0)%Z then [wavespeed_of s wn; wavespeed_of e wn]
        else [wavespeed_of e wn; wavespeed_of s wn].
Proof.
  intros H. unfold SWERarefaction, SWEState_new, rarefaction_solve, prim in H.
  monad_inv H; store_simpl.
  all: eexists _, _; rewrite <- app_assoc; cbn.
  all: splits; try reflexivity; try eassumption; try solve_length.
  all: match goal with Hc : allclose _ _ = _ |- _ => rewrite Hc end.
  - splits; reflexivity.
  - splits; try reflexivity.
    eexists. split; [ | eassumption ].
    match goal with Ho : odeint _ _ _ _ _ = Ok _ |- _ =>
      rewrite linspace_length in Ho by lia; exact Ho end.
Qed.

End SWEAnatomy.


(* ================================================================= *)
(** ** The two strategies *)

Section Factories.
Context {state_class : StateClass} {scipy : SciPy}.
Import wave.

Lemma build_inert_inv fuel q_known uv wn h r h' s :
  build_inert_wave_section fuel q_known uv wn h = Ok (r, h') ->
  h !! q_known = Some s ->
  exists sec,
    r = PyList [sec] /\
    match uv with
    | VState _ => wn = 1%Z /\ Contact q_known uv wn h = Ok (sec, h')
    | VNum p =>
        wn <> 1%Z /\
        if p_of s <? p then Shock fuel q_known p wn h = Ok (sec, h')
        else Rarefaction q_known p wn h = Ok (sec, h')
    end.
Proof.
  intros H Hs. unfold build_inert_wave_section in H.
  destruct (wn =? 1)%Z eqn:E1.
  - apply Z.eqb_eq in E1 as ->. monad_inv H.
    match goal with Hc : Contact _ _ _ _ = Ok _ |- _ =>
      pose proof (Contact_anatomy _ _ _ _ _ _ Hc) as (l & ? & ? & _ & -> & _) end.
    eexists. split; [ reflexivity | ]. split; [ reflexivity | assumption ].
  - apply Z.eqb_neq in E1.
    apply bind_Ok in H as (s0 & h0 & Hload & H).
    apply load_Ok in Hload as (? & Hs0 & [= <- <-]).
    rewrite Hs in Hs0. injection Hs0 as <-.
    destruct uv as [p | l]; [ | discriminate ].
    destruct (p_of s <? p); monad_inv H;
      (eexists; split; [ reflexivity | ]; split; assumption).
Qed.

Lemma trailing_rarefaction_spec front p wn h rest h' e :
  trailing_rarefaction front p wn h = Ok (rest, h') ->
  h !! ws_q_end front = Some e ->
  if gtb (p_of e) p then
    exists R, rest = [R] /\ Rarefaction (length h) p wn (h ++ [e]) = Ok (R, h')
  else rest = [] /\ h' = h ++ [e].
Proof.
  intros H He. unfold trailing_rarefaction in H.
  apply bind_Ok in H as (q_next & h1 & Hcopy & H).
  rewrite (deepcopy_lookup _ _ _ He) in Hcopy. injection Hcopy as <- <-.
  apply bind_Ok in H as (n & h2 & Hload & H).
  rewrite (load_lookup _ _ _ (lookup_new h e [])) in Hload. injection Hload as <- <-.
  destruct (gtb (p_of e) p); monad_inv H.
  - eexists. split; [ reflexivity | assumption ].
  - split; reflexivity.
Qed.

(** The three paths of the reactive factory for an acoustic wave. *)
Lemma build_reactive_inv fuel q_known uv wn h r h' s :
  build_reactive_wave_section fuel q_known uv wn h = Ok (r, h') ->
  h !! q_known = Some s ->
  (exists c, r = PyObject c) \/
  exists p_star t_i front h2 rest,
    uv = VNum p_star /\ wn <> 1%Z /\ t_ignition (eos s) = Some t_i /\
    trailing_rarefaction front p_star wn h2 = Ok (rest, h') /\
    (((p_of s <? p_star) = true /\
     Detonation fuel q_known p_star wn h = Ok (front, h2) /\
     r = PyList (front :: rest))
    \/
    ((p_of s <? p_star) = false /\
     (t_from_rho_eps (eos s) (rho s) (eps s) <? t_i) = false /\
     Deflagration fuel (length h) p_star wn (h ++ [s]) = Ok (front, h2) /\
     r = PyList (front :: rest))
    \/
    ((p_of s <? p_star) = false /\
     (t_from_rho_eps (eos s) (rho s) (eps s) <? t_i) = true /\
     exists p_0_star S h1 e,
       Shock fuel q_known p_0_star wn h = Ok (S, h1) /\
       h1 !! ws_q_end S = Some e /\
       Deflagration fuel (ws_q_end S) p_star wn (<[ws_q_end S := set_q (q s) e]> h1)
         = Ok (front, h2) /\
       r = PyList (S :: front :: rest))).
Proof.
  intros H Hs. pose proof H as Horig.
  unfold build_reactive_wave_section, eos_key in H.
  apply bind_Ok in H as (s0 & h0 & Hload & H).
  apply load_Ok in Hload as (? & Hs0 & [= <- <-]).
  rewrite Hs in Hs0. injection Hs0 as <-.
  destruct (t_ignition (eos s)) as [t_i | ] eqn:Hti; [ | monad_inv H ].
  apply bind_Ok in H as (t & h00 & Hret & H).
  apply ret_Ok in Hret as [= -> ->].
  destruct (wn =? 1)%Z eqn:E1.
  { monad_inv H. left. eexists. reflexivity. }
  apply Z.eqb_neq in E1. right.
  destruct uv as [p_star | ?]; [ | monad_inv H ].
  destruct (p_of s <? p_star) eqn:Ep.
  - monad_inv H. eexists _, _, _, _, _. splits; try reflexivity; try eassumption.
    left. splits; try reflexivity; assumption.
  - destruct (t_from_rho_eps (eos s) (rho s) (eps s) <? t_i) eqn:Et.
    + destruct (build_reactive_precursor _ _ _ _ _ _ _ _ _ Horig Hs Hti E1 Ep Et)
        as (p_max & p_0_star & S & h1 & e & D & h2 & rest
            & Hmax & Hbrent & HS & He & HD & Hrest & ->).
      eexists _, _, _, _, _. splits; try reflexivity; try eassumption.
      right. right. splits; try assumption.
      eexists _, _, _, _. splits; try eassumption. reflexivity.
    + monad_inv H. store_simpl.
      eexists _, _, _, _, _. splits; try reflexivity; try eassumption.
      right. left. splits; try reflexivity; assumption.
Qed.

(** [Wave.__init__] in two steps: the factory, then the edge states. *)
Lemma Wave_init_inv fuel q_known uv wn h w h' s :
  Wave_init fuel q_known uv wn h = Ok (w, h') ->
  h !! q_known = Some s ->
  exists sections h1 q_l q_r,
    (if negb (q_available (eos s))
     then build_inert_wave_section fuel q_known uv wn
     else build_reactive_wave_section fuel q_known uv wn) h = Ok (PyList sections, h1) /\
    edge_states q_known wn (ws_q_end <$> last sections) h1 = Ok ((q_l, q_r), h') /\
    w = mkWave wn sections (speed_bracket [] (map ws_wavespeed sections))
               (wave_sections_latex_string wn (map ws_name sections)) q_l q_r.
Proof.
  intros H Hs. unfold Wave_init in H.
  apply bind_Ok in H as (s0 & h0 & Hload & H).
  apply load_Ok in Hload as (? & Hs0 & [= <- <-]).
  rewrite Hs in Hs0. injection Hs0 as <-.
  apply bind_Ok in H as (waves & h1 & Hbuild & H).
  apply bind_Ok in H as (sections & h2 & Hiter & H).
  unfold iterate in Hiter. destruct waves as [l | c]; [ | discriminate ].
  apply ret_Ok in Hiter as [= -> ->].
  apply bind_Ok in H as ([q_l q_r] & h3 & Hedge & H).
  apply ret_Ok in H as [= -> ->].
  eexists _, _, _, _. splits; [ exact Hbuild | exact Hedge | reflexivity ].
Qed.

End Factories.

(** X1. A wave built on a known state whose equation of state has no key
    ['q_available'] has exactly one section, and the name of the wave is
    the name of that section. The section records the wavenumber of the
    wave and starts from a state equal to the known state. For a State as
    target it is a Contact and the wavenumber is 1; for a pressure as
    target the wavenumber is 0 or 2, and the section is a Shock when the
    known pressure is below the target and a Rarefaction otherwise. *)
Theorem inert_wave_single_section :
  forall (state_class : StateClass) (scipy : SciPy) (fuel : nat)
         (h h' : list State) (q_known : loc) (unknown_value : value) (wavenumber : Z)
         (w : wave.Wave) (s : State),
    wave.Wave_init fuel q_known unknown_value wavenumber h = Ok (w, h') ->
    h !! q_known = Some s ->
    q_available (eos s) = false ->
    exists sec,
      wave.w_wave_sections w = [sec] /\
      wave.w_name w = wave.ws_name sec /\
      wave.ws_wavenumber sec = wavenumber /\
      h' !! wave.ws_q_start sec = Some s /\
      match unknown_value with
      | VState _ => wavenumber = 1%Z /\ wave.ws_type sec = "Contact"%string
      | VNum p =>
          wave.in_0_2 wavenumber = true /\
          wave.ws_type sec =
            if wave.p_of s <? p then "Shock"%string else "Rarefaction"%string
      end.
Proof.
  intros sc sp fuel h h' q_known uv wn w s H Hs Hq.
  destruct (Wave_init_inv _ _ _ _ _ _ _ _ H Hs)
    as (sections & h1 & q_l & q_r & Hbuild & Hedge & ->).
  rewrite Hq in Hbuild. cbn [negb] in Hbuild.
  destruct (build_inert_inv _ _ _ _ _ _ _ _ Hbuild Hs) as (sec & [= ->] & Hsec).
  exists sec. cbn [wave.w_wave_sections wave.w_name map wave_sections_latex_string].
  apply alloc_only_edge_states in Hedge.
  splits; try reflexivity.
  - destruct uv as [p | l].
    + destruct Hsec as [_ Hsec]. destruct (wave.p_of s <? p).
      * apply Shock_inv in Hsec as [(? & ? & _ & _ & _ & _ & _ & _ & Hw & _) _]. exact Hw.
      * apply Rarefaction_inv in Hsec as [(? & ? & _ & _ & _ & _ & _ & _ & Hw & _) _].
        exact Hw.
    + destruct Hsec as [-> Hsec].
      apply Contact_anatomy in Hsec as (? & ? & ? & _ & _ & _ & _ & _ & _ & _ & _ & Hw & _).
      exact Hw.
  - destruct uv as [p | l].
    + destruct Hsec as [_ Hsec]. destruct (wave.p_of s <? p).
      * apply Shock_inv in Hsec as [(s' & ? & Hs' & Hstart & _) _].
        rewrite Hs in Hs'. injection Hs' as <-.
        eapply prefix_lookup_Some; eassumption.
      * apply Rarefaction_inv in Hsec as [(s' & ? & Hs' & Hstart & _) _].
        rewrite Hs in Hs'. injection Hs' as <-.
        eapply prefix_lookup_Some; eassumption.
    + destruct Hsec as [-> Hsec].
      apply Contact_anatomy in Hsec
        as (? & s' & ? & _ & _ & Hs' & _ & -> & Hstart & _).
      rewrite Hs in Hs'. injection Hs' as <-.
      eapply prefix_lookup_Some; [ | eassumption ]. rewrite Hstart. solve_lookup.
  - destruct uv as [p | l].
    + destruct Hsec as [_ Hsec]. destruct (wave.p_of s <? p).
      * apply Shock_inv in Hsec as [(? & ? & _ & _ & _ & _ & _ & Ht & _ & Hw & _) _].
        split; assumption.
      * apply Rarefaction_inv in Hsec as [(? & ? & _ & _ & _ & _ & _ & Ht & _ & Hw & _) _].
        split; assumption.
    + destruct Hsec as [-> Hsec]. split; [ reflexivity | ].
      apply Contact_anatomy in Hsec as (? & ? & ? & _ & _ & _ & _ & _ & _ & _ & Ht & _).
      exact Ht.
Qed.

Section X1_example.
Import Example.

(** The wave of family 0 that takes the inert gas to the pressure 1 is a
    single shock. *)
Lemma inert_wave_single_section_witness :
  exists w h' sec,
    wave.Wave_init 1000 0 (VNum 1) 0 [inert_gas] = Ok (w, h') /\
    wave.w_wave_sections w = [sec] /\ wave.ws_type sec = "Shock"%string.
Proof.
  destruct (wave.Wave_init 1000 0 (VNum 1) 0 [inert_gas]) as [[w h']| |] eqn:E;
    [ | vm_compute in E; discriminate E .. ].
  destruct (inert_wave_single_section ideal_gas solvers 1000%nat [inert_gas] h' 0%nat
              (VNum 1) 0%Z w inert_gas E eq_refl eq_refl)
    as (sec & Hsec & _ & _ & _ & _ & Ht).
  exists w, h', sec. splits; [ reflexivity | exact Hsec | exact Ht ].
Defined.

End X1_example.


(* ================================================================= *)
(** ** Sections in the store *)

Ltac built_tac Hst Hen Hsp Ht :=
  unfold well_formed; splits;
  first
    [ assumption | reflexivity
    | rewrite Hsp, Ht; cbn; first [ reflexivity | destruct (_ =? 0)%Z; reflexivity ]
    | exists []; splits; [ reflexivity | exact Hst | rewrite ?length_app in Hen; cbn in *; lia ] ].

Section Built.
Context {state_class : StateClass} {scipy : SciPy}.
Import wave.

Lemma built_start h0 sec h1 s e h' :
  built h0 sec h1 s e -> h1 `prefix_of` h' -> h' !! ws_q_start sec = Some s.
Proof.
  intros (mid & -> & -> & _) Hp. eapply prefix_lookup_Some; [ | exact Hp ].
  apply list_lookup_middle. reflexivity.
Qed.

Lemma built_end h0 sec h1 s e h' :
  built h0 sec h1 s e -> h1 `prefix_of` h' -> h' !! ws_q_end sec = Some e.
Proof.
  intros (mid & -> & _ & ->) Hp. eapply prefix_lookup_Some; [ | exact Hp ].
  rewrite lookup_app_plus. cbn. apply list_lookup_middle. reflexivity.
Qed.

Lemma built_range h0 sec h1 s e :
  built h0 sec h1 s e ->
  (length h0 <= ws_q_start sec)%nat /\ (ws_q_start sec < ws_q_end sec)%nat /\
  (ws_q_end sec < length h1)%nat.
Proof.
  intros (mid & -> & -> & ->). rewrite length_app. cbn. rewrite length_app. cbn. lia.
Qed.

Lemma built_prefix h0 sec h1 s e : built h0 sec h1 s e -> h0 `prefix_of` h1.
Proof. intros (mid & -> & _). by apply prefix_app_r. Qed.

(** The assignment to the end state of a section. *)
Lemma built_insert_end h0 sec h1 s e x :
  built h0 sec h1 s e -> built h0 sec (<[ws_q_end sec := x]> h1) s x.
Proof.
  intros (mid & -> & Hs & He). exists mid. splits; try assumption.
  rewrite He, insert_app_r. f_equal.
  replace (S (length mid)) with (length (s :: mid) + 0)%nat by (cbn; lia).
  rewrite !app_comm_cons, insert_app_r. reflexivity.
Qed.

Lemma Contact_built q_start q_end wn h sec h' :
  Contact q_start q_end wn h = Ok (sec, h') ->
  exists s e, h !! q_start = Some s /\ built h sec h' s e /\
    wn = 1%Z /\ ws_type sec = "Contact"%string /\ well_formed wn sec.
Proof.
  intros H. apply Contact_anatomy in H
    as (l & s & e & -> & _ & Hs & _ & -> & Hst & Hen & Ht & Hw & _ & Hsp & _).
  exists s, e. built_tac Hst Hen Hsp Ht.
Qed.

Lemma Rarefaction_built q_start p_end wn h sec h' :
  Rarefaction q_start p_end wn h = Ok (sec, h') ->
  exists s e, h !! q_start = Some s /\ built h sec h' s e /\
    in_0_2 wn = true /\ ws_type sec = "Rarefaction"%string /\ well_formed wn sec /\
    eos e = eos s /\ label e = star_label wn.
Proof.
  intros H. pose proof (Rarefaction_inv _ _ _ _ _ _ H)
    as [(? & ? & _ & _ & _ & _ & _ & Ht & Hw & Hin & _) _].
  apply Rarefaction_anatomy in H
    as (s & e & Hs & -> & Hst & Hen & Heos & Hlbl & _ & Hsp).
  exists s, e. built_tac Hst Hen Hsp Ht.
Qed.

Lemma Shock_built fuel q_start p_end wn h sec h' :
  Shock fuel q_start p_end wn h = Ok (sec, h') ->
  exists s e, h !! q_start = Some s /\ built h sec h' s e /\
    in_0_2 wn = true /\ ws_type sec = "Shock"%string /\ well_formed wn sec /\
    eos e = eos s /\ label e = star_label wn.
Proof.
  intros H. pose proof (Shock_inv _ _ _ _ _ _ _ H)
    as [(? & ? & _ & _ & _ & _ & _ & Ht & Hw & Hin & _) _].
  apply Shock_anatomy in H
    as (s & e & v_shock & Hs & -> & Hst & Hen & Heos & Hlbl & _ & Hsp & _).
  exists s, e. built_tac Hst Hen Hsp Ht.
Qed.

Lemma Deflagration_built fuel q_start p_end wn h sec h' :
  Deflagration fuel q_start p_end wn h = Ok (sec, h') ->
  exists s e eos_end, h !! q_start = Some s /\ built h sec h' s e /\
    in_0_2 wn = true /\ ws_type sec = "Deflagration"%string /\ well_formed wn sec /\
    eos_inert (eos s) = Some eos_end /\ eos e = eos_end /\ label e = star_label wn.
Proof.
  intros H. pose proof (Deflagration_inv _ _ _ _ _ _ _ H)
    as (? & ? & _ & _ & _ & _ & _ & Ht & Hw & Hin & _).
  apply Deflagration_anatomy in H
    as (s & eos_end & t_i & e & v_front & Hs & Hinert & _ & Hst & Hen & _
        & Heos & Hlbl & Hsp & Hshape).
  exists s, e, eos_end.
  destruct (allclose (p_of s) p_end).
  - destruct Hshape as (-> & _). built_tac Hst Hen Hsp Ht.
  - destruct Hshape as (v1 & u1 & _ & Hshape).
    destruct (_ <? 0).
    + destruct Hshape as (p_cjdf & _ & _ & -> & _).
      unfold well_formed; splits; try assumption;
        [ exists [u1; e]; rewrite length_app in Hen; cbn in *;
          splits; [ reflexivity | assumption | lia ]
        | rewrite Hsp, Ht; reflexivity ].
    + destruct Hshape as (_ & -> & -> & _).
      unfold well_formed; splits; try assumption;
        [ exists [u1]; rewrite length_app in Hen; cbn in *;
          splits; [ reflexivity | assumption | lia ]
        | rewrite Hsp, Ht; reflexivity ].
Qed.

Lemma Detonation_built fuel q_start p_end wn h sec h' :
  Detonation fuel q_start p_end wn h = Ok (sec, h') ->
  exists s e eos_end, h !! q_start = Some s /\ built h sec h' s e /\
    in_0_2 wn = true /\ ws_type sec = "Detonation"%string /\ well_formed wn sec /\
    eos_inert (eos s) = Some eos_end /\ eos e = eos_end /\ label e = star_label wn.
Proof.
  intros H. pose proof (Detonation_inv _ _ _ _ _ _ _ H)
    as (? & ? & _ & _ & _ & _ & _ & Ht & Hw & Hin & _).
  apply Detonation_anatomy in H
    as (s & eos_end & t_i & e & v_front & Hs & Hinert & _ & Hst & Hen & _
        & Heos & Hlbl & Hsp & _ & Hshape).
  exists s, e, eos_end.
  destruct (allclose (p_of s) p_end).
  - destruct Hshape as (-> & _). built_tac Hst Hen Hsp Ht.
  - destruct Hshape as (_ & ->).
    unfold well_formed; splits; try assumption;
      [ exists [e]; rewrite length_app in Hen; cbn in *;
        splits; [ reflexivity | assumption | lia ]
      | rewrite Hsp, Ht; reflexivity ].
Qed.

End Built.

Section Joined.
Context {state_class : StateClass} {scipy : SciPy}.
Import wave.

Lemma built_top h0 sec h1 s e : built h0 sec h1 s e -> S (ws_q_end sec) = length h1.
Proof.
  intros (mid & -> & _ & ->). rewrite length_app. cbn. rewrite length_app. cbn. lia.
Qed.

Lemma sections_in_grow h h' wn lo lo' prev sections :
  h `prefix_of` h' -> (lo' <= lo)%nat ->
  sections_in h wn lo prev sections -> sections_in h' wn lo' prev sections.
Proof.
  intros Hp. revert lo lo' prev.
  induction sections as [ | sec rest IH ]; intros lo lo' prev Hlo H; [ exact I | ].
  destruct H as (e & Hs & He & H1 & H2 & H3 & Hlaw & Hrest).
  exists e. splits; try assumption.
  - eapply prefix_lookup_Some; eassumption.
  - eapply prefix_lookup_Some; eassumption.
  - lia.
  - apply prefix_length in Hp. lia.
  - eapply IH; [ | exact Hrest ]. lia.
Qed.

Lemma sections_in_cons h0 sec h1 s e h' wn lo rest :
  built h0 sec h1 s e -> (lo <= length h0)%nat -> h1 `prefix_of` h' ->
  section_law wn s sec e ->
  sections_in h' wn (length h1) e rest ->
  sections_in h' wn lo s (sec :: rest).
Proof.
  intros Hb Hlo Hp Hlaw Hrest.
  destruct (built_range _ _ _ _ _ Hb) as (R1 & R2 & R3).
  exists e. splits; try assumption.
  - eapply built_start; eassumption.
  - eapply built_end; eassumption.
  - lia.
  - apply prefix_length in Hp. lia.
  - rewrite (built_top _ _ _ _ _ Hb). exact Hrest.
Qed.

(** The rarefaction that may follow a reactive front. *)
Lemma trailing_sections front p wn h rest h' e lo :
  trailing_rarefaction front p wn h = Ok (rest, h') ->
  h !! ws_q_end front = Some e ->
  (lo <= length h)%nat ->
  h `prefix_of` h' /\ sections_in h' wn lo e rest /\
  (if gtb (p_of e) p
   then exists R, rest = [R] /\ ws_type R = "Rarefaction"%string
   else rest = []).
Proof.
  intros H He Hlo.
  pose proof (trailing_rarefaction_spec _ _ _ _ _ _ _ H He) as Hspec.
  destruct (gtb (p_of e) p).
  - destruct Hspec as (R & -> & HR).
    apply Rarefaction_built in HR
      as (s' & eR & Hs' & Hb & Hin & Ht & Hwf & Heos & Hlbl).
    rewrite lookup_new in Hs'. injection Hs' as <-.
    splits.
    + etransitivity; [ | eapply built_prefix; exact Hb ]. by apply prefix_app_r.
    + eapply sections_in_cons; [ exact Hb | rewrite length_app; lia | reflexivity | | exact I ].
      split; [ exact Hwf | ]. right. left. splits; auto.
    + eexists. split; [ reflexivity | exact Ht ].
  - destruct Hspec as (-> & ->). splits; [ by apply prefix_app_r | exact I | reflexivity ].
Qed.

Lemma acoustic_law wn s sec e type :
  well_formed wn sec -> ws_type sec = type ->
  type = "Shock"%string \/ type = "Rarefaction"%string ->
  in_0_2 wn = true -> eos e = eos s -> label e = star_label wn ->
  section_law wn s sec e.
Proof.
  intros Hwf Ht Htype Hin Heos Hlbl. split; [ exact Hwf | ].
  right. left. rewrite Ht. splits; assumption.
Qed.

Lemma reactive_law wn s sec e type eos_end :
  well_formed wn sec -> ws_type sec = type ->
  type = "Deflagration"%string \/ type = "Detonation"%string ->
  in_0_2 wn = true -> eos_inert (eos s) = Some eos_end -> eos e = eos_end ->
  label e = star_label wn ->
  section_law wn s sec e.
Proof.
  intros Hwf Ht Htype Hin Hinert Heos Hlbl. split; [ exact Hwf | ].
  right. right. rewrite Ht, Heos. splits; assumption.
Qed.

(** The sections a factory returns, in the store it leaves. *)
Lemma build_inert_sections fuel q_known uv wn h sections h1 s :
  build_inert_wave_section fuel q_known uv wn h = Ok (PyList sections, h1) ->
  h !! q_known = Some s ->
  h `prefix_of` h1 /\ sections_in h1 wn (length h) s sections /\ sections <> [].
Proof.
  intros H Hs.
  destruct (build_inert_inv _ _ _ _ _ _ _ _ H Hs) as (sec & [= ->] & Hsec).
  assert (exists e, built h sec h1 s e /\ section_law wn s sec e) as (e & Hb & Hlaw).
  { destruct uv as [p | l].
    - destruct Hsec as [_ Hsec]. destruct (p_of s <? p).
      + apply Shock_built in Hsec as (s' & e & Hs' & Hb & Hin & Ht & Hwf & Heos & Hlbl).
        rewrite Hs in Hs'. injection Hs' as <-. exists e. split; [ exact Hb | ].
        eapply acoustic_law; eauto.
      + apply Rarefaction_built in Hsec
          as (s' & e & Hs' & Hb & Hin & Ht & Hwf & Heos & Hlbl).
        rewrite Hs in Hs'. injection Hs' as <-. exists e. split; [ exact Hb | ].
        eapply acoustic_law; eauto.
    - destruct Hsec as [-> Hsec].
      apply Contact_built in Hsec as (s' & e & Hs' & Hb & _ & Ht & Hwf).
      rewrite Hs in Hs'. injection Hs' as <-. exists e. split; [ exact Hb | ].
      split; [ exact Hwf | ]. left. split; [ exact Ht | reflexivity ]. }
  splits; [ eapply built_prefix; exact Hb | | discriminate ].
  eapply sections_in_cons; [ exact Hb | lia | reflexivity | exact Hlaw | exact I ].
Qed.

Lemma build_reactive_sections fuel q_known uv wn h sections h1 s :
  build_reactive_wave_section fuel q_known uv wn h = Ok (PyList sections, h1) ->
  h !! q_known = Some s ->
  sections_in h1 wn (length h) s sections /\ sections <> [].
Proof.
  intros H Hs.
  destruct (build_reactive_inv _ _ _ _ _ _ _ _ H Hs)
    as [(c & [=]) | (p_star & t_i & front & h2 & rest & -> & Hwn & Hti & Hrest & Hpath)].
  destruct Hpath as [(Hp & HD & [= ->]) | [(Hp & Ht & HD & [= ->]) | (Hp & Ht & Hpre)]].
  - apply Detonation_built in HD
      as (s' & e & eos_end & Hs' & Hb & Hin & Htype & Hwf & Hinert & Heos & Hlbl).
    rewrite Hs in Hs'. injection Hs' as <-.
    destruct (trailing_sections _ _ _ _ _ _ _ (length h2) Hrest
                (built_end _ _ _ _ _ _ Hb (reflexivity _)) (le_n _))
      as (Hpre & Hsec & _).
    split; [ | discriminate ].
    eapply sections_in_cons; [ exact Hb | lia | exact Hpre | | exact Hsec ].
    eapply reactive_law; eauto.
  - apply Deflagration_built in HD
      as (s' & e & eos_end & Hs' & Hb & Hin & Htype & Hwf & Hinert & Heos & Hlbl).
    rewrite lookup_new in Hs'. injection Hs' as <-.
    destruct (trailing_sections _ _ _ _ _ _ _ (length h2) Hrest
                (built_end _ _ _ _ _ _ Hb (reflexivity _)) (le_n _))
      as (Hpre & Hsec & _).
    split; [ | discriminate ].
    eapply sections_in_cons; [ exact Hb | rewrite length_app; lia | exact Hpre | | exact Hsec ].
    eapply reactive_law; eauto.
  - destruct Hpre as (p_0_star & S & hS & e0 & HS & He0 & HD & [= ->]).
    apply Shock_built in HS
      as (s' & e0' & Hs' & HbS & Hin & HtS & HwfS & HeosS & HlblS).
    rewrite Hs in Hs'. injection Hs' as <-.
    rewrite (built_end _ _ _ _ _ _ HbS (reflexivity _)) in He0. injection He0 as <-.
    pose proof (built_insert_end _ _ _ _ _ (set_q (q s) e0') HbS) as HbS'.
    apply Deflagration_built in HD
      as (x & e & eos_end & Hx & Hb & _ & Htype & Hwf & Hinert & Heos & Hlbl).
    rewrite (built_end _ _ _ _ _ _ HbS' (reflexivity _)) in Hx. injection Hx as <-.
    destruct (trailing_sections _ _ _ _ _ _ _ (length h2) Hrest
                (built_end _ _ _ _ _ _ Hb (reflexivity _)) (le_n _))
      as (Hpre & Hsec & _).
    pose proof (built_prefix _ _ _ _ _ Hb) as HpD.
    split; [ | discriminate ].
    eapply sections_in_cons;
      [ exact HbS' | lia | etransitivity; eassumption | | ].
    + eapply acoustic_law; eauto.
    + eapply sections_in_cons; [ exact Hb | lia | exact Hpre | | exact Hsec ].
      eapply reactive_law; eauto.
Qed.

(** The sections of a wave in the store the constructor leaves. *)
Lemma Wave_sections_in fuel q_known uv wn h w h' s :
  Wave_init fuel q_known uv wn h = Ok (w, h') ->
  h !! q_known = Some s ->
  sections_in h' wn (length h) s (w_wave_sections w) /\
  w_wave_sections w <> [] /\ w_wavenumber w = wn.
Proof.
  intros H Hs.
  destruct (Wave_init_inv _ _ _ _ _ _ _ _ H Hs)
    as (sections & h1 & q_l & q_r & Hbuild & Hedge & ->).
  cbn [w_wave_sections w_wavenumber].
  apply alloc_only_edge_states in Hedge.
  destruct (negb (q_available (eos s))).
  - destruct (build_inert_sections _ _ _ _ _ _ _ _ Hbuild Hs) as (_ & Hin & Hne).
    splits; [ | exact Hne | reflexivity ].
    eapply sections_in_grow; [ exact Hedge | | exact Hin ]. lia.
  - destruct (build_reactive_sections _ _ _ _ _ _ _ _ Hbuild Hs) as (Hin & Hne).
    splits; [ | exact Hne | reflexivity ].
    eapply sections_in_grow; [ exact Hedge | | exact Hin ]. lia.
Qed.

End Joined.

Section Consequences.
Context {state_class : StateClass}.
Import wave.

Lemma sections_in_chained h wn lo prev sections :
  sections_in h wn lo prev sections -> chained h prev sections.
Proof.
  revert lo prev. induction sections as [ | sec rest IH ]; intros lo prev H; [ exact I | ].
  destruct H as (e & Hs & He & _ & _ & _ & _ & Hrest).
  split; [ exact Hs | ]. exists e. split; [ exact He | ]. eapply IH, Hrest.
Qed.

Lemma sections_in_Forall h wn lo prev sections :
  sections_in h wn lo prev sections ->
  Forall (fun sec => (lo <= ws_q_start sec)%nat /\
                     (ws_q_start sec < ws_q_end sec)%nat /\
                     (ws_q_end sec < length h)%nat /\
                     well_formed wn sec) sections.
Proof.
  revert lo prev. induction sections as [ | sec rest IH ]; intros lo prev H;
    [ constructor | ].
  destruct H as (e & _ & _ & H1 & H2 & H3 & [Hwf _] & Hrest).
  constructor; [ splits; assumption | ].
  eapply Forall_impl; [ eapply IH, Hrest | ].
  cbn. intros sec' (? & ? & ? & ?). splits; try assumption. lia.
Qed.

(** The objects of the sections, in the order of the sections, have
    increasing locations. *)
Lemma sections_in_increasing h wn lo prev sections :
  sections_in h wn lo prev sections ->
  Forall (fun l => (lo <= l)%nat)
         (concat (map (fun sec => [ws_q_start sec; ws_q_end sec]) sections)) /\
  NoDup (concat (map (fun sec => [ws_q_start sec; ws_q_end sec]) sections)).
Proof.
  revert lo prev. induction sections as [ | sec rest IH ]; intros lo prev H.
  - split; constructor.
  - destruct H as (e & _ & _ & H1 & H2 & _ & _ & Hrest).
    destruct (IH _ _ Hrest) as [Hge Hnd]. cbn. split.
    + repeat constructor; try lia.
      eapply Forall_impl; [ exact Hge | ]. cbn. intros; lia.
    + repeat constructor; [ | | exact Hnd ].
      * rewrite elem_of_cons. intros [Heq | Hin]; [ lia | ].
        rewrite Forall_forall in Hge. specialize (Hge _ Hin). cbn in Hge. lia.
      * intros Hin. rewrite Forall_forall in Hge. specialize (Hge _ Hin). cbn in Hge. lia.
Qed.

Lemma section_law_wavenumber wn prev sec e :
  section_law wn prev sec e ->
  ws_wavenumber sec = wn /\ (wn = 0 \/ wn = 1 \/ wn = 2)%Z /\
  (ws_type sec = "Contact"%string <-> wn = 1%Z).
Proof.
  intros [[Hw _] Hcase]. split; [ exact Hw | ].
  assert (forall wn', in_0_2 wn' = true -> (wn' = 0 \/ wn' = 2)%Z) as Hin.
  { intros wn' H. unfold in_0_2 in H. apply orb_true_iff in H as [H | H];
      apply Z.eqb_eq in H; lia. }
  destruct Hcase as [(Ht & ->) | [([Ht | Ht] & Hi & _) | ([Ht | Ht] & Hi & _)]];
    try (split; [ lia | rewrite Ht; split; [ reflexivity | reflexivity ] ]);
    apply Hin in Hi; (split; [ lia | ]); rewrite Ht;
    (split; [ discriminate | lia ]).
Qed.

End Consequences.


(* ================================================================= *)
(** ** The sections of a constructed wave *)

Lemma edge_states_range {O} q_known wn last_end (h1 h' : list O) q_l q_r lo :
  edge_states q_known wn last_end h1 = Ok ((q_l, q_r), h') ->
  (lo <= length h1)%nat ->
  (forall l, last_end = Some l -> (lo <= l < length h1)%nat) ->
  (lo <= q_l < length h')%nat /\ (lo <= q_r < length h')%nat /\ q_l <> q_r.
Proof.
  intros H Hlo Hlast. unfold edge_states in H.
  destruct (wn =? 0)%Z; [ | destruct (wn =? 1)%Z ].
  all: destruct last_end as [l | ]; monad_inv H.
  all: try specialize (Hlast _ eq_refl).
  all: rewrite ?length_app; cbn; lia.
Qed.

Lemma last_sections_in h wn lo prev sections sec :
  sections_in h wn lo prev sections -> last sections = Some sec ->
  (lo <= wave.ws_q_end sec < length h)%nat.
Proof.
  intros H Hl. apply sections_in_Forall in H. rewrite Forall_forall in H.
  apply last_Some_elem_of in Hl. destruct (H _ Hl) as (? & ? & ? & _). lia.
Qed.

(** X3. A constructed wave has at least one section. In the store its
    construction leaves, the first section starts from a state equal to
    the known state and every other section starts from a state equal to
    the one the section before it ends in. *)
Theorem Wave_sections_chained :
  forall (state_class : StateClass) (scipy : SciPy) (fuel : nat)
         (h h' : list State) (q_known : loc) (unknown_value : value) (wavenumber : Z)
         (w : wave.Wave) (s : State),
    wave.Wave_init fuel q_known unknown_value wavenumber h = Ok (w, h') ->
    h !! q_known = Some s ->
    wave.w_wave_sections w <> [] /\ chained h' s (wave.w_wave_sections w).
Proof.
  intros sc sp fuel h h' q_known uv wn w s H Hs.
  destruct (Wave_sections_in _ _ _ _ _ _ _ _ H Hs) as (Hin & Hne & _).
  split; [ exact Hne | ]. eapply sections_in_chained, Hin.
Qed.

Section X3_example.
Import Example.

(** The deflagration wave of family 2 of the hot reactive gas: its
    rarefaction starts from the state its deflagration ends in. *)
Lemma Wave_sections_chained_witness :
  exists w h',
    wave.Wave_init 1000 0 (VNum 0.3) 2 [hot_gas] = Ok (w, h') /\
    chained h' hot_gas (wave.w_wave_sections w).
Proof.
  destruct (wave.Wave_init 1000 0 (VNum 0.3) 2 [hot_gas]) as [[w h']| |] eqn:E;
    [ | vm_compute in E; discriminate E .. ].
  exists w, h'. split; [ reflexivity | ].
  exact (proj2 (Wave_sections_chained ideal_gas solvers 1000%nat [hot_gas] h' 0%nat
                  (VNum 0.3) 2%Z w hot_gas E eq_refl)).
Defined.

End X3_example.

(** The factory's store, before the edge states are copied. *)
Lemma Wave_init_sections fuel {state_class : StateClass} {scipy : SciPy}
    q_known uv wn h w h' s :
  wave.Wave_init fuel q_known uv wn h = Ok (w, h') ->
  h !! q_known = Some s ->
  exists h1,
    sections_in h1 wn (length h) s (wave.w_wave_sections w) /\
    (length h < length h1)%nat /\ h1 !! q_known = Some s /\
    edge_states q_known wn (wave.ws_q_end <$> last (wave.w_wave_sections w)) h1
      = Ok ((wave.w_q_l w, wave.w_q_r w), h').
Proof.
  intros H Hs.
  destruct (Wave_init_inv _ _ _ _ _ _ _ _ H Hs)
    as (sections & h1 & q_l & q_r & Hbuild & Hedge & ->).
  cbn [wave.w_wave_sections wave.w_q_l wave.w_q_r].
  exists h1.
  assert (sections_in h1 wn (length h) s sections /\ sections <> [] /\
          h1 !! q_known = Some s) as (Hin & Hne & Hs1).
  { destruct (negb (q_available (eos s))).
    - destruct (build_inert_sections _ _ _ _ _ _ _ _ Hbuild Hs) as (Hp & Hin1 & Hne).
      splits; try assumption. eapply prefix_lookup_Some; eassumption.
    - destruct (build_reactive_sections _ _ _ _ _ _ _ _ Hbuild Hs) as (Hin1 & Hne).
      splits; try assumption.
      eapply keeps_build_reactive; eassumption. }
  splits; try assumption.
  destruct sections as [ | sec rest ]; [ contradiction | ].
  destruct Hin as (e & _ & _ & ? & ? & ? & _). lia.
Qed.

(** X5. The edge states [q_l] and [q_r] of a constructed wave and the start and
    end states of its sections are objects made by the construction: none
    of them is the known state object or another object that existed
    before. The start and end states of the sections are pairwise distinct
    objects, and [q_l] and [q_r] are two distinct objects. *)
Theorem Wave_states_are_new :
  forall (state_class : StateClass) (scipy : SciPy) (fuel : nat)
         (h h' : list State) (q_known : loc) (unknown_value : value) (wavenumber : Z)
         (w : wave.Wave) (s : State),
    wave.Wave_init fuel q_known unknown_value wavenumber h = Ok (w, h') ->
    h !! q_known = Some s ->
    let objects :=
      concat (map (fun sec => [wave.ws_q_start sec; wave.ws_q_end sec])
                  (wave.w_wave_sections w)) in
    Forall (fun l => (length h <= l < length h')%nat)
           (wave.w_q_l w :: wave.w_q_r w :: objects) /\
    NoDup objects /\ wave.w_q_l w <> wave.w_q_r w.
Proof.
  intros sc sp fuel h h' q_known uv wn w s H Hs objects.
  destruct (Wave_init_sections _ _ _ _ _ _ _ _ H Hs) as (h1 & Hin1 & Hlen & _ & Hedge).
  destruct (sections_in_increasing _ _ _ _ _ Hin1) as [Hge Hnd].
  pose proof (sections_in_Forall _ _ _ _ _ Hin1) as Hall.
  destruct (edge_states_range _ _ _ _ _ _ _ (length h) Hedge ltac:(lia)) as (Hl & Hr & Hne).
  { intros l Hl. destruct (last (wave.w_wave_sections w)) as [sec | ] eqn:El;
      [ | discriminate ].
    injection Hl as <-. eapply last_sections_in; eassumption. }
  apply alloc_only_edge_states, prefix_length in Hedge.
  splits; [ | exact Hnd | exact Hne ].
  repeat (constructor; [ assumption | ]).
  subst objects. rewrite Forall_concat, Forall_map.
  eapply Forall_impl; [ exact Hall | ]. cbn. intros sec (? & ? & ? & _).
  repeat constructor; lia.
Qed.

Section X5_example.
Import Example.

(** The detonation wave of the hot gas: its edge states are two objects
    made by the construction. *)
Lemma Wave_states_are_new_witness :
  exists w h',
    wave.Wave_init 1000 0 (VNum 2) 2 [hot_gas] = Ok (w, h') /\
    (1 <= wave.w_q_l w < length h')%nat /\ (1 <= wave.w_q_r w < length h')%nat /\
    wave.w_q_l w <> wave.w_q_r w.
Proof.
  destruct (wave.Wave_init 1000 0 (VNum 2) 2 [hot_gas]) as [[w h']| |] eqn:E;
    [ | vm_compute in E; discriminate E .. ].
  exists w, h'. split; [ reflexivity | ].
  destruct (Wave_states_are_new ideal_gas solvers 1000%nat [hot_gas] h' 0%nat
              (VNum 2) 2%Z w hot_gas E eq_refl) as (Hall & _ & Hne).
  apply Forall_cons in Hall as [Hl Hall]. apply Forall_cons in Hall as [Hr _].
  split; [ exact Hl | split; [ exact Hr | exact Hne ] ].
Defined.

End X5_example.

Section Types.
Context {state_class : StateClass} {scipy : SciPy}.
Import wave.

Lemma sections_in_law h wn lo prev sections :
  sections_in h wn lo prev sections ->
  Forall (fun sec => exists prev' e, section_law wn prev' sec e) sections.
Proof.
  revert lo prev. induction sections as [ | sec rest IH ]; intros lo prev H;
    [ constructor | ].
  destruct H as (e & _ & _ & _ & _ & _ & Hlaw & Hrest).
  constructor; [ eexists _, _; exact Hlaw | eapply IH, Hrest ].
Qed.

(** The sections of the reactive factory by type. *)
Lemma build_reactive_types fuel q_known uv wn h sections h1 s :
  build_reactive_wave_section fuel q_known uv wn h = Ok (PyList sections, h1) ->
  h !! q_known = Some s ->
  exists p_star t_i pre front rest e_front,
    uv = VNum p_star /\ t_ignition (eos s) = Some t_i /\
    sections = pre ++ front :: rest /\
    ws_type front =
      (if p_of s <? p_star then "Detonation"%string else "Deflagration"%string) /\
    (if negb (p_of s <? p_star) && (t_from_rho_eps (eos s) (rho s) (eps s) <? t_i)
     then exists S, pre = [S] /\ ws_type S = "Shock"%string
     else pre = []) /\
    h1 !! ws_q_end front = Some e_front /\
    (if gtb (p_of e_front) p_star
     then exists R, rest = [R] /\ ws_type R = "Rarefaction"%string
     else rest = []).
Proof.
  intros H Hs.
  destruct (build_reactive_inv _ _ _ _ _ _ _ _ H Hs)
    as [(c & [=]) | (p_star & t_i & front & h2 & rest & -> & Hwn & Hti & Hrest & Hpath)].
  assert (exists e_front, h2 !! ws_q_end front = Some e_front) as (e_front & He).
  { destruct Hpath as [(_ & HD & _) | [(_ & _ & HD & _) | (_ & _ & ? & ? & ? & ? & _ & _ & HD & _)]].
    - apply Detonation_built in HD as (? & e & ? & _ & Hb & _). exists e.
      eapply built_end; [ exact Hb | reflexivity ].
    - apply Deflagration_built in HD as (? & e & ? & _ & Hb & _). exists e.
      eapply built_end; [ exact Hb | reflexivity ].
    - apply Deflagration_built in HD as (? & e & ? & _ & Hb & _). exists e.
      eapply built_end; [ exact Hb | reflexivity ]. }
  destruct (trailing_sections _ _ _ _ _ _ _ 0%nat Hrest He ltac:(lia))
    as (Hp & _ & Hcond).
  assert (h1 !! ws_q_end front = Some e_front) as He1
    by (eapply prefix_lookup_Some; eassumption).
  destruct Hpath as [(Hlt & HD & [= ->]) | [(Hlt & Ht & HD & [= ->]) | (Hlt & Ht & Hpre)]].
  - exists p_star, t_i, [], front, rest, e_front. rewrite Hlt. cbn [negb andb app].
    apply Detonation_built in HD as (_ & _ & _ & _ & _ & _ & Htype & _).
    splits; try assumption; reflexivity.
  - exists p_star, t_i, [], front, rest, e_front. rewrite Hlt, Ht. cbn [negb andb app].
    apply Deflagration_built in HD as (_ & _ & _ & _ & _ & _ & Htype & _).
    splits; try assumption; reflexivity.
  - destruct Hpre as (p_0_star & S & hS & e0 & HS & _ & HD & [= ->]).
    exists p_star, t_i, [S], front, rest, e_front. rewrite Hlt, Ht. cbn [negb andb app].
    apply Deflagration_built in HD as (_ & _ & _ & _ & _ & _ & Htype & _).
    apply Shock_built in HS as (_ & _ & _ & _ & _ & HtS & _).
    splits; try assumption; try reflexivity.
    eexists. split; [ reflexivity | exact HtS ].
Qed.

End Types.

(** X2. A wave built on a known state whose equation of state has the key
    ['q_available'] has a pressure as target and an ignition temperature,
    and its sections are, in this order: a precursor Shock, present exactly
    when the known pressure is not below the target and the known
    temperature is below the ignition temperature; a reactive front, which
    is a Detonation when the known pressure is below the target and a
    Deflagration otherwise; a Rarefaction, present exactly when the
    pressure of the state the front ends in is above the target. *)
Theorem reactive_wave_sections :
  forall (state_class : StateClass) (scipy : SciPy) (fuel : nat)
         (h h' : list State) (q_known : loc) (unknown_value : value) (wavenumber : Z)
         (w : wave.Wave) (s : State),
    wave.Wave_init fuel q_known unknown_value wavenumber h = Ok (w, h') ->
    h !! q_known = Some s ->
    q_available (eos s) = true ->
    exists p_star t_i pre front rest e_front,
      unknown_value = VNum p_star /\ t_ignition (eos s) = Some t_i /\
      wave.w_wave_sections w = pre ++ front :: rest /\
      wave.ws_type front =
        (if wave.p_of s <? p_star then "Detonation"%string else "Deflagration"%string) /\
      (if negb (wave.p_of s <? p_star)
          && (t_from_rho_eps (eos s) (rho s) (eps s) <? t_i)
       then exists S, pre = [S] /\ wave.ws_type S = "Shock"%string
       else pre = []) /\
      h' !! wave.ws_q_end front = Some e_front /\
      (if gtb (wave.p_of e_front) p_star
       then exists R, rest = [R] /\ wave.ws_type R = "Rarefaction"%string
       else rest = []).
Proof.
  intros sc sp fuel h h' q_known uv wn w s H Hs Hq.
  destruct (Wave_init_inv _ _ _ _ _ _ _ _ H Hs)
    as (sections & h1 & q_l & q_r & Hbuild & Hedge & ->).
  rewrite Hq in Hbuild. cbn [negb] in Hbuild.
  destruct (build_reactive_types _ _ _ _ _ _ _ _ Hbuild Hs)
    as (p_star & t_i & pre & front & rest & e_front & Huv & Hti & Hsecs & Hfront & Hpre
        & He & Hrest).
  exists p_star, t_i, pre, front, rest, e_front.
  cbn [wave.w_wave_sections].
  splits; try assumption.
  eapply prefix_lookup_Some; [ exact He | ].
  eapply alloc_only_edge_states, Hedge.
Qed.

Section X2_example.
Import Example.

(** The wave of family 0 that takes the cold reactive gas to the pressure
    0.5: a precursor shock, a deflagration, a rarefaction. *)
Lemma reactive_wave_sections_witness :
  exists w h' S D R,
    wave.Wave_init 1000 0 (VNum 0.5) 0 [cold_gas] = Ok (w, h') /\
    wave.w_wave_sections w = [S] ++ D :: [R] /\
    wave.ws_type S = "Shock"%string /\ wave.ws_type D = "Deflagration"%string /\
    wave.ws_type R = "Rarefaction"%string.
Proof.
  destruct (wave.Wave_init 1000 0 (VNum 0.5) 0 [cold_gas]) as [[w h']| |] eqn:E;
    [ | vm_compute in E; discriminate E .. ].
  destruct (reactive_wave_sections ideal_gas solvers 1000%nat [cold_gas] h' 0%nat
              (VNum 0.5) 0%Z w cold_gas E eq_refl eq_refl)
    as (p_star & t_i & pre & front & rest & e_front & [= <-] & [= <-] & Hw & Hf & Hpre
        & He & Hrest).
  change (negb (wave.p_of cold_gas <? 0.5)
          && (t_from_rho_eps (eos cold_gas) (rho cold_gas) (eps cold_gas) <? 1))
    with true in Hpre.
  change (wave.p_of cold_gas <? 0.5) with false in Hf.
  destruct Hpre as (S & -> & HS).
  destruct (gtb (wave.p_of e_front) 0.5) eqn:Eg.
  - destruct Hrest as (R & -> & HR).
    exists w, h', S, front, R. splits; try assumption; reflexivity.
  - exfalso. subst rest. vm_compute in E. injection E as <- <-. discriminate Hw.
Defined.

End X2_example.

(** X4. A constructed wave records the wavenumber it was given, which is 0, 1
    or 2. Each of its sections records the same wavenumber, and a section
    is a Contact exactly when the wavenumber is 1. *)
Theorem Wave_wavenumber_carried :
  forall (state_class : StateClass) (scipy : SciPy) (fuel : nat)
         (h h' : list State) (q_known : loc) (unknown_value : value) (wavenumber : Z)
         (w : wave.Wave) (s : State),
    wave.Wave_init fuel q_known unknown_value wavenumber h = Ok (w, h') ->
    h !! q_known = Some s ->
    wave.w_wavenumber w = wavenumber /\
    (wavenumber = 0 \/ wavenumber = 1 \/ wavenumber = 2)%Z /\
    Forall (fun sec => wave.ws_wavenumber sec = wavenumber /\
                       (wave.ws_type sec = "Contact"%string <-> wavenumber = 1%Z))
           (wave.w_wave_sections w).
Proof.
  intros sc sp fuel h h' q_known uv wn w s H Hs.
  destruct (Wave_sections_in _ _ _ _ _ _ _ _ H Hs) as (Hin & Hne & Hw).
  apply sections_in_law in Hin.
  split; [ exact Hw | ]. split.
  - destruct (wave.w_wave_sections w) as [ | sec rest ]; [ contradiction | ].
    apply Forall_cons in Hin as [(prev & e & Hlaw) _].
    apply section_law_wavenumber in Hlaw as (_ & Hwn & _). exact Hwn.
  - eapply Forall_impl; [ exact Hin | ]. cbn. intros sec (prev & e & Hlaw).
    apply section_law_wavenumber in Hlaw as (H1 & _ & H3). split; assumption.
Qed.

Section X4_example.
Import Example.

(** The three sections of the wave of the cold gas carry the family 2. *)
Lemma Wave_wavenumber_carried_witness :
  exists w h',
    wave.Wave_init 1000 0 (VNum 0.5) 2 [cold_gas] = Ok (w, h') /\
    wave.w_wavenumber w = 2%Z /\
    Forall (fun sec => wave.ws_wavenumber sec = 2%Z) (wave.w_wave_sections w).
Proof.
  destruct (wave.Wave_init 1000 0 (VNum 0.5) 2 [cold_gas]) as [[w h']| |] eqn:E;
    [ | vm_compute in E; discriminate E .. ].
  exists w, h'. split; [ reflexivity | ].
  destruct (Wave_wavenumber_carried ideal_gas solvers 1000%nat [cold_gas] h' 0%nat
              (VNum 0.5) 2%Z w cold_gas E eq_refl) as (Hw & _ & Hall).
  split; [ exact Hw | ].
  eapply Forall_impl; [ exact Hall | ]. intros sec [Hsec _]. exact Hsec.
Defined.

End X4_example.

(** X7. Every section of a constructed wave is a Contact or a Shock that holds
    one speed, or a Rarefaction, a Deflagration or a Detonation that holds
    two. *)
Theorem Wave_section_speeds_counted :
  forall (state_class : StateClass) (scipy : SciPy) (fuel : nat)
         (h h' : list State) (q_known : loc) (unknown_value : value) (wavenumber : Z)
         (w : wave.Wave) (s : State),
    wave.Wave_init fuel q_known unknown_value wavenumber h = Ok (w, h') ->
    h !! q_known = Some s ->
    Forall (fun sec =>
              ((wave.ws_type sec = "Contact"%string \/ wave.ws_type sec = "Shock"%string) /\
               length (wave.ws_wavespeed sec) = 1%nat)
              \/
              ((wave.ws_type sec = "Rarefaction"%string \/
                wave.ws_type sec = "Deflagration"%string \/
                wave.ws_type sec = "Detonation"%string) /\
               length (wave.ws_wavespeed sec) = 2%nat))
           (wave.w_wave_sections w).
Proof.
  intros sc sp fuel h h' q_known uv wn w s H Hs.
  destruct (Wave_sections_in _ _ _ _ _ _ _ _ H Hs) as (Hin & _ & _).
  apply sections_in_law in Hin.
  eapply Forall_impl; [ exact Hin | ]. cbn.
  intros sec (prev & e & [[_ Hlen] Hcase]).
  destruct Hcase as [(Ht & _) | [([Ht | Ht] & _) | ([Ht | Ht] & _)]];
    rewrite Ht in Hlen |- *; cbn in Hlen; [ left | left | right | right | right ];
    (split; [ | exact Hlen ]); auto.
Qed.

Section X7_example.
Import Example.

(** The sections of the wave of the cold gas hold one or two speeds. *)
Lemma Wave_section_speeds_counted_witness :
  exists w h',
    wave.Wave_init 1000 0 (VNum 0.5) 2 [cold_gas] = Ok (w, h') /\
    Forall (fun sec => (1 <= length (wave.ws_wavespeed sec) <= 2)%nat)
           (wave.w_wave_sections w).
Proof.
  destruct (wave.Wave_init 1000 0 (VNum 0.5) 2 [cold_gas]) as [[w h']| |] eqn:E;
    [ | vm_compute in E; discriminate E .. ].
  exists w, h'. split; [ reflexivity | ].
  eapply Forall_impl;
    [ exact (Wave_section_speeds_counted ideal_gas solvers 1000%nat [cold_gas] h'
               0%nat (VNum 0.5) 2%Z w cold_gas E eq_refl) | ].
  intros sec [[_ Hlen] | [_ Hlen]]; rewrite Hlen; lia.
Defined.

End X7_example.

Section LastState.
Context {state_class : StateClass} {scipy : SciPy}.
Import wave.

Lemma acoustic_section_law wn prev sec e :
  section_law wn prev sec e ->
  ws_type sec = "Shock"%string \/ ws_type sec = "Rarefaction"%string ->
  eos e = eos prev /\ label e = star_label wn /\ in_0_2 wn = true.
Proof.
  intros [_ Hcase] Ht.
  destruct Hcase as [(Ht' & _) | [(_ & Hi & He & Hl) | ([Ht' | Ht'] & _)]];
    try (splits; assumption);
    destruct Ht as [Ht | Ht]; rewrite Ht in Ht'; discriminate.
Qed.

Lemma reactive_section_law wn prev sec e :
  section_law wn prev sec e ->
  ws_type sec = "Deflagration"%string \/ ws_type sec = "Detonation"%string ->
  eos_inert (eos prev) = Some (eos e) /\ label e = star_label wn /\ in_0_2 wn = true.
Proof.
  intros [_ Hcase] Ht.
  destruct Hcase as [(Ht' & _) | [([Ht' | Ht'] & _) | (_ & Hi & He & Hl)]];
    try (splits; assumption);
    destruct Ht as [Ht | Ht]; rewrite Ht in Ht'; discriminate.
Qed.

(** The state an acoustic wave ends in. *)
Lemma Wave_last_state fuel q_known p_star wn h w h' s :
  Wave_init fuel q_known (VNum p_star) wn h = Ok (w, h') ->
  h !! q_known = Some s ->
  exists sec e,
    last (w_wave_sections w) = Some sec /\ h' !! ws_q_end sec = Some e /\
    label e = star_label wn /\ in_0_2 wn = true /\
    if q_available (eos s) then eos_inert (eos s) = Some (eos e) else eos e = eos s.
Proof.
  intros H Hs.
  destruct (Wave_sections_in _ _ _ _ _ _ _ _ H Hs) as (Hin & _ & _).
  destruct (Wave_init_inv _ _ _ _ _ _ _ _ H Hs)
    as (sections & h1 & q_l & q_r & Hbuild & Hedge & ->).
  cbn [w_wave_sections] in *.
  destruct (q_available (eos s)); cbn [negb] in Hbuild.
  - destruct (build_reactive_types _ _ _ _ _ _ _ _ Hbuild Hs)
      as (p & t_i & pre & front & rest & e_front & _ & _ & -> & Hfront & Hpre & _ & Hrest).
    assert (ws_type front = "Deflagration"%string \/ ws_type front = "Detonation"%string)
      as Hf by (destruct (p_of s <? p); auto).
    assert (pre = [] \/ exists S, pre = [S] /\ ws_type S = "Shock"%string) as Hpre'
      by (destruct (_ && _)%bool; auto).
    assert (rest = [] \/ exists R, rest = [R] /\ ws_type R = "Rarefaction"%string) as Hrest'
      by (destruct (gtb _ _); auto).
    clear Hpre Hrest Hfront.
    destruct Hpre' as [-> | (S & -> & HtS)], Hrest' as [-> | (R & -> & HtR)]; cbn in Hin.
    + destruct Hin as (e & _ & He & _ & _ & _ & Hlaw & _).
      apply reactive_section_law in Hlaw as (H1 & H2 & Hi); [ | exact Hf ].
      exists front, e. splits; try assumption; reflexivity.
    + destruct Hin as (e & _ & _ & _ & _ & _ & Hlaw & eR & _ & He & _ & _ & _ & HlawR & _).
      apply reactive_section_law in Hlaw as (H1 & H2 & Hi); [ | exact Hf ].
      apply acoustic_section_law in HlawR as (H3 & H4 & _); [ | auto ].
      exists R, eR. splits; try assumption; try reflexivity. congruence.
    + destruct Hin as (eS & _ & _ & _ & _ & _ & HlawS & e & _ & He & _ & _ & _ & Hlaw & _).
      apply acoustic_section_law in HlawS as (H3 & H4 & _); [ | auto ].
      apply reactive_section_law in Hlaw as (H1 & H2 & Hi); [ | exact Hf ].
      exists front, e. splits; try assumption; try reflexivity. congruence.
    + destruct Hin as (eS & _ & _ & _ & _ & _ & HlawS & e & _ & _ & _ & _ & _ & Hlaw
                       & eR & _ & He & _ & _ & _ & HlawR & _).
      apply acoustic_section_law in HlawS as (H3 & H4 & _); [ | auto ].
      apply reactive_section_law in Hlaw as (H1 & H2 & Hi); [ | exact Hf ].
      apply acoustic_section_law in HlawR as (H5 & H6 & _); [ | auto ].
      exists R, eR. splits; try assumption; try reflexivity. congruence.
  - destruct (build_inert_inv _ _ _ _ _ _ _ _ Hbuild Hs) as (sec & [= ->] & [_ Hsec]).
    cbn in Hin. destruct Hin as (e & _ & He & _ & _ & _ & Hlaw & _).
    assert (ws_type sec = "Shock"%string \/ ws_type sec = "Rarefaction"%string) as Ht.
    { destruct (p_of s <? p_star).
      - apply Shock_built in Hsec as (_ & _ & _ & _ & _ & Ht & _). auto.
      - apply Rarefaction_built in Hsec as (_ & _ & _ & _ & _ & Ht & _). auto. }
    apply acoustic_section_law in Hlaw as (H1 & H2 & Hi); [ | exact Ht ].
    exists sec, e. splits; try assumption; reflexivity.
Qed.

End LastState.

(** X6. For a wave constructed with a pressure as target, the edge state on the
    unknown side ([q_r] for wavenumber 0, [q_l] otherwise) carries the
    label of the star region of its family. Its equation of state is the
    one of the known state when that has no key ['q_available'], and the
    entry ['eos_inert'] of the known one when it has. *)
Theorem Wave_unknown_state :
  forall (state_class : StateClass) (scipy : SciPy) (fuel : nat)
         (h h' : list State) (q_known : loc) (p_star : float) (wavenumber : Z)
         (w : wave.Wave) (s : State),
    wave.Wave_init fuel q_known (VNum p_star) wavenumber h = Ok (w, h') ->
    h !! q_known = Some s ->
    exists e,
      h' !! (if (wavenumber =? 0)%Z then wave.w_q_r w else wave.w_q_l w) = Some e /\
      label e = wave.star_label wavenumber /\
      if q_available (eos s) then eos_inert (eos s) = Some (eos e) else eos e = eos s.
Proof.
  intros sc sp fuel h h' q_known p_star wn w s H Hs.
  destruct (Wave_last_state _ _ _ _ _ _ _ _ H Hs)
    as (sec & e & Hlast & He & Hlbl & Hin & Heos).
  destruct (Wave_init_sections _ _ _ _ _ _ _ _ H Hs) as (h1 & _ & _ & Hs1 & Hedge).
  rewrite Hlast in Hedge. cbn [fmap option_fmap option_map] in Hedge.
  destruct (edge_states_spec _ _ _ _ _ _ _ _ Hedge Hs1) as (E0 & E2 & _).
  exists e. splits; try assumption.
  unfold wave.in_0_2 in Hin. apply orb_true_iff in Hin as [Hw | Hw];
    apply Z.eqb_eq in Hw; subst wn; cbn [Z.eqb].
  - destruct (E0 eq_refl) as [_ ->]. exact He.
  - destruct (E2 eq_refl) as [_ ->]. exact He.
Qed.

Section X6_example.
Import Example.

(** The wave of family 0 of the cold gas ends, on its right, in a state of
    the burnt gas labelled as the left star state. *)
Lemma Wave_unknown_state_witness :
  exists w h' e,
    wave.Wave_init 1000 0 (VNum 0.5) 0 [cold_gas] = Ok (w, h') /\
    h' !! wave.w_q_r w = Some e /\
    label e = wave.star_label 0 /\ eos e = eos_gamma_law.
Proof.
  destruct (wave.Wave_init 1000 0 (VNum 0.5) 0 [cold_gas]) as [[w h']| |] eqn:E;
    [ | vm_compute in E; discriminate E .. ].
  destruct (Wave_unknown_state ideal_gas solvers 1000%nat [cold_gas] h' 0%nat
              0.5 0%Z w cold_gas E eq_refl) as (e & He & Hl & Heos).
  exists w, h', e. splits; try assumption; [ reflexivity | ].
  cbn in Heos. injection Heos as <-. reflexivity.
Defined.

End X6_example.


(* ================================================================= *)
(** ** The reactive fronts *)

(** X8. A Deflagration that is returned and is not trivial solves the jump
    conditions at the target pressure. When the test
    [(wavenumber - 1) * (q_unknown.wavespeed(wavenumber) - v_deflagration) < 0]
    holds of that solution, the constructor takes the pressure [brentq]
    returns for [deflagration_root] between [(1 + 1e-9) p_end] and
    [(1 - 1e-9) p_start], solves the jump conditions again there, keeps
    that solution as the end state and takes the name CJDF; the residual
    of [deflagration_root] at that pressure is the characteristic speed of
    the end state minus the speed of the front. Otherwise the first
    solution is the end state and the name is WDF. Both speeds the section
    holds are the speed of the front. *)
Theorem Deflagration_CJ_correction :
  forall (state_class : StateClass) (scipy : SciPy) (fuel : nat)
         (h h' : list State) (q_start : loc) (p_end : float) (wavenumber : Z)
         (sec : wave.WaveSection),
    wave.Deflagration fuel q_start p_end wavenumber h = Ok (sec, h') ->
    wave.ws_trivial sec = false ->
    exists s eos_end t_i v1 u1 e v_front,
      h !! q_start = Some s /\
      eos_inert (eos s) = Some eos_end /\ t_ignition (eos s) = Some t_i /\
      wave.solve_front fuel s p_end eos_end wavenumber (wave.star_label wavenumber)
                       (h ++ [s])
        = Ok ((v1, S (length h)), h ++ [s; u1]) /\
      h' !! wave.ws_q_end sec = Some e /\
      wave.ws_wavespeed sec = [v_front; v_front] /\
      if Z2F (wavenumber - 1) * (wave.wavespeed_of u1 wavenumber - v1) <? 0 then
        exists p_cjdf,
          brentq (fun p_0_star =>
                    eval (wave.deflagration_root fuel p_0_star q_start eos_end
                                                 wavenumber (LNum t_i))
                         (h ++ [s; u1]))
                 ((1 + 1e-9) * p_end) ((1 - 1e-9) * wave.p_of s) = Ok p_cjdf /\
          wave.solve_front fuel s p_cjdf eos_end wavenumber
                           (wave.star_label wavenumber) (h ++ [s; u1])
            = Ok ((v_front, S (S (length h))), h ++ [s; u1; e]) /\
          eval (wave.deflagration_root fuel p_cjdf q_start eos_end wavenumber (LNum t_i))
               (h ++ [s; u1])
            = Ok (wave.wavespeed_of e wavenumber - v_front) /\
          wave.ws_name sec = wave.arrow_name "{\cal CJDF}" wavenumber
      else
        v_front = v1 /\ e = u1 /\
        wave.ws_name sec = wave.arrow_name "{\cal WDF}" wavenumber.
Proof.
  intros sc sp fuel h h' q_start p_end wn sec H Htriv.
  pose proof (Deflagration_inv _ _ _ _ _ _ _ H)
    as (s' & e' & Hs' & _ & _ & _ & _ & _ & _ & _ & Ht & _).
  apply Deflagration_anatomy in H
    as (s & eos_end & t_i & e & v_front & Hs & Hinert & Hti & _ & _ & He & _ & _
        & Hsp & Hshape).
  rewrite Hs in Hs'. injection Hs' as <-.
  rewrite Htriv in Ht. rewrite <- Ht in Hshape.
  destruct Hshape as (v1 & u1 & Hsolve & Hshape).
  exists s, eos_end, t_i, v1, u1, e, v_front. splits; try assumption.
  destruct (_ <? 0).
  - destruct Hshape as (p_cjdf & Hbrent & Hsolve2 & _ & Hname).
    exists p_cjdf. splits; try assumption.
    eapply deflagration_root_value with (h := h ++ [s; u1]).
    + apply lookup_grown. exact Hs.
    + rewrite <- app_assoc. exact Hsolve2.
  - destruct Hshape as (-> & -> & _ & Hname). splits; try reflexivity. exact Hname.
Qed.

Section X8_example.
Import Example.

(** A deflagration of the hot gas to the pressure 0.3: both its speeds
    are the speed of the front. *)
Lemma Deflagration_CJ_correction_witness :
  exists sec h' v_front,
    wave.Deflagration 1000 0 0.3 2 [hot_gas] = Ok (sec, h') /\
    wave.ws_wavespeed sec = [v_front; v_front].
Proof.
  destruct (wave.Deflagration 1000 0 0.3 2 [hot_gas]) as [[sec h']| |] eqn:E;
    [ | vm_compute in E; discriminate E .. ].
  assert (wave.ws_trivial sec = false) as Htriv
    by (vm_compute in E; injection E as <- _; reflexivity).
  destruct (Deflagration_CJ_correction ideal_gas solvers 1000%nat [hot_gas] h' 0%nat
              0.3 2%Z sec E Htriv)
    as (s & eos_end & t_i & v1 & u1 & e & v_front & _ & _ & _ & _ & _ & Hsp & _).
  exists sec, h', v_front. split; [ reflexivity | exact Hsp ].
Defined.

End X8_example.

Section PrecursorBracket.
Context {state_class : StateClass} {scipy : SciPy}.
Import wave.

(** At the known pressure the precursor shock is trivial: its residual is
    the known temperature minus the ignition temperature, with any fuel. *)
Lemma precursor_root_at_known fuel q_known t_i wn h s :
  h !! q_known = Some s -> in_0_2 wn = true ->
  allclose (p_of s) (p_of s) = true ->
  eval (precursor_root fuel (p_of s) q_known t_i wn) h
  = Ok (t_from_rho_eps (eos s) (rho s) (eps s) - t_i).
Proof.
  intros Hs Hw Hc.
  unfold eval, precursor_root, Shock, State_new, bind, assert. rewrite Hw. cbn.
  rewrite (deepcopy_lookup _ _ _ Hs).
  rewrite (load_lookup _ _ _ (lookup_grown _ [s] _ _ Hs)). rewrite Hc.
  unfold alloc, ret. cbn.
  rewrite (load_lookup _ _ _ (lookup_new (h ++ [s]) _ [])). reflexivity.
Qed.

(** On the precursor path the second residual is the one of the trivial
    shock, so the bracket of the root search is always doubled. *)
Lemma build_reactive_bracket fuel q_known p_star wn h r h' s t_i :
  build_reactive_wave_section fuel q_known (VNum p_star) wn h = Ok (r, h') ->
  h !! q_known = Some s ->
  t_ignition (eos s) = Some t_i ->
  wn <> 1%Z ->
  (p_of s <? p_star) = false ->
  (t_from_rho_eps (eos s) (rho s) (eps s) <? t_i) = true ->
  allclose (p_of s) (p_of s) = true ->
  (t_from_rho_eps (eos s) (rho s) (eps s) - t_i <=? 0) = true ->
  exists t_min p_0_star S h1,
    eval (precursor_root fuel p_star q_known t_i wn) h = Ok t_min /\
    (t_min <? 0) = true /\
    brentq (fun p => eval (precursor_root fuel p q_known t_i wn) h) p_star (p_of s * 2)
      = Ok p_0_star /\
    Shock fuel q_known p_0_star wn h = Ok (S, h1) /\
    exists rest, r = PyList (S :: rest).
Proof.
  intros H Hs Hti Hwn Hp Ht Hclose Hle.
  unfold build_reactive_wave_section, eos_key in H.
  apply bind_Ok in H as (s0 & h0 & Hload & H).
  apply load_Ok in Hload as (? & Hs0 & [= <- <-]).
  rewrite Hs in Hs0. injection Hs0 as <-.
  rewrite Hti in H. apply bind_Ok in H as (t & h00 & Hret & H).
  apply ret_Ok in Hret as [= <- <-].
  destruct (wn =? 1)%Z eqn:E1; [ apply Z.eqb_eq in E1; contradiction | ].
  rewrite Hp, Ht in H.
  monad_inv H.
  - eexists _, _, _, _. splits; try eassumption. eexists. reflexivity.
  - exfalso.
    match goal with HS : Shock _ _ _ _ _ = Ok _ |- _ =>
      apply Shock_inv in HS as [(? & ? & _ & _ & _ & _ & _ & _ & _ & Hin & _) _] end.
    match goal with He : eval (precursor_root _ (p_of s) _ _ _) _ = Ok _ |- _ =>
      rewrite (precursor_root_at_known _ _ _ _ _ _ Hs Hin Hclose) in He;
      injection He as <- end.
    congruence.
Qed.

End PrecursorBracket.

(** X9. On the path of the reactive strategy that builds a precursor Shock
    (known pressure not below the target, known temperature below the
    ignition temperature), the residual of [precursor_root] at the known
    pressure is the known temperature minus the ignition temperature,
    because the Shock to the known pressure is trivial. So the test
    [t_max <= 0] always succeeds: whenever the wave is returned, the
    residual at the target pressure was negative, [brentq] was called on
    the bracket from the target pressure to twice the known pressure, and
    the first section of the wave is the Shock to the pressure it returned.
    The known pressure is taken to be close to itself (it is finite) and
    the difference of the two temperatures to be at most 0. *)
Theorem precursor_bracket_doubled :
  forall (state_class : StateClass) (scipy : SciPy) (fuel : nat)
         (h h' : list State) (q_known : loc) (p_star : float) (wavenumber : Z)
         (w : wave.Wave) (s : State) (t_i : float),
    wave.Wave_init fuel q_known (VNum p_star) wavenumber h = Ok (w, h') ->
    h !! q_known = Some s ->
    q_available (eos s) = true ->
    t_ignition (eos s) = Some t_i ->
    (wave.p_of s <? p_star) = false ->
    (t_from_rho_eps (eos s) (rho s) (eps s) <? t_i) = true ->
    allclose (wave.p_of s) (wave.p_of s) = true ->
    (t_from_rho_eps (eos s) (rho s) (eps s) - t_i <=? 0) = true ->
    eval (wave.precursor_root fuel (wave.p_of s) q_known t_i wavenumber) h
      = Ok (t_from_rho_eps (eos s) (rho s) (eps s) - t_i) /\
    exists t_min p_0_star S h1,
      eval (wave.precursor_root fuel p_star q_known t_i wavenumber) h = Ok t_min /\
      (t_min <? 0) = true /\
      brentq (fun p => eval (wave.precursor_root fuel p q_known t_i wavenumber) h)
             p_star (wave.p_of s * 2) = Ok p_0_star /\
      wave.Shock fuel q_known p_0_star wavenumber h = Ok (S, h1) /\
      head (wave.w_wave_sections w) = Some S.
Proof.
  intros sc sp fuel h h' q_known p_star wn w s t_i H Hs Hq Hti Hp Ht Hclose Hle.
  destruct (Wave_init_inv _ _ _ _ _ _ _ _ H Hs)
    as (sections & h1 & q_l & q_r & Hbuild & Hedge & ->).
  rewrite Hq in Hbuild. cbn [negb] in Hbuild.
  assert (wn <> 1%Z) as Hwn.
  { intros ->. unfold wave.build_reactive_wave_section, wave.eos_key in Hbuild.
    monad_inv Hbuild; discriminate. }
  destruct (build_reactive_bracket _ _ _ _ _ _ _ _ _ Hbuild Hs Hti Hwn Hp Ht Hclose Hle)
    as (t_min & p_0_star & S & hS & Hmin & Hneg & Hbrent & HS & rest & [= ->]).
  split.
  - apply precursor_root_at_known; try assumption.
    apply Shock_inv in HS as [(? & ? & _ & _ & _ & _ & _ & _ & _ & Hin & _) _]. exact Hin.
  - exists t_min, p_0_star, S, hS. splits; try assumption. reflexivity.
Qed.

Section X9_example.
Import Example.

(** In the wave of the cold gas the residual at the target pressure is
    negative, and the search runs up to twice the known pressure. *)
Lemma precursor_bracket_doubled_witness :
  exists w h' p_0_star,
    wave.Wave_init 1000 0 (VNum 0.5) 2 [cold_gas] = Ok (w, h') /\
    brentq (fun p => eval (wave.precursor_root 1000 p 0 1 2) [cold_gas])
           0.5 (wave.p_of cold_gas * 2) = Ok p_0_star.
Proof.
  destruct (wave.Wave_init 1000 0 (VNum 0.5) 2 [cold_gas]) as [[w h']| |] eqn:E;
    [ | vm_compute in E; discriminate E .. ].
  destruct (precursor_bracket_doubled ideal_gas solvers 1000%nat [cold_gas] h' 0%nat
              0.5 2%Z w cold_gas 1 E eq_refl eq_refl eq_refl eq_refl eq_refl eq_refl
              eq_refl)
    as (_ & t_min & p_0_star & S & h1 & _ & _ & Hb & _).
  exists w, h', p_0_star. split; [ reflexivity | exact Hb ].
Defined.

End X9_example.


(* ================================================================= *)
(** ** Targets and keys a construction refuses *)

(** Comparisons with a NaN are false. *)
Lemma nan_comparisons x a :
  (x =? x) = false ->
  (x <=? a) = false /\ (a <=? x) = false /\ (x <? a) = false /\ (a <? x) = false.
Proof.
  intros Hx.
  assert (forall b, (b =? b) = true -> b = x -> False) as Hno by (intros b Hb ->; congruence).
  splits.
  - destruct (x <=? a) eqn:E; [ | reflexivity ].
    exfalso. eapply Hno; [ eapply leb_nonnan_l, E | reflexivity ].
  - destruct (a <=? x) eqn:E; [ | reflexivity ].
    exfalso. eapply Hno; [ eapply leb_nonnan_r, E | reflexivity ].
  - destruct (x <? a) eqn:E; [ | reflexivity ].
    exfalso. eapply Hno; [ eapply leb_nonnan_l, ltb_leb, E | reflexivity ].
  - destruct (a <? x) eqn:E; [ | reflexivity ].
    exfalso. eapply Hno; [ eapply leb_nonnan_r, ltb_leb, E | reflexivity ].
Qed.

(** X10. A reactive equation of state without the key ['t_ignition'] makes the
    construction of a wave raise KeyError for that key, whatever the
    target and the wavenumber. A Deflagration or a Detonation from a state
    whose equation of state has no key ['eos_inert'] raises KeyError for
    ['eos_inert']; with that key and without ['t_ignition'] it raises
    KeyError for ['t_ignition']. Both are raised before any assertion. *)
Theorem reactive_keys_required :
  (forall (state_class : StateClass) (scipy : SciPy) (fuel : nat)
          (h : list State) (q_known : loc) (unknown_value : value) (wavenumber : Z)
          (s : State),
      h !! q_known = Some s ->
      q_available (eos s) = true -> t_ignition (eos s) = None ->
      wave.Wave_init fuel q_known unknown_value wavenumber h
      = Raise (KeyError "t_ignition"))
  /\
  (forall (state_class : StateClass) (scipy : SciPy) (fuel : nat)
          (h : list State) (q_start : loc) (p_end : float) (wavenumber : Z) (s : State),
      h !! q_start = Some s ->
      (eos_inert (eos s) = None ->
       wave.Deflagration fuel q_start p_end wavenumber h = Raise (KeyError "eos_inert") /\
       wave.Detonation fuel q_start p_end wavenumber h = Raise (KeyError "eos_inert")) /\
      (eos_inert (eos s) <> None -> t_ignition (eos s) = None ->
       wave.Deflagration fuel q_start p_end wavenumber h = Raise (KeyError "t_ignition") /\
       wave.Detonation fuel q_start p_end wavenumber h = Raise (KeyError "t_ignition"))).
Proof.
  split.
  - intros sc sp fuel h q_known uv wn s Hs Hq Hti.
    unfold wave.Wave_init, bind. rewrite (load_lookup _ _ _ Hs), Hq. cbn [negb].
    unfold wave.build_reactive_wave_section, bind.
    rewrite (load_lookup _ _ _ Hs), Hti. reflexivity.
  - intros sc sp fuel h q_start p_end wn s Hs. split.
    + intros Hinert. unfold wave.Deflagration, wave.Detonation, bind.
      rewrite (load_lookup _ _ _ Hs), Hinert. split; reflexivity.
    + intros Hinert Hti. unfold wave.Deflagration, wave.Detonation, bind.
      rewrite (load_lookup _ _ _ Hs), Hti.
      destruct (eos_inert (eos s)); [ split; reflexivity | contradiction ].
Qed.

Section X10_example.
Import Example.

(** A reactive gas whose equation of state has no ignition temperature. *)
Lemma reactive_keys_required_witness :
  wave.Wave_init 1000 0 (VNum 0.5) 2 [unkeyed_gas] = Raise (KeyError "t_ignition") /\
  wave.Deflagration 1000 0 0.5 2 [unkeyed_gas] = Raise (KeyError "t_ignition") /\
  wave.Detonation 1000 0 0.5 2 [inert_gas] = Raise (KeyError "eos_inert").
Proof.
  splits.
  - exact (proj1 reactive_keys_required ideal_gas solvers 1000%nat [unkeyed_gas] 0%nat
             (VNum 0.5) 2%Z unkeyed_gas eq_refl eq_refl eq_refl).
  - refine (proj1 (proj2 (proj2 reactive_keys_required ideal_gas solvers 1000%nat
                            [unkeyed_gas] 0%nat 0.5 2%Z unkeyed_gas eq_refl) _ eq_refl)).
    discriminate.
  - exact (proj2 (proj1 (proj2 reactive_keys_required ideal_gas solvers 1000%nat
                           [inert_gas] 0%nat 0.5 2%Z inert_gas eq_refl) eq_refl)).
Defined.

End X10_example.

(** X11. When the target or the known pressure (depth) is not a number, the
    inert strategy and the shallow-water factory raise AssertionError for a
    wavenumber other than 1: both comparisons with a NaN fail, so the
    factory chooses the Rarefaction, whose assertion
    [p_start >= p_end] fails when its wavenumber assertion has not
    already. *)
Theorem nan_target_rejected :
  (forall (state_class : StateClass) (scipy : SciPy) (fuel : nat)
          (h : list State) (q_known : loc) (p_star : float) (wavenumber : Z) (s : State),
      h !! q_known = Some s ->
      q_available (eos s) = false -> wavenumber <> 1%Z ->
      (p_star =? p_star) = false \/ (wave.p_of s =? wave.p_of s) = false ->
      exists msg,
        wave.Wave_init fuel q_known (VNum p_star) wavenumber h
        = Raise (AssertionError msg))
  /\
  (forall (state_class : swe_wave.SWEStateClass) (scipy : SciPy)
          (h : list swe_wave.SWEState) (q_known : loc) (phi_star : float)
          (wavenumber : Z) (s : swe_wave.SWEState),
      h !! q_known = Some s ->
      wavenumber <> 1%Z ->
      (phi_star =? phi_star) = false \/ (swe_wave.phi s =? swe_wave.phi s) = false ->
      exists msg,
        swe_wave.build_wave_section q_known (VNum phi_star) wavenumber h
        = Raise (AssertionError msg)).
Proof.
  split.
  - intros sc sp fuel h q_known p_star wn s Hs Hq Hwn Hnan.
    assert ((wave.p_of s <? p_star) = false /\ (p_star <=? wave.p_of s) = false)
      as [Hlt Hle].
    { destruct Hnan as [Hnan | Hnan].
      - destruct (nan_comparisons _ (wave.p_of s) Hnan) as (H1 & _ & _ & H4). auto.
      - destruct (nan_comparisons _ p_star Hnan) as (_ & H2 & H3 & _). auto. }
    apply Z.eqb_neq in Hwn.
    unfold wave.Wave_init, bind. rewrite (load_lookup _ _ _ Hs), Hq. cbn [negb].
    unfold wave.build_inert_wave_section, bind. rewrite Hwn.
    rewrite (load_lookup _ _ _ Hs), Hlt.
    unfold wave.Rarefaction, bind, assert.
    destruct (wave.in_0_2 wn); [ | eexists; reflexivity ].
    cbn. rewrite (load_lookup _ _ _ Hs). unfold geb. rewrite Hle. eexists; reflexivity.
  - intros sc sp h q_known phi_star wn s Hs Hwn Hnan.
    assert ((swe_wave.phi s <? phi_star) = false /\ (phi_star <=? swe_wave.phi s) = false)
      as [Hlt Hle].
    { destruct Hnan as [Hnan | Hnan].
      - destruct (nan_comparisons _ (swe_wave.phi s) Hnan) as (H1 & _ & _ & H4). auto.
      - destruct (nan_comparisons _ phi_star Hnan) as (_ & H2 & H3 & _). auto. }
    apply Z.eqb_neq in Hwn.
    unfold swe_wave.build_wave_section, bind. rewrite Hwn.
    rewrite (load_lookup _ _ _ Hs), Hlt.
    unfold swe_wave.SWERarefaction, bind, assert.
    destruct (swe_wave.in_0_2 wn); [ | eexists; reflexivity ].
    cbn. rewrite (load_lookup _ _ _ Hs). unfold geb. rewrite Hle. eexists; reflexivity.
Qed.

Section X11_example.
Import Example.

(** A target that is not a number. *)
Lemma nan_target_rejected_witness :
  is_AssertionError (wave.Wave_init 1000 0 (VNum nan) 0 [inert_gas]) = true /\
  is_AssertionError (swe_wave.build_wave_section 0 (VNum nan) 2 [still_water]) = true.
Proof.
  split.
  - destruct (proj1 nan_target_rejected ideal_gas solvers 1000%nat [inert_gas] 0%nat
                nan 0%Z inert_gas eq_refl eq_refl ltac:(discriminate)
                (or_introl eq_refl)) as (msg & ->). reflexivity.
  - destruct (proj2 nan_target_rejected shallow_water solvers [still_water] 0%nat
                nan 2%Z still_water eq_refl ltac:(discriminate)
                (or_introl eq_refl)) as (msg & ->). reflexivity.
Defined.

End X11_example.

(** X12. With a wavenumber other than 0, 1 and 2, the construction of a wave on
    an inert state and the shallow-water factory raise AssertionError,
    whatever the pressures (depths): the factory chooses a Shock or a
    Rarefaction, and both assert that the wavenumber is 0 or 2. *)
Theorem invalid_wavenumber_rejected :
  (forall (state_class : StateClass) (scipy : SciPy) (fuel : nat)
          (h : list State) (q_known : loc) (p_star : float) (wavenumber : Z) (s : State),
      h !! q_known = Some s ->
      q_available (eos s) = false ->
      wavenumber <> 0%Z -> wavenumber <> 1%Z -> wavenumber <> 2%Z ->
      exists msg,
        wave.Wave_init fuel q_known (VNum p_star) wavenumber h
        = Raise (AssertionError msg))
  /\
  (forall (state_class : swe_wave.SWEStateClass) (scipy : SciPy)
          (h : list swe_wave.SWEState) (q_known : loc) (phi_star : float)
          (wavenumber : Z) (s : swe_wave.SWEState),
      h !! q_known = Some s ->
      wavenumber <> 0%Z -> wavenumber <> 1%Z -> wavenumber <> 2%Z ->
      exists msg,
        swe_wave.build_wave_section q_known (VNum phi_star) wavenumber h
        = Raise (AssertionError msg)).
Proof.
  assert (forall wn, wn <> 0%Z -> wn <> 2%Z -> wave.in_0_2 wn = false) as Hin.
  { intros wn H0 H2. unfold wave.in_0_2.
    apply Z.eqb_neq in H0, H2. rewrite H0, H2. reflexivity. }
  split.
  - intros sc sp fuel h q_known p_star wn s Hs Hq H0 H1 H2.
    apply Z.eqb_neq in H1.
    unfold wave.Wave_init, bind. rewrite (load_lookup _ _ _ Hs), Hq. cbn [negb].
    unfold wave.build_inert_wave_section, bind. rewrite H1.
    rewrite (load_lookup _ _ _ Hs).
    destruct (wave.p_of s <? p_star).
    + unfold wave.Shock, bind, assert. rewrite (Hin _ H0 H2). eexists; reflexivity.
    + unfold wave.Rarefaction, bind, assert. rewrite (Hin _ H0 H2). eexists; reflexivity.
  - intros sc sp h q_known phi_star wn s Hs H0 H1 H2.
    apply Z.eqb_neq in H1.
    unfold swe_wave.build_wave_section, bind. rewrite H1.
    rewrite (load_lookup _ _ _ Hs).
    destruct (swe_wave.phi s <? phi_star).
    + unfold swe_wave.SWEShock, bind, assert. unfold swe_wave.in_0_2.
      rewrite (Hin _ H0 H2). eexists; reflexivity.
    + unfold swe_wave.SWERarefaction, bind, assert. unfold swe_wave.in_0_2.
      rewrite (Hin _ H0 H2). eexists; reflexivity.
Qed.

Section X12_example.
Import Example.

(** The family 3. *)
Lemma invalid_wavenumber_rejected_witness :
  is_AssertionError (wave.Wave_init 1000 0 (VNum 1) 3 [inert_gas]) = true /\
  is_AssertionError (swe_wave.build_wave_section 0 (VNum 2) 3 [still_water]) = true.
Proof.
  split.
  - destruct (proj1 invalid_wavenumber_rejected ideal_gas solvers 1000%nat [inert_gas]
                0%nat 1 3%Z inert_gas eq_refl eq_refl ltac:(discriminate)
                ltac:(discriminate) ltac:(discriminate)) as (msg & ->). reflexivity.
  - destruct (proj2 invalid_wavenumber_rejected shallow_water solvers [still_water]
                0%nat 2 3%Z still_water eq_refl ltac:(discriminate)
                ltac:(discriminate) ltac:(discriminate)) as (msg & ->). reflexivity.
Defined.

End X12_example.


(* ================================================================= *)
(** ** The shallow-water factory *)

(** X14. For wavenumber 0 or 2 and a known depth below the target, the
    shallow-water factory always returns: one Shock, made of a copy of the
    known state and a new end state labelled for the star region. The
    Shock is trivial exactly when the two depths are close; then the end
    state has the known depth and velocity, the speed is the
    characteristic speed of the known state and the name is empty.
    Otherwise the end state has the target depth and the velocity of
    [analytic_shock], whose shock speed is the speed recorded. *)
Theorem swe_shock_branch_returns :
  forall (state_class : swe_wave.SWEStateClass) (scipy : SciPy)
         (h : list swe_wave.SWEState) (q_known : loc) (phi_star : float)
         (wavenumber : Z) (s : swe_wave.SWEState),
    h !! q_known = Some s ->
    swe_wave.in_0_2 wavenumber = true ->
    (swe_wave.phi s <? phi_star) = true ->
    exists sec e,
      swe_wave.build_wave_section q_known (VNum phi_star) wavenumber h
        = Ok ([sec], h ++ [s; e]) /\
      swe_wave.ws_type sec = "Shock"%string /\
      swe_wave.ws_wavenumber sec = wavenumber /\
      swe_wave.ws_q_start sec = length h /\ swe_wave.ws_q_end sec = S (length h) /\
      swe_wave.ws_trivial sec = allclose (swe_wave.phi s) phi_star /\
      swe_wave.label e = swe_wave.star_label wavenumber /\
      if allclose (swe_wave.phi s) phi_star then
        swe_wave.phi e = swe_wave.phi s /\ swe_wave.v e = swe_wave.v s /\
        swe_wave.ws_wavespeed sec = [swe_wave.wavespeed_of s wavenumber] /\
        swe_wave.ws_name sec = ""%string
      else
        swe_wave.phi e = phi_star /\
        swe_wave.v e = snd (swe_wave.analytic_shock s phi_star (wavenumber - 1)) /\
        swe_wave.ws_wavespeed sec
          = [fst (swe_wave.analytic_shock s phi_star (wavenumber - 1))] /\
        swe_wave.ws_name sec = swe_wave.arrow_name "{\cal S}" wavenumber.
Proof.
  intros sc sp h q_known phi_star wn s Hs Hin Hlt.
  assert ((wn =? 1)%Z = false) as Hwn.
  { unfold swe_wave.in_0_2, wave.in_0_2 in Hin. apply orb_true_iff in Hin as [H | H];
      apply Z.eqb_eq in H; subst wn; reflexivity. }
  unfold swe_wave.build_wave_section, bind. rewrite Hwn.
  rewrite (load_lookup _ _ _ Hs), Hlt.
  rewrite (SWEShock_run _ _ _ _ _ Hs Hin (ltb_leb _ _ Hlt)).
  unfold ret. eexists _, _. split; [ reflexivity | ].
  destruct (allclose (swe_wave.phi s) phi_star); cbn; splits; reflexivity.
Qed.

Section X14_example.
Import Example.

(** The shock of family 2 into still water. *)
Lemma swe_shock_branch_returns_witness :
  exists sec e,
    swe_wave.build_wave_section 0 (VNum 2) 2 [still_water]
      = Ok ([sec], [still_water] ++ [still_water; e]) /\
    swe_wave.ws_type sec = "Shock"%string /\
    swe_wave.ws_trivial sec = false /\ swe_wave.phi e = 2.
Proof.
  destruct (swe_shock_branch_returns shallow_water solvers [still_water] 0%nat 2 2%Z
              still_water eq_refl eq_refl eq_refl)
    as (sec & e & H & Ht & _ & _ & _ & Htriv & _ & Hshape).
  exists sec, e. splits; [ exact H | exact Ht | exact Htriv | ].
  destruct Hshape as (Hphi & _). exact Hphi.
Defined.

End X14_example.

Section SWEFactory.
Context {state_class : swe_wave.SWEStateClass} {scipy : SciPy}.
Import swe_wave.

Lemma SWEContact_anatomy q_start q_end wn h sec h' :
  SWEContact q_start q_end wn h = Ok (sec, h') ->
  exists l s e,
    wn = 1%Z /\ q_end = VState l /\
    h !! q_start = Some s /\ (h ++ [s]) !! l = Some e /\ h' = h ++ [s; e] /\
    ws_q_start sec = length h /\ ws_q_end sec = S (length h) /\
    ws_type sec = "Contact"%string /\ ws_wavenumber sec = 1%Z /\
    ws_wavespeed sec = [v s].
Proof.
  intros H. unfold SWEContact in H. monad_inv H; store_simpl.
  all: eexists _, _, _; rewrite <- app_assoc; cbn.
  all: match goal with Hw : (_ =? 1)%Z = true |- _ => apply Z.eqb_eq in Hw as -> end.
  all: splits; try reflexivity; try eassumption; try solve_length.
Qed.

End SWEFactory.

(** X15. Whenever the shallow-water factory returns, it returns exactly one
    section, and the store has grown by two states: a copy of the known
    state, where the section starts, and the state where it ends. The
    section records the wavenumber given. For a State as target it is a
    Contact and the wavenumber is 1; for a depth as target the wavenumber
    is 0 or 2, the section is a Shock when the known depth is below the
    target and a Rarefaction otherwise, and unless it is trivial its end
    state has the target depth. *)
Theorem swe_factory_single_section :
  forall (state_class : swe_wave.SWEStateClass) (scipy : SciPy)
         (h h' : list swe_wave.SWEState) (q_known : loc) (unknown_value : value)
         (wavenumber : Z) (sections : list swe_wave.SWEWaveSection)
         (s : swe_wave.SWEState),
    swe_wave.build_wave_section q_known unknown_value wavenumber h = Ok (sections, h') ->
    h !! q_known = Some s ->
    exists sec e,
      sections = [sec] /\ h' = h ++ [s; e] /\
      swe_wave.ws_q_start sec = length h /\ swe_wave.ws_q_end sec = S (length h) /\
      swe_wave.ws_wavenumber sec = wavenumber /\
      match unknown_value with
      | VState _ => wavenumber = 1%Z /\ swe_wave.ws_type sec = "Contact"%string
      | VNum phi_star =>
          swe_wave.in_0_2 wavenumber = true /\
          swe_wave.ws_type sec =
            (if swe_wave.phi s <? phi_star then "Shock"%string else "Rarefaction"%string) /\
          (swe_wave.ws_trivial sec = false -> swe_wave.phi e = phi_star)
      end.
Proof.
  intros sc sp h h' q_known uv wn sections s H Hs.
  unfold swe_wave.build_wave_section in H.
  destruct (wn =? 1)%Z eqn:E1.
  - apply Z.eqb_eq in E1 as ->. monad_inv H.
    match goal with Hc : swe_wave.SWEContact _ _ _ _ = Ok _ |- _ =>
      apply SWEContact_anatomy in Hc
        as (l & s' & e & _ & -> & Hs' & _ & -> & Hst & Hen & Ht & Hw & _) end.
    rewrite Hs in Hs'. injection Hs' as <-.
    eexists _, e. splits; try reflexivity; assumption.
  - apply bind_Ok in H as (s0 & h0 & Hload & H).
    apply load_Ok in Hload as (? & Hs0 & [= <- <-]).
    rewrite Hs in Hs0. injection Hs0 as <-.
    destruct uv as [phi_star | l]; [ | discriminate ].
    destruct (swe_wave.phi s <? phi_star) eqn:Elt; monad_inv H.
    + match goal with Hc : swe_wave.SWEShock _ _ _ _ = Ok _ |- _ =>
        pose proof (SWEShock_inv _ _ _ _ _ _ Hc)
          as (s' & e' & Hs' & _ & _ & _ & _ & Ht & Hw & Hin & Htriv & _);
        rewrite (SWEShock_run _ _ _ _ _ Hs Hin (ltb_leb _ _ Elt)) in Hc;
        injection Hc as <- <- end.
      rewrite Hs in Hs'. injection Hs' as <-.
      eexists _, _. split; [ reflexivity | ]. split; [ reflexivity | ].
      destruct (allclose (swe_wave.phi s) phi_star); cbn; splits; try reflexivity;
        try assumption; discriminate.
    + match goal with Hc : swe_wave.SWERarefaction _ _ _ _ = Ok _ |- _ =>
        pose proof (SWERarefaction_inv _ _ _ _ _ _ Hc)
          as (s' & e' & Hs' & _ & _ & _ & _ & Ht & Hw & Hin & Htriv & _);
        apply SWERarefaction_anatomy in Hc
          as (s'' & e & Hs'' & -> & Hst & Hen & _ & Hshape) end.
      rewrite Hs in Hs', Hs''. injection Hs' as <-. injection Hs'' as <-.
      eexists _, e. splits; try reflexivity; try assumption.
      intros Hnt. rewrite Htriv in Hnt. rewrite Hnt in Hshape.
      destruct Hshape as (Hphi & _). exact Hphi.
Qed.

Section X15_example.
Import Example.

(** The shallow-water wave of family 0 from still water of depth 1 to the
    depth 2 is a single shock that ends at depth 2. *)
Lemma swe_factory_single_section_witness :
  exists sec e,
    swe_wave.build_wave_section 0 (VNum 2) 0 [still_water]
      = Ok ([sec], [still_water] ++ [still_water; e]) /\
    swe_wave.ws_type sec = "Shock"%string /\ swe_wave.phi e = 2.
Proof.
  destruct (swe_wave.build_wave_section 0 (VNum 2) 0 [still_water])
    as [[sections h']| |] eqn:E; [ | vm_compute in E; discriminate E .. ].
  destruct (swe_factory_single_section shallow_water solvers [still_water] h' 0%nat
              (VNum 2) 0%Z sections still_water E eq_refl)
    as (sec & e & -> & -> & _ & _ & _ & _ & Ht & Hphi).
  exists sec, e. splits; [ reflexivity | exact Ht | ].
  apply Hphi. vm_compute in E. injection E as <- _. reflexivity.
Defined.

End X15_example.

(** X13. The two speeds of a returned Rarefaction are the characteristic speeds
    of its start state and of its end state: the start state's first for
    wavenumber 0, the end state's first otherwise. This holds of a trivial
    relativistic Rarefaction too (its two speeds are then equal); for a
    shallow-water Rarefaction it holds when the section is not trivial,
    and its end state then has the target depth. *)
Theorem rarefaction_fan_edges :
  (forall (state_class : StateClass) (scipy : SciPy)
          (h h' : list State) (q_start : loc) (p_end : float) (wavenumber : Z)
          (sec : wave.WaveSection),
      wave.Rarefaction q_start p_end wavenumber h = Ok (sec, h') ->
      exists s e,
        h !! q_start = Some s /\ h' !! wave.ws_q_end sec = Some e /\
        wave.ws_wavespeed sec =
          if (wavenumber =? 0)%Z
          then [wave.wavespeed_of s wavenumber; wave.wavespeed_of e wavenumber]
          else [wave.wavespeed_of e wavenumber; wave.wavespeed_of s wavenumber])
  /\
  (forall (state_class : swe_wave.SWEStateClass) (scipy : SciPy)
          (h h' : list swe_wave.SWEState) (q_start : loc) (phi_end : float)
          (wavenumber : Z) (sec : swe_wave.SWEWaveSection),
      swe_wave.SWERarefaction q_start phi_end wavenumber h = Ok (sec, h') ->
      swe_wave.ws_trivial sec = false ->
      exists s e,
        h !! q_start = Some s /\ h' !! swe_wave.ws_q_end sec = Some e /\
        swe_wave.phi e = phi_end /\
        swe_wave.ws_wavespeed sec =
          if (wavenumber =? 0)%Z
          then [swe_wave.wavespeed_of s wavenumber; swe_wave.wavespeed_of e wavenumber]
          else [swe_wave.wavespeed_of e wavenumber; swe_wave.wavespeed_of s wavenumber]).
Proof.
  split.
  - intros sc sp h h' q_start p_end wn sec H.
    pose proof (Rarefaction_inv _ _ _ _ _ _ H)
      as [(s' & e' & Hs' & _ & He' & _ & _ & _ & _ & _ & _ & Htriv) _].
    apply Rarefaction_anatomy in H
      as (s & e & Hs & -> & _ & Hen & Heos & _ & _ & Hsp).
    rewrite Hs in Hs'. injection Hs' as <-.
    assert ((h ++ [s; e]) !! wave.ws_q_end sec = Some e) as He
      by (rewrite Hen; solve_lookup).
    rewrite He in He'. injection He' as <-.
    exists s, e. splits; try assumption.
    rewrite Hsp. cbn zeta.
    destruct (allclose (wave.p_of s) p_end); [ | reflexivity ].
    destruct (Htriv eq_refl) as (Hr & Hv & Hvt & Heps & _).
    assert (wave.wavespeed_of e wn = wave.wavespeed_of s wn) as ->
      by (unfold wave.wavespeed_of; rewrite Hr, Hv, Hvt, Heps, Heos; reflexivity).
    reflexivity.
  - intros sc sp h h' q_start phi_end wn sec H Hnt.
    pose proof (SWERarefaction_inv _ _ _ _ _ _ H)
      as (s' & e' & Hs' & _ & _ & _ & _ & _ & _ & _ & Htriv & _).
    apply SWERarefaction_anatomy in H
      as (s & e & Hs & -> & _ & Hen & _ & Hshape).
    rewrite Hs in Hs'. injection Hs' as <-.
    rewrite Htriv in Hnt. rewrite Hnt in Hshape.
    destruct Hshape as (Hphi & _ & _ & Hsp).
    exists s, e. splits; try assumption.
    rewrite Hen. solve_lookup.
Qed.

Section X13_example.
Import Example.

(** The rarefactions of family 0 of the inert gas and of still water to
    one half of the pressure and of the depth. *)
Lemma rarefaction_fan_edges_witness :
  (exists sec h' e,
     wave.Rarefaction 0 0.5 0 [inert_gas] = Ok (sec, h') /\
     h' !! wave.ws_q_end sec = Some e /\
     wave.ws_wavespeed sec = [wave.wavespeed_of inert_gas 0; wave.wavespeed_of e 0]) /\
  (exists sec h' e,
     swe_wave.SWERarefaction 0 0.5 0 [still_water] = Ok (sec, h') /\
     h' !! swe_wave.ws_q_end sec = Some e /\
     swe_wave.ws_wavespeed sec
       = [swe_wave.wavespeed_of still_water 0; swe_wave.wavespeed_of e 0]).
Proof.
  split.
  - destruct (wave.Rarefaction 0 0.5 0 [inert_gas]) as [[sec h']| |] eqn:E;
      [ | vm_compute in E; discriminate E .. ].
    destruct (proj1 rarefaction_fan_edges ideal_gas solvers [inert_gas] h' 0%nat 0.5
                0%Z sec E) as (s & e & [= <-] & He & Hsp).
    exists sec, h', e. splits; [ reflexivity | exact He | exact Hsp ].
  - assert (match swe_wave.SWERarefaction 0 0.5 0 [still_water] with
            | Ok (sec, _) => swe_wave.ws_trivial sec = false
            | _ => False
            end) as Htriv by (vm_compute; reflexivity).
    destruct (swe_wave.SWERarefaction 0 0.5 0 [still_water]) as [[sec h']| |] eqn:E;
      [ | destruct Htriv .. ].
    destruct (proj2 rarefaction_fan_edges shallow_water solvers [still_water] h' 0%nat
                0.5 0%Z sec E Htriv) as (s & e & [= <-] & He & _ & Hsp).
    exists sec, h', e. splits; [ reflexivity | exact He | exact Hsp ].
Defined.

End X13_example.

Section SWENames.
Context {state_class : swe_wave.SWEStateClass} {scipy : SciPy}.
Import swe_wave.

Lemma arrow_name_nonempty base wn : base <> ""%string -> wave.arrow_name base wn <> ""%string.
Proof.
  intros Hb. unfold wave.arrow_name.
  destruct (wn =? 0)%Z; destruct base; try contradiction; discriminate.
Qed.

(** The name of a shallow-water section is empty exactly when the section
    is trivial. *)
Lemma swe_section_name q_known uv wn h sections h' :
  build_wave_section q_known uv wn h = Ok (sections, h') ->
  exists sec, sections = [sec] /\
    (ws_name sec = ""%string <-> ws_trivial sec = true).
Proof.
  intros H. unfold build_wave_section in H.
  destruct (wn =? 1)%Z.
  - monad_inv H. eexists. split; [ reflexivity | ].
    match goal with Hc : SWEContact _ _ _ _ = Ok _ |- _ =>
      unfold SWEContact in Hc; monad_inv Hc end.
    cbn.
    match goal with Hp : (if ?c then _ else _) = (_, _) |- _ =>
      destruct c; injection Hp as <- <- end.
    all: split; try reflexivity; discriminate.
  - apply bind_Ok in H as (s & h0 & Hload & H).
    apply load_Ok in Hload as (? & Hs & [= <- <-]).
    destruct uv as [phi_star | l]; [ | discriminate ].
    destruct (phi s <? phi_star) eqn:Elt; monad_inv H.
    + eexists. split; [ reflexivity | ].
      match goal with Hc : SWEShock _ _ _ _ = Ok _ |- _ =>
        pose proof (SWEShock_inv _ _ _ _ _ _ Hc)
          as (s' & e' & Hs' & _ & _ & _ & _ & _ & _ & Hin & _);
        rewrite Hs in Hs'; injection Hs' as <-;
        rewrite (SWEShock_run _ _ _ _ _ Hs Hin (ltb_leb _ _ Elt)) in Hc;
        injection Hc as <- <- end.
      destruct (allclose (phi s) phi_star); cbn; split; try reflexivity; try discriminate.
      intros Hn. exfalso. revert Hn. apply arrow_name_nonempty. discriminate.
    + eexists. split; [ reflexivity | ].
      match goal with Hc : SWERarefaction _ _ _ _ = Ok _ |- _ =>
        pose proof (SWERarefaction_inv _ _ _ _ _ _ Hc)
          as (s' & e' & Hs' & _ & _ & _ & _ & _ & _ & _ & Htriv & _);
        apply SWERarefaction_anatomy in Hc
          as (s'' & e & Hs'' & _ & _ & _ & _ & Hshape) end.
      rewrite Hs in Hs', Hs''. injection Hs' as <-. injection Hs'' as <-.
      rewrite Htriv. destruct (allclose (phi s) phi_star).
      * destruct Hshape as (_ & _ & -> & _). split; reflexivity.
      * destruct Hshape as (_ & _ & -> & _). split; [ | discriminate ].
        intros Hn. exfalso. revert Hn. apply arrow_name_nonempty. discriminate.
Qed.

End SWENames.

(** X16. A shallow-water wave that is returned, over a base initialiser that
    leaves the two lists empty, has one section; its name and its trivial
    flag are those of the section. Its name is empty exactly when it is
    trivial, and its list of speeds is empty exactly when it is trivial. *)
Theorem swe_wave_trivial_name :
  forall (state_class : swe_wave.SWEStateClass) (scipy : SciPy)
         (wave_base : swe_wave.WaveBase)
         (h h' : list swe_wave.SWEState) (q_known : loc) (unknown_value : value)
         (wavenumber : Z) (w : swe_wave.SWEWave),
    swe_wave.SWEWave_init q_known unknown_value wavenumber h = Ok (w, h') ->
    swe_wave.Wave_base_init q_known unknown_value wavenumber = Ok ([], []) ->
    exists sec,
      swe_wave.w_wave_sections w = [sec] /\
      swe_wave.w_name w = swe_wave.ws_name sec /\
      swe_wave.w_trivial w = swe_wave.ws_trivial sec /\
      (swe_wave.w_name w = ""%string <-> swe_wave.w_trivial w = true) /\
      (swe_wave.w_wavespeed w = [] <-> swe_wave.w_trivial w = true).
Proof.
  intros sc sp wb h h' q_known uv wn w H Hbase.
  unfold swe_wave.SWEWave_init in H.
  apply bind_Ok in H as ([ss0 ws0] & h0 & Hb & H).
  apply lift_Ok in Hb as (? & Hb & [= <- <-]).
  rewrite Hbase in Hb. injection Hb as <- <-.
  apply bind_Ok in H as (waves & h1 & Hbuild & H).
  apply bind_Ok in H as ([q_l q_r] & h3 & Hedge & H).
  apply ret_Ok in H as [= -> ->].
  destruct (swe_section_name _ _ _ _ _ _ Hbuild) as (sec & -> & Hname).
  exists sec. cbn. splits; try reflexivity.
  - destruct (swe_wave.ws_trivial sec); reflexivity.
  - destruct (swe_wave.ws_trivial sec); cbn in *; exact Hname.
  - destruct (swe_wave.ws_trivial sec); cbn; [ split; reflexivity | ].
    split; [ | discriminate ].
    unfold speed_bracket. destruct (speed_bounds _) as [lo hi].
    destruct (negb _); discriminate.
Qed.

Section X16_example.
Import Example.

(** The shallow-water wave from still water of depth 1 to the depth 1. *)
Lemma swe_wave_trivial_name_witness :
  exists w h',
    swe_wave.SWEWave_init 0 (VNum 1) 0 [still_water] = Ok (w, h') /\
    swe_wave.w_trivial w = true /\ swe_wave.w_name w = ""%string /\
    swe_wave.w_wavespeed w = [].
Proof.
  destruct (swe_wave.SWEWave_init 0 (VNum 1) 0 [still_water]) as [[w h']| |] eqn:E;
    [ | vm_compute in E; discriminate E .. ].
  destruct (swe_wave_trivial_name shallow_water solvers empty_base [still_water] h'
              0%nat (VNum 1) 0%Z w E eq_refl)
    as (sec & _ & _ & _ & Hname & Hsp).
  assert (swe_wave.w_trivial w = true) as Ht
    by (vm_compute in E; injection E as <- _; reflexivity).
  exists w, h'. splits; [ reflexivity | exact Ht | apply Hname, Ht | apply Hsp, Ht ].
Defined.

End X16_example.


(* ================================================================= *)
(** ** The LaTeX descriptions *)

(** X17. [wave_sections_latex_string] for wavenumber 2 is the string for
    wavenumber 0 of the names in the opposite order; every wavenumber
    other than 2 gives the string of wavenumber 0; and fewer than two
    names are joined without parentheses, in every family. *)
Theorem latex_name_reversed :
  forall names : list string,
    wave_sections_latex_string 2 names = wave_sections_latex_string 0 (rev names) /\
    (forall wavenumber, wavenumber <> 2%Z ->
       wave_sections_latex_string wavenumber names = wave_sections_latex_string 0 names) /\
    (forall wavenumber, (length names < 2)%nat ->
       wave_sections_latex_string wavenumber names = String.concat "" names).
Proof.
  intros names. splits.
  - destruct names as [ | a [ | b l ] ]; try reflexivity.
    change (wave_sections_latex_string 2 (a :: b :: l))
      with ("\left(" ++ String.concat "" (rev (a :: b :: l)) ++ "\right) ")%string.
    destruct (rev (a :: b :: l)) as [ | x [ | y l' ] ] eqn:E; try reflexivity.
    + apply (f_equal length) in E. rewrite length_rev in E. discriminate.
    + apply (f_equal length) in E. rewrite length_rev in E. discriminate.
  - intros wn Hwn. apply Z.eqb_neq in Hwn.
    destruct names as [ | a [ | b l ] ]; try reflexivity.
    unfold wave_sections_latex_string. rewrite Hwn. reflexivity.
  - intros wn Hlen. destruct names as [ | a [ | b l ] ]; try reflexivity.
    cbn in Hlen. lia.
Qed.

Section X17_example.
Import Example.

(** Three names, in the three families. *)
Lemma latex_name_reversed_witness :
  wave_sections_latex_string 2 ["S"; "D"; "R"]%string = "\left(RDS\right) "%string /\
  wave_sections_latex_string 1 ["S"; "D"; "R"]%string
    = wave_sections_latex_string 0 ["S"; "D"; "R"]%string /\
  wave_sections_latex_string 2 ["S"]%string = "S"%string.
Proof.
  splits.
  - rewrite (proj1 (latex_name_reversed ["S"; "D"; "R"]%string)). reflexivity.
  - apply (proj1 (proj2 (latex_name_reversed ["S"; "D"; "R"]%string))). discriminate.
  - rewrite (proj2 (proj2 (latex_name_reversed ["S"]%string)) 2%Z); [ reflexivity | ].
    simpl. lia.
Defined.

End X17_example.

Lemma append_nonempty (a b : string) : b <> ""%string -> (a ++ b)%string <> ""%string.
Proof. intros Hb. destruct a; [ exact Hb | discriminate ]. Qed.

Section Display.
Context {state_class : StateClass} {py_format : PyFormat}.
Import wave.

Lemma WaveSection_latex_string_returns sec :
  ws_wavespeed sec <> [] -> is_Ok (WaveSection_latex_string sec) = true.
Proof.
  intros Hne. unfold WaveSection_latex_string.
  destruct (ws_trivial sec); [ reflexivity | ].
  destruct (ws_wavespeed sec) as [ | x xs ] eqn:E; [ contradiction | ].
  destruct (1 <? length (x :: xs))%nat; cbn [head]; [ | reflexivity ].
  destruct (last (x :: xs)) eqn:El; [ reflexivity | ].
  apply last_None in El. discriminate.
Qed.

Lemma Wave_latex_string_returns w :
  Forall (fun sec => ws_wavespeed sec <> []) (w_wave_sections w) ->
  is_Ok (Wave_latex_string w) = true.
Proof.
  intros Hall. unfold Wave_latex_string.
  destruct (w_wave_sections w) as [ | first rest ] eqn:E; [ reflexivity | ].
  apply Forall_cons in Hall as [Hfirst Hrest].
  assert (exists x xs, latex_speeds (first :: rest) = Ok (x :: xs)) as (x & xs & ->).
  { unfold latex_speeds. destruct rest as [ | second rest' ].
    - destruct (ws_wavespeed first) as [ | x xs ]; [ contradiction | ]. eauto.
    - destruct (ws_wavespeed first) as [ | x xs ]; [ contradiction | ]. cbn [head].
      destruct (last (second :: rest')) as [final | ] eqn:El;
        [ | apply last_None in El; discriminate ].
      apply last_Some_elem_of in El. rewrite Forall_forall in Hrest.
      specialize (Hrest _ El).
      destruct (last (ws_wavespeed final)) eqn:Ef; [ eauto | ].
      apply last_None in Ef. contradiction. }
  reflexivity.
Qed.

End Display.

(** X18. For every constructed wave, [Wave.latex_string] returns a string that
    is not empty, and [latex_string] of each of its sections returns too:
    no section of a constructed wave has an empty list of speeds, whatever
    the conversion of a float to four decimals prints. *)
Theorem latex_string_returns :
  forall (state_class : StateClass) (scipy : SciPy) (py_format : PyFormat) (fuel : nat)
         (h h' : list State) (q_known : loc) (unknown_value : value) (wavenumber : Z)
         (w : wave.Wave) (s : State),
    wave.Wave_init fuel q_known unknown_value wavenumber h = Ok (w, h') ->
    h !! q_known = Some s ->
    is_Ok (wave.Wave_latex_string w) = true /\
    wave.Wave_latex_string w <> Ok ""%string /\
    Forall (fun sec => is_Ok (wave.WaveSection_latex_string sec) = true)
           (wave.w_wave_sections w).
Proof.
  intros sc sp pf fuel h h' q_known uv wn w s H Hs.
  destruct (Wave_sections_in _ _ _ _ _ _ _ _ H Hs) as (Hin & Hne & _).
  apply sections_in_law in Hin.
  assert (Forall (fun sec => wave.ws_wavespeed sec <> []) (wave.w_wave_sections w)) as Hsp.
  { eapply Forall_impl; [ exact Hin | ]. cbn.
    intros sec (prev & e & [[_ Hlen] _]) Hnil. rewrite Hnil in Hlen.
    unfold speeds_of_type in Hlen. destruct (_ || _)%bool; discriminate. }
  splits.
  - apply Wave_latex_string_returns, Hsp.
  - pose proof (Wave_latex_string_returns w Hsp) as Hok.
    unfold wave.Wave_latex_string in *.
    destruct (wave.w_wave_sections w); [ contradiction | ].
    destruct (wave.latex_speeds _) as [speeds | | ]; try discriminate.
    destruct (pymin_list speeds); try discriminate.
    destruct (pymax_list speeds); try discriminate.
    intros [= Heq]. revert Heq. apply append_nonempty. discriminate.
  - eapply Forall_impl; [ exact Hsp | ]. cbn. intros sec.
    apply WaveSection_latex_string_returns.
Qed.

Section X18_example.
Import Example.

(** The wave of the cold gas has a LaTeX description. *)
Lemma latex_string_returns_witness :
  exists w h',
    wave.Wave_init 1000 0 (VNum 0.5) 2 [cold_gas] = Ok (w, h') /\
    is_Ok (wave.Wave_latex_string w) = true.
Proof.
  destruct (wave.Wave_init 1000 0 (VNum 0.5) 2 [cold_gas]) as [[w h']| |] eqn:E;
    [ | vm_compute in E; discriminate E .. ].
  exists w, h'. split; [ reflexivity | ].
  exact (proj1 (latex_string_returns ideal_gas solvers fixed_point 1000%nat [cold_gas]
                  h' 0%nat (VNum 0.5) 2%Z w cold_gas E eq_refl)).
Defined.

End X18_example.
